(** * Enterprise-architecture repository core: a shallow embedding

    The development follows the TypeScript sources:
    - [eaMetaModel.ts]             object types and their layers;
    - [architectureScopePolicy]    the scope write policy;
    - [RelationshipSemantics.ts]   the endpoint rule table;
    - [ArchitectureRepository]     the typed element store;
    - [governanceValidation]       the governance debt aggregator;
    - [EaRepositoryContext]        snapshots, history and the governance gate;
    - [CatalogTableTab.tsx]        the titles and columns of the catalog tables;
    - [ExplorerTree.tsx]           the explorer tree and its selection handler.

    JavaScript values are modelled by the type [json]; a string is held
    as its UTF-8 encoding; a JS [Map] is an association list in insertion
    order; mutable refs and the effects of
    the provider (local storage, audit log, notifications) are explicit
    state and an explicit event trace. *)

From Stdlib Require Import ZArith String Ascii List Bool Lia.
From Stdlib Require OrderedTypeEx.
From stdpp Require Import base list strings pretty sorting.

Import ListNotations.
Local Open Scope string_scope.
Local Open Scope list_scope.

(* ===================================================================== *)
(** * Part I: definitions                                                *)
(* ===================================================================== *)

(** ** JavaScript values *)

Module Json.

Set Warnings "-register-all".

Inductive json : Type :=
| JNull
| JUndefined
| JBool (b : bool)
| JNum (n : Z)
| JStr (s : string)
| JArr (items : list json)
| JObj (props : list (string * json)).

(** Numbers are the integers, rendered in decimal as [String(n)] and
    [JSON.stringify(n)] both do for integral doubles; fractional numbers
    are outside the model.  An object lists its own properties in
    [Object.keys] order. *)

Definition Props : Type := list (string * json).

(** [obj[k]]: the first (and, in a JS object, only) entry under [k]. *)
Fixpoint getProp (k : string) (props : Props) : option json :=
  match props with
  | [] => None
  | (k', v) :: rest => if String.eqb k k' then Some v else getProp k rest
  end.

Definition isUndefined (v : json) : bool :=
  match v with JUndefined => true | _ => false end.

(** JS truthiness, as used by [a || b] and [!a]. *)
Definition truthy (v : json) : bool :=
  match v with
  | JNull | JUndefined => false
  | JBool b => b
  | JNum n => negb (n =? 0)%Z
  | JStr s => negb (String.eqb s EmptyString)
  | JArr _ | JObj _ => true
  end.

(** [(v as any) || d] *)
Definition orElse (v : option json) (d : json) : json :=
  match v with
  | Some x => if truthy x then x else d
  | None => d
  end.

(** *** String quoting of [JSON.stringify] *)

Definition hexDigit (n : nat) : ascii :=
  match n with
  | 0 => "0" | 1 => "1" | 2 => "2" | 3 => "3" | 4 => "4" | 5 => "5"
  | 6 => "6" | 7 => "7" | 8 => "8" | 9 => "9" | 10 => "a" | 11 => "b"
  | 12 => "c" | 13 => "d" | 14 => "e" | _ => "f"
  end%char.

Definition dquote : ascii := ascii_of_nat 34.
Definition backslash : ascii := ascii_of_nat 92.

Definition escapeChar (c : ascii) : string :=
  let n := nat_of_ascii c in
  if Nat.eqb n 34 then String backslash (String dquote EmptyString)
  else if Nat.eqb n 92 then String backslash (String backslash EmptyString)
  else if Nat.eqb n 8 then String backslash "b"
  else if Nat.eqb n 12 then String backslash "f"
  else if Nat.eqb n 10 then String backslash "n"
  else if Nat.eqb n 13 then String backslash "r"
  else if Nat.eqb n 9 then String backslash "t"
  else if Nat.ltb n 32 then
    String backslash
      (String "u" (String "0" (String "0"
        (String (hexDigit (n / 16)) (String (hexDigit (n mod 16)) EmptyString)))))
  else String c EmptyString.

Fixpoint escapeString (s : string) : string :=
  match s with
  | EmptyString => EmptyString
  | String c rest => escapeChar c +:+ escapeString rest
  end.

Definition quote (s : string) : string :=
  String dquote (escapeString s +:+ String dquote EmptyString).

(** *** [JSON.stringify] on a value

    Properties whose value is [undefined] are left out of objects and an
    [undefined] array item is written [null].  The provider only ever
    stringifies an object, so the top-level [undefined] case (where
    JavaScript returns no text at all) does not arise. *)

Fixpoint jsonText (v : json) : string :=
  match v with
  | JNull | JUndefined => "null"
  | JBool true => "true"
  | JBool false => "false"
  | JNum n => pretty n
  | JStr s => quote s
  | JArr items => "[" +:+ String.concat "," (List.map jsonText items) +:+ "]"
  | JObj props =>
      "{" +:+ String.concat ","
        (List.flat_map
           (fun kv => if isUndefined (snd kv) then []
                      else [quote (fst kv) +:+ ":" +:+ jsonText (snd kv)]) props)
      +:+ "}"
  end.

(** What survives a trip through JSON text: the value that
    [JSON.parse(JSON.stringify(v))] denotes. *)
Fixpoint jsonNormalize (v : json) : json :=
  match v with
  | JUndefined => JNull
  | JArr items => JArr (List.map jsonNormalize items)
  | JObj props =>
      JObj (List.flat_map
              (fun kv => if isUndefined (snd kv) then []
                         else [(fst kv, jsonNormalize (snd kv))]) props)
  | other => other
  end.

(** [Object.keys(v)] of an object. *)
Definition propKeys (v : json) : list string :=
  match v with
  | JObj props => List.map fst props
  | _ => []
  end.

(** *** [Array.prototype.sort] with a comparator (stable) *)

Section Sort.
Context {A : Type} (cmp : A -> A -> comparison).

Fixpoint insertSorted (x : A) (l : list A) : list A :=
  match l with
  | [] => [x]
  | y :: rest =>
      match cmp x y with
      | Lt => x :: y :: rest
      | _ => y :: insertSorted x rest
      end
  end.

Definition sortBy (l : list A) : list A :=
  fold_left (fun acc x => insertSorted x acc) l [].
End Sort.

(** *** [stableStringify] (EaRepositoryContext, lines 36-49)

    [localeCompare] belongs to the JavaScript runtime and depends on its
    locale data, so it is a parameter. *)

Section Stable.
Variable localeCompare : string -> string -> comparison.

Fixpoint lookupRendered (k : string) (l : list (string * string)) : string :=
  match l with
  | [] => "undefined"
  | (k', s) :: rest => if String.eqb k k' then s else lookupRendered k rest
  end.

Fixpoint stableStringify (v : json) : string :=
  match v with
  | JNull => "null"
  | JStr s => quote s
  | JNum n => pretty n
  | JBool true => "true"
  | JBool false => "false"
  | JUndefined => "undefined"
  | JArr items =>
      "[" +:+ String.concat "," (List.map stableStringify items) +:+ "]"
  | JObj props =>
      let rendered := List.map (fun kv => (fst kv, stableStringify (snd kv))) props in
      let keys := sortBy localeCompare (List.map fst props) in
      "{" +:+ String.concat ","
        (List.map (fun k => quote k +:+ ":" +:+ lookupRendered k rendered) keys)
      +:+ "}"
  end.
End Stable.

End Json.

(** ** The meta-model (eaMetaModel.ts) *)

Module MetaModel.

Definition OBJECT_TYPES : list string :=
  [ "CapabilityCategory"; "Capability"; "SubCapability"; "BusinessProcess";
    "Department"; "Application"; "Technology"; "Programme"; "Project";
    "Principle"; "Requirement" ].

Inductive EaLayer : Type := Strategy | Business | Application | Technology.

Definition EaLayer_eqb (a b : EaLayer) : bool :=
  match a, b with
  | Strategy, Strategy | Business, Business
  | Application, Application | Technology, Technology => true
  | _, _ => false
  end.

(** [OBJECT_TYPE_DEFINITIONS[objectType]?.layer] *)
Definition layerOf (objectType : string) : option EaLayer :=
  if String.eqb objectType "Programme" then Some Strategy
  else if String.eqb objectType "Project" then Some Strategy
  else if String.eqb objectType "Principle" then Some Strategy
  else if String.eqb objectType "Requirement" then Some Strategy
  else if String.eqb objectType "CapabilityCategory" then Some Business
  else if String.eqb objectType "Capability" then Some Business
  else if String.eqb objectType "SubCapability" then Some Business
  else if String.eqb objectType "BusinessProcess" then Some Business
  else if String.eqb objectType "Department" then Some Business
  else if String.eqb objectType "Application" then Some Application
  else if String.eqb objectType "Technology" then Some Technology
  else None.

Definition layerIs (l : option EaLayer) (x : EaLayer) : bool :=
  match l with Some y => EaLayer_eqb y x | None => false end.

(** [(OBJECT_TYPES as readonly string[]).includes(type)] *)
Definition isValidObjectType (type : string) : bool :=
  existsb (String.eqb type) OBJECT_TYPES.

End MetaModel.

(** ** Scope write policy (architectureScopePolicy) *)

Module ScopePolicy.
Import MetaModel.

(** [architectureScope === 'name'] on a scope that may be null or undefined. *)
Definition scopeIs (architectureScope : option string) (name : string) : bool :=
  match architectureScope with
  | Some s => String.eqb s name
  | None => false
  end.

Definition isObjectTypeWritableForScope
    (architectureScope : option string) (objectType : string) : bool :=
  let layer := layerOf objectType in
  if scopeIs architectureScope "Programme" then
    String.eqb objectType "Programme" || String.eqb objectType "Project"
  else if scopeIs architectureScope "Business Unit" then
    layerIs layer Business || layerIs layer Application
  else if scopeIs architectureScope "Domain" then
    layerIs layer Application || layerIs layer Technology
  else true.

(** The object type may be null or undefined ([None]); the empty string
    is falsy as well. *)
Definition isAnyObjectTypeWritableForScope
    (architectureScope : option string) (objectType : option string) : bool :=
  match objectType with
  | None => false
  | Some t =>
      if String.eqb t EmptyString then false
      else if negb (isValidObjectType t) then false
      else isObjectTypeWritableForScope architectureScope t
  end.

Definition getReadOnlyReason
    (architectureScope : option string) (objectType : option string)
    : option string :=
  let invalid :=
    match objectType with
    | None => true
    | Some t => String.eqb t EmptyString || negb (isValidObjectType t)
    end in
  if invalid then
    if scopeIs architectureScope "Programme" then Some "Read-only in Programme scope."
    else if scopeIs architectureScope "Business Unit" then Some "Read-only in Business Unit scope."
    else if scopeIs architectureScope "Domain" then Some "Read-only in Domain scope."
    else None
  else
    let layer := match objectType with Some t => layerOf t | None => None end in
    if scopeIs architectureScope "Business Unit" then
      if layerIs layer Business || layerIs layer Application then None
      else Some "Read-only in Business Unit scope: only Business + Application layers are editable."
    else if scopeIs architectureScope "Domain" then
      if layerIs layer Application || layerIs layer Technology then None
      else Some "Read-only in Domain scope: only Application + Technology layers are editable."
    else if scopeIs architectureScope "Programme" then
      match objectType with
      | Some t =>
          if String.eqb t "Programme" || String.eqb t "Project" then None
          else Some "Read-only in Programme scope: only Programme + Project elements are editable."
      | None => None
      end
    else None.

End ScopePolicy.

(** ** JavaScript strings and maps *)

Module Js.

(** A JavaScript string is held as its UTF-8 encoding.

    [String.prototype.trim] strips the white space and line terminator
    code points of ECMAScript from both ends: U+0009 to U+000D, U+0020,
    U+00A0, U+1680, U+2000 to U+200A, U+2028, U+2029, U+202F, U+205F,
    U+3000 and U+FEFF.  The first six are single bytes, U+00A0 is the
    two bytes C2 A0, the others are three bytes each. *)
Definition isSpace (c : ascii) : bool :=
  let n := nat_of_ascii c in
  Nat.eqb n 32 || (Nat.leb 9 n && Nat.leb n 13).

(** U+00A0 *)
Definition isSpace2 (a b : ascii) : bool :=
  Nat.eqb (nat_of_ascii a) 194 && Nat.eqb (nat_of_ascii b) 160.

(** U+1680; U+2000 to U+200A, U+2028, U+2029, U+202F; U+205F; U+3000;
    U+FEFF *)
Definition isSpace3 (a b c : ascii) : bool :=
  let x := nat_of_ascii a in
  let y := nat_of_ascii b in
  let z := nat_of_ascii c in
  (Nat.eqb x 225 && Nat.eqb y 154 && Nat.eqb z 128)
  || (Nat.eqb x 226 && Nat.eqb y 128
      && ((Nat.leb 128 z && Nat.leb z 138)
          || Nat.eqb z 168 || Nat.eqb z 169 || Nat.eqb z 175))
  || (Nat.eqb x 226 && Nat.eqb y 129 && Nat.eqb z 159)
  || (Nat.eqb x 227 && Nat.eqb y 128 && Nat.eqb z 128)
  || (Nat.eqb x 239 && Nat.eqb y 187 && Nat.eqb z 191).

Fixpoint trimStart (s : string) : string :=
  match s with
  | EmptyString => EmptyString
  | String a rest =>
      if isSpace a then trimStart rest
      else
        match rest with
        | EmptyString => s
        | String b rest2 =>
            if isSpace2 a b then trimStart rest2
            else
              match rest2 with
              | EmptyString => s
              | String c rest3 => if isSpace3 a b c then trimStart rest3 else s
              end
        end
  end.

(** The end of the string is cut where what follows is white space
    only. *)
Fixpoint trimEnd (s : string) : string :=
  match s with
  | EmptyString => EmptyString
  | String c rest =>
      match trimStart s with
      | EmptyString => EmptyString
      | _ => String c (trimEnd rest)
      end
  end.

Definition trim (s : string) : string := trimEnd (trimStart s).

(** The rest of [s] after the white space code point that [s] starts
    with, if it starts with one. *)
Definition afterSpace (s : string) : option string :=
  match s with
  | EmptyString => None
  | String a rest =>
      if isSpace a then Some rest
      else
        match rest with
        | EmptyString => None
        | String b rest2 =>
            if isSpace2 a b then Some rest2
            else
              match rest2 with
              | EmptyString => None
              | String c rest3 => if isSpace3 a b c then Some rest3 else None
              end
        end
  end.

(** A [Map<string, V>]: entries in insertion order. *)
Section Map.
Context {V : Type}.

Definition Map : Type := list (string * V).

Fixpoint get (k : string) (m : Map) : option V :=
  match m with
  | [] => None
  | (k', v) :: rest => if String.eqb k k' then Some v else get k rest
  end.

Definition has (k : string) (m : Map) : bool :=
  match get k m with Some _ => true | None => false end.

(** [m.set(k, v)]: a fresh key goes last, a present key keeps its place. *)
Fixpoint set (k : string) (v : V) (m : Map) : Map :=
  match m with
  | [] => [(k, v)]
  | (k', v') :: rest =>
      if String.eqb k k' then (k, v) :: rest else (k', v') :: set k v rest
  end.

Definition keys (m : Map) : list string := List.map fst m.
Definition values (m : Map) : list V := List.map snd m.
End Map.
Arguments Map : clear implicits.

(** A string without the separator [sep]. *)
Fixpoint freeOf (sep : ascii) (s : string) : Prop :=
  match s with
  | EmptyString => True
  | String c rest => c <> sep /\ freeOf sep rest
  end.

End Js.

(** ** Relationship semantics (RelationshipSemantics.ts) *)

Module Semantics.

Record RelationshipEndpointRule : Type := {
  from : list string;
  to : list string;
}.

Definition RELATIONSHIP_ENDPOINT_RULES : Js.Map RelationshipEndpointRule :=
  [ ("DECOMPOSES_TO", {| from := ["Capability"]; to := ["BusinessProcess"] |});
    ("REALIZED_BY", {| from := ["BusinessProcess"]; to := ["Application"] |});
    ("DEPENDS_ON", {| from := ["Application"]; to := ["Application"] |});
    ("HOSTED_ON", {| from := ["Application"]; to := ["Technology"] |});
    ("IMPACTS", {| from := ["Programme"];
                   to := ["Capability"; "Application"; "Technology"] |}) ].

(** The table's own entries only: names inherited from [Object.prototype]
    are not relationship types and are outside the model. *)
Definition getRelationshipEndpointRule (type : string)
    : option RelationshipEndpointRule :=
  let key := Js.trim type in
  Js.get key RELATIONSHIP_ENDPOINT_RULES.

Definition isKnownRelationshipType (type : string) : bool :=
  match getRelationshipEndpointRule type with Some _ => true | None => false end.

(** [list.includes(x)] *)
Definition includes (l : list string) (x : string) : bool :=
  existsb (String.eqb x) l.

End Semantics.

(** ** The typed element store (ArchitectureRepository) *)

Module ArchRepo.
Import Json.

Inductive RepositoryCollectionType : Type :=
| capabilities | businessProcesses | applications | technologies | programmes.

Definition collectionName (c : RepositoryCollectionType) : string :=
  match c with
  | capabilities => "capabilities"
  | businessProcesses => "businessProcesses"
  | applications => "applications"
  | technologies => "technologies"
  | programmes => "programmes"
  end.

Inductive RepositoryResult (T : Type) : Type :=
| Ok (value : T)
| Err (error : string).
Arguments Ok {T} value.
Arguments Err {T} error.

Definition isOk {T} (r : RepositoryResult T) : bool :=
  match r with Ok _ => true | Err _ => false end.

(** A typed element.  [id] and [elementType] are the fields the store
    reads; the other fields of the typed schemas (name, description,
    layer, lifecycle, ownership, ...) travel along in [fields]. *)
Record BaseArchitectureElement : Type := {
  id : string;
  elementType : string;
  fields : Props;
}.

Definition expectedElementType (c : RepositoryCollectionType) : string :=
  match c with
  | capabilities => "Capability"
  | businessProcesses => "BusinessProcess"
  | applications => "Application"
  | technologies => "Technology"
  | programmes => "Programme"
  end.

Definition isCapability (e : BaseArchitectureElement) : bool :=
  String.eqb (elementType e) "Capability".
Definition isBusinessProcess (e : BaseArchitectureElement) : bool :=
  String.eqb (elementType e) "BusinessProcess".
Definition isApplication (e : BaseArchitectureElement) : bool :=
  String.eqb (elementType e) "Application".
Definition isTechnology (e : BaseArchitectureElement) : bool :=
  String.eqb (elementType e) "Technology".
Definition isProgramme (e : BaseArchitectureElement) : bool :=
  String.eqb (elementType e) "Programme".

Record ArchitectureRepository : Type := {
  byId : Js.Map BaseArchitectureElement;
  capabilitiesMap : Js.Map BaseArchitectureElement;
  businessProcessesMap : Js.Map BaseArchitectureElement;
  applicationsMap : Js.Map BaseArchitectureElement;
  technologiesMap : Js.Map BaseArchitectureElement;
  programmesMap : Js.Map BaseArchitectureElement;
}.

Definition createArchitectureRepository : ArchitectureRepository :=
  {| byId := []; capabilitiesMap := []; businessProcessesMap := [];
     applicationsMap := []; technologiesMap := []; programmesMap := [] |}.

Definition collection (c : RepositoryCollectionType) (r : ArchitectureRepository)
    : Js.Map BaseArchitectureElement :=
  match c with
  | capabilities => capabilitiesMap r
  | businessProcesses => businessProcessesMap r
  | applications => applicationsMap r
  | technologies => technologiesMap r
  | programmes => programmesMap r
  end.

Definition setById (m : Js.Map BaseArchitectureElement) (r : ArchitectureRepository) :=
  {| byId := m; capabilitiesMap := capabilitiesMap r;
     businessProcessesMap := businessProcessesMap r;
     applicationsMap := applicationsMap r;
     technologiesMap := technologiesMap r; programmesMap := programmesMap r |}.

Definition setCollection (c : RepositoryCollectionType)
    (m : Js.Map BaseArchitectureElement) (r : ArchitectureRepository) :=
  match c with
  | capabilities =>
      {| byId := byId r; capabilitiesMap := m;
         businessProcessesMap := businessProcessesMap r;
         applicationsMap := applicationsMap r;
         technologiesMap := technologiesMap r; programmesMap := programmesMap r |}
  | businessProcesses =>
      {| byId := byId r; capabilitiesMap := capabilitiesMap r;
         businessProcessesMap := m;
         applicationsMap := applicationsMap r;
         technologiesMap := technologiesMap r; programmesMap := programmesMap r |}
  | applications =>
      {| byId := byId r; capabilitiesMap := capabilitiesMap r;
         businessProcessesMap := businessProcessesMap r;
         applicationsMap := m;
         technologiesMap := technologiesMap r; programmesMap := programmesMap r |}
  | technologies =>
      {| byId := byId r; capabilitiesMap := capabilitiesMap r;
         businessProcessesMap := businessProcessesMap r;
         applicationsMap := applicationsMap r;
         technologiesMap := m; programmesMap := programmesMap r |}
  | programmes =>
      {| byId := byId r; capabilitiesMap := capabilitiesMap r;
         businessProcessesMap := businessProcessesMap r;
         applicationsMap := applicationsMap r;
         technologiesMap := technologiesMap r; programmesMap := m |}
  end.

(** The type guard of each [switch] case. *)
Definition guardOf (c : RepositoryCollectionType) (e : BaseArchitectureElement) : bool :=
  match c with
  | capabilities => isCapability e
  | businessProcesses => isBusinessProcess e
  | applications => isApplication e
  | technologies => isTechnology e
  | programmes => isProgramme e
  end.

Definition guardError (c : RepositoryCollectionType) : string :=
  match c with
  | capabilities => "Rejected insert: element is not a Capability."
  | businessProcesses => "Rejected insert: element is not a BusinessProcess."
  | applications => "Rejected insert: element is not an Application."
  | technologies => "Rejected insert: element is not a Technology."
  | programmes => "Rejected insert: element is not a Programme."
  end.

Definition duplicateIdError (elementId : string) : string :=
  "Duplicate id: " +:+ elementId.

(** [addElement(type, element)]: the result and the store afterwards. *)
Definition addElement (type : RepositoryCollectionType)
    (element : BaseArchitectureElement) (this : ArchitectureRepository)
    : RepositoryResult unit * ArchitectureRepository :=
  if Js.has (id element) (byId this) then
    (Err (duplicateIdError (id element)), this)
  else
    let expected := expectedElementType type in
    if negb (String.eqb (elementType element) expected) then
      (Err ("Rejected insert: elementType '" +:+ elementType element
            +:+ "' does not match collection '" +:+ collectionName type
            +:+ "' (expected '" +:+ expected +:+ "')."), this)
    else if negb (guardOf type element) then
      (Err (guardError type), this)
    else
      let this1 :=
        setCollection type (Js.set (id element) element (collection type this)) this in
      (Ok tt, setById (Js.set (id element) element (byId this1)) this1).

Definition getElementsByType (type : RepositoryCollectionType)
    (this : ArchitectureRepository) : list BaseArchitectureElement :=
  Js.values (collection type this).

Definition getElementById (elementId : string) (this : ArchitectureRepository)
    : option BaseArchitectureElement :=
  Js.get elementId (byId this).

Definition coll_eq_dec (a b : RepositoryCollectionType) : {a = b} + {a <> b}.
Proof. decide equality. Defined.

(** Stores that the program can build: the empty store, grown by
    [addElement]. *)
Inductive reachable : ArchitectureRepository -> Prop :=
| reachable_empty : reachable createArchitectureRepository
| reachable_add c e r : reachable r -> reachable (snd (addElement c e r)).

(** Every entry of a typed collection is, under the same id, the entry of
    the flat index. *)
Definition indexed (r : ArchitectureRepository) : Prop :=
  forall c k e, Js.get k (collection c r) = Some e -> Js.get k (byId r) = Some e.

(** In every typed collection an element sits under its own id. *)
Definition keyed (r : ArchitectureRepository) : Prop :=
  forall c k e, In (k, e) (collection c r) -> id e = k.

(** Every entry of the flat index is the entry of some typed collection. *)
Definition covered (r : ArchitectureRepository) : Prop :=
  forall k e, Js.get k (byId r) = Some e ->
    exists c, Js.get k (collection c r) = Some e.

End ArchRepo.

(** ** The relationship store *)

Module RelRepo.
Import ArchRepo Semantics.

(** The record handed to [addRelationship], with the fields that
    [buildGovernanceDebt] fills in (governanceValidation, the relationship projection loop). *)
Record RelationshipRecord : Type := {
  rid : string;
  relationshipType : string;
  sourceElementId : string;
  sourceElementType : string;
  targetElementId : string;
  targetElementType : string;
  direction : string;
  status : string;
  effectiveFrom : string;
  rationale : string;
  confidenceLevel : string;
  lastReviewedAt : string;
  reviewedBy : string;
  createdAt : string;
  createdBy : string;
  dependencyStrength : option Json.json;
}.

(** The interface of the relationship repository as its caller uses it:
    it is created over an element store and inserts records, answering
    with a result whose error is a message. *)
Class RelationshipRepositoryApi : Type := {
  RelationshipRepository : Type;
  createRelationshipRepository : ArchitectureRepository -> RelationshipRepository;
  addRelationship :
    RelationshipRecord -> RelationshipRepository ->
    RepositoryResult string * RelationshipRepository;
}.

Inductive RelationshipError : Type :=
| UnknownEndpoint
| UnknownType
| EndpointTypeMismatch (relationshipType sourceId targetId : string).

Record SpecRelationshipStore : Type := {
  elementStore : ArchitectureRepository;
  stored : list RelationshipRecord;
}.

(** Modelled from the spec: the module RelationshipRepository is not
    among the sources.  Section 4.3 fixes its contract: (1) both endpoint
    ids must resolve in the Element Store, else [UnknownEndpoint];
    (2) the relationship type must be known, else [UnknownType]; (3) the
    resolved endpoint element types must be members of the rule's allowed
    sets, else [EndpointTypeMismatch] with the type and both ids; on
    success the record is appended in insertion order.  No coercion or
    inference of endpoint types is performed. *)
Definition specAddRelationship (rec : RelationshipRecord) (s : SpecRelationshipStore)
    : (RelationshipError + string) * SpecRelationshipStore :=
  match getElementById (sourceElementId rec) (elementStore s),
        getElementById (targetElementId rec) (elementStore s) with
  | Some src, Some tgt =>
      match getRelationshipEndpointRule (relationshipType rec) with
      | None => (inl UnknownType, s)
      | Some rule =>
          if includes (from rule) (elementType src)
             && includes (to rule) (elementType tgt)
          then (inr (rid rec),
                {| elementStore := elementStore s; stored := stored s ++ [rec] |})
          else (inl (EndpointTypeMismatch (relationshipType rec)
                       (sourceElementId rec) (targetElementId rec)), s)
      end
  | _, _ => (inl UnknownEndpoint, s)
  end.

Definition succeeds (r : (RelationshipError + string) * SpecRelationshipStore) : bool :=
  match fst r with inr _ => true | inl _ => false end.

Definition errorText (e : RelationshipError) : string :=
  match e with
  | UnknownEndpoint => "UnknownEndpoint"
  | UnknownType => "UnknownType"
  | EndpointTypeMismatch t a b =>
      "EndpointTypeMismatch: " +:+ t +:+ " " +:+ a +:+ " -> " +:+ b
  end.

(** The spec-level store seen through the caller's interface. *)
Definition specApi : RelationshipRepositoryApi := {|
  RelationshipRepository := SpecRelationshipStore;
  createRelationshipRepository := fun repo => {| elementStore := repo; stored := [] |};
  addRelationship := fun rec s =>
    match specAddRelationship rec s with
    | (inr newId, s') => (Ok newId, s')
    | (inl e, s') => (Err (errorText e), s')
    end;
|}.

(** The endpoints resolve and their element types are allowed by the
    rule of the record's relationship type. *)
Definition endpointsAllowed (s : SpecRelationshipStore) (rec : RelationshipRecord) : Prop :=
  exists src tgt rule,
    getElementById (sourceElementId rec) (elementStore s) = Some src
    /\ getElementById (targetElementId rec) (elementStore s) = Some tgt
    /\ getRelationshipEndpointRule (relationshipType rec) = Some rule
    /\ includes (from rule) (elementType src) = true
    /\ includes (to rule) (elementType tgt) = true.

End RelRepo.

(** ** The generic repository (EaObject, EaRelationship, EaRepository)

    The class [EaRepository] is not among the sources; its users read
    [objects], a [Map] from id to object, and [relationships], an array. *)

Module EaObject.
Record t : Type := {
  id : string;
  type : string;
  attributes : option Json.Props;
}.
End EaObject.

Module EaRelationship.
Record t : Type := {
  fromId : string;
  toId : string;
  type : string;
  attributes : option Json.Props;
}.
End EaRelationship.

Module Ea.
Record EaRepository : Type := {
  objects : Js.Map EaObject.t;
  relationships : list EaRelationship.t;
}.

(** [x.attributes ?? {}] *)
Definition attrsOrEmpty (a : option Json.Props) : Json.Props :=
  match a with Some p => p | None => [] end.
End Ea.

(** ** The governance debt aggregator (governanceValidation) *)

Module Governance.
Import Json ArchRepo RelRepo Ea.

Record GovernanceDebtSummary : Type := {
  mandatoryFindingCount : nat;
  relationshipErrorCount : nat;
  relationshipWarningCount : nat;
  invalidRelationshipInsertCount : nat;
  lifecycleTagMissingCount : nat;
  total : nat;
}.

(** A summary is well formed: its total is the sum of its
    counts. *)
Definition summed (s : GovernanceDebtSummary) : Prop :=
  total s = mandatoryFindingCount s + relationshipErrorCount s
            + relationshipWarningCount s + invalidRelationshipInsertCount s
            + lifecycleTagMissingCount s.

(** The reports of the two validators, as far as their consumers read
    them: findings with a message and a subject, and summary counts that
    may be missing. *)
Record RepoFinding : Type := { elementId : string; repoMessage : string }.
Record RepoReport : Type := {
  repoFindings : list RepoFinding;
  summaryTotal : option nat;
}.

Record RelationshipFinding : Type := { subjectId : string; relMessage : string }.
Record RelationshipReport : Type := {
  relFindings : list RelationshipFinding;
  bySeverityError : option nat;
  bySeverityWarning : option nat;
}.

Record GovernanceDebt : Type := {
  summary : GovernanceDebtSummary;
  repoReport : RepoReport;
  relationshipReport : RelationshipReport;
  invalidRelationshipInserts : list string;
  lifecycleTagMissingIds : list string;
}.

(** The modules RepositoryValidation, RelationshipValidation and
    lifecycleCoveragePolicy are not among the sources: the aggregator is
    defined over whatever they compute.  A date is represented by its
    ISO string. *)
Class Validators (api : RelationshipRepositoryApi) : Type := {
  getLifecycleStateFromAttributes : Props -> option string;
  validateArchitectureRepository : ArchitectureRepository -> string -> RepoReport;
  validateRelationshipRepository :
    ArchitectureRepository -> @RelationshipRepository api -> string -> RelationshipReport;
}.

Definition getString (value : option json) : string :=
  match value with Some (JStr s) => s | _ => EmptyString end.

Definition getNumber (value : option json) : Z :=
  match value with Some (JNum n) => n | _ => 0%Z end.

Definition getBool (value : option json) : bool :=
  match value with Some (JBool true) => true | _ => false end.

Definition toBackendElementType (eaType : string) : string :=
  if String.eqb eaType "Capability" || String.eqb eaType "SubCapability"
     || String.eqb eaType "CapabilityCategory" then "Capability"
  else if String.eqb eaType "BusinessProcess" then "BusinessProcess"
  else if String.eqb eaType "Application" then "Application"
  else if String.eqb eaType "Technology" then "Technology"
  else if String.eqb eaType "Programme" then "Programme"
  else eaType.

(** [s || d] on strings *)
Definition strOr (s d : string) : string :=
  if String.eqb s EmptyString then d else s.

(** [getString(v) || undefined] *)
Definition strOrUndefined (s : string) : json :=
  if String.eqb s EmptyString then JUndefined else JStr s.

Definition arrayOrEmpty (v : option json) : json :=
  match v with Some (JArr l) => JArr l | _ => JArr [] end.

(** [typeof attrs.name === 'string' && attrs.name.trim() ? attrs.name.trim() : obj.id] *)
Definition displayName (attrs : Props) (objId : string) : string :=
  match getProp "name" attrs with
  | Some (JStr s) => strOr (Js.trim s) objId
  | _ => objId
  end.

(** The fields every projected element carries, in the order of the
    object literals. *)
Definition governedFields (attrs : Props) (now name layer : string) : Props :=
  [ ("name", JStr name);
    ("description", JStr (getString (getProp "description" attrs)));
    ("layer", JStr layer);
    ("lifecycleStatus", orElse (getProp "lifecycleStatus" attrs) (JStr "Active"));
    ("lifecycleStartDate", JStr (getString (getProp "lifecycleStartDate" attrs)));
    ("lifecycleEndDate", strOrUndefined (getString (getProp "lifecycleEndDate" attrs)));
    ("ownerRole", JStr (getString (getProp "ownerRole" attrs)));
    ("ownerName", JStr (getString (getProp "ownerName" attrs)));
    ("owningUnit", JStr (getString (getProp "owningUnit" attrs)));
    ("approvalStatus", orElse (getProp "approvalStatus" attrs) (JStr "Draft"));
    ("lastReviewedAt", JStr (getString (getProp "lastReviewedAt" attrs)));
    ("reviewCycleMonths", JNum (getNumber (getProp "reviewCycleMonths" attrs)));
    ("createdAt", JStr (strOr (getString (getProp "createdAt" attrs)) now));
    ("createdBy", JStr (getString (getProp "createdBy" attrs)));
    ("lastModifiedAt", JStr (strOr (getString (getProp "lastModifiedAt" attrs)) now));
    ("lastModifiedBy", JStr (getString (getProp "lastModifiedBy" attrs))) ].

Definition capabilityFields (attrs : Props) : Props :=
  [ ("capabilityType", orElse (getProp "capabilityType" attrs) (JStr "Core"));
    ("businessValue", orElse (getProp "businessValue" attrs) (JStr "Medium"));
    ("maturityLevel", orElse (getProp "maturityLevel" attrs) (JStr "Developing"));
    ("parentCapabilityId", JStr (getString (getProp "parentCapabilityId" attrs))) ].

Definition applicationFields (attrs : Props) : Props :=
  [ ("applicationType", orElse (getProp "applicationType" attrs) (JStr "Custom"));
    ("vendor", JStr (getString (getProp "vendor" attrs)));
    ("version", JStr (getString (getProp "version" attrs)));
    ("hostingModel", orElse (getProp "hostingModel" attrs) (JStr "OnPrem"));
    ("technologyStack", arrayOrEmpty (getProp "technologyStack" attrs));
    ("userCountEstimate", JNum (getNumber (getProp "userCountEstimate" attrs)));
    ("criticality", orElse (getProp "criticality" attrs) (JStr "Medium"));
    ("dataClassification", orElse (getProp "dataClassification" attrs) (JStr "Internal"));
    ("integrations", arrayOrEmpty (getProp "integrations" attrs)) ].

Definition technologyFields (attrs : Props) : Props :=
  [ ("technologyType", orElse (getProp "technologyType" attrs) (JStr "Platform"));
    ("vendor", JStr (getString (getProp "vendor" attrs)));
    ("version", JStr (getString (getProp "version" attrs)));
    ("category", JStr (getString (getProp "category" attrs)));
    ("deploymentModel", orElse (getProp "deploymentModel" attrs) (JStr "OnPrem"));
    ("supportEndDate", JStr (getString (getProp "supportEndDate" attrs)));
    ("standardApproved", JBool (getBool (getProp "standardApproved" attrs))) ].

Definition businessProcessFields (attrs : Props) : Props :=
  [ ("processOwner", JStr (getString (getProp "processOwner" attrs)));
    ("triggeringEvent", JStr (getString (getProp "triggeringEvent" attrs)));
    ("expectedOutcome", JStr (getString (getProp "expectedOutcome" attrs)));
    ("frequency", orElse (getProp "frequency" attrs) (JStr "Ad-hoc"));
    ("criticality", orElse (getProp "criticality" attrs) (JStr "Medium"));
    ("regulatoryRelevant", JBool (getBool (getProp "regulatoryRelevant" attrs)));
    ("complianceNotes", JStr (getString (getProp "complianceNotes" attrs)));
    ("parentCapabilityId", JStr (getString (getProp "parentCapabilityId" attrs))) ].

Definition programmeFields (attrs : Props) : Props :=
  [ ("programmeType", orElse (getProp "programmeType" attrs) (JStr "Transformation"));
    ("strategicObjective", JStr (getString (getProp "strategicObjective" attrs)));
    ("startDate", JStr (getString (getProp "startDate" attrs)));
    ("endDate", JStr (getString (getProp "endDate" attrs)));
    ("budgetEstimate", JNum (getNumber (getProp "budgetEstimate" attrs)));
    ("fundingStatus", orElse (getProp "fundingStatus" attrs) (JStr "Proposed"));
    ("expectedBusinessImpact", JStr (getString (getProp "expectedBusinessImpact" attrs)));
    ("riskLevel", orElse (getProp "riskLevel" attrs) (JStr "Medium")) ].

(** The chain of [if (obj.type === ...)] of the object loop: the target
    collection and the projected element, or nothing for a type that has
    no typed collection. *)
Definition projectObject (now : string) (obj : EaObject.t)
    : option (RepositoryCollectionType * BaseArchitectureElement) :=
  let attrs := attrsOrEmpty (EaObject.attributes obj) in
  let name := displayName attrs (EaObject.id obj) in
  let ty := EaObject.type obj in
  let mk elementType layer extra :=
    {| id := EaObject.id obj; elementType := elementType;
       fields := governedFields attrs now name layer ++ extra |} in
  if String.eqb ty "Capability" || String.eqb ty "CapabilityCategory"
     || String.eqb ty "SubCapability" then
    Some (capabilities, mk "Capability" "Business" (capabilityFields attrs))
  else if String.eqb ty "Application" then
    Some (applications, mk "Application" "Application" (applicationFields attrs))
  else if String.eqb ty "Technology" then
    Some (technologies, mk "Technology" "Technology" (technologyFields attrs))
  else if String.eqb ty "BusinessProcess" then
    Some (businessProcesses, mk "BusinessProcess" "Business" (businessProcessFields attrs))
  else if String.eqb ty "Programme" then
    Some (programmes, mk "Programme" "Strategy" (programmeFields attrs))
  else None.

Definition optStringIs (o : option string) (s : string) : bool :=
  match o with Some x => String.eqb x s | None => false end.

Definition falsyState (state : option string) : bool :=
  match state with None => true | Some s => String.eqb s EmptyString end.

(** [attrs._deleted !== true] *)
Definition notDeleted (attrs : Props) : bool :=
  match getProp "_deleted" attrs with Some (JBool true) => false | _ => true end.

(** The ids collected into [supportedElementIds]: those of the elements
    of the five typed collections, falsy ids left out. *)
Definition supportedIdsOf (repo : ArchitectureRepository) : list string :=
  List.filter (fun k => negb (String.eqb k EmptyString))
    (List.map id
       (getElementsByType capabilities repo
        ++ getElementsByType businessProcesses repo
        ++ getElementsByType applications repo
        ++ getElementsByType technologies repo
        ++ getElementsByType programmes repo)).

(** [supportedElementIds.has(x)] *)
Definition supported (ids : list string) (x : string) : bool :=
  existsb (String.eqb x) ids.

Definition typeOfObject (eaRepository : EaRepository) (objId : string) : string :=
  match Js.get objId (objects eaRepository) with
  | Some o => EaObject.type o
  | None => EmptyString
  end.

(** One turn of the relationship loop up to the insertion: [None] is a
    [continue], [Some rec] the record handed to [addRelationship]. *)
Definition projectRelationship (eaRepository : EaRepository)
    (supportedElementIds : list string) (now : string)
    (i : nat) (rel : EaRelationship.t) : option RelationshipRecord :=
  let sourceId := Js.trim (EaRelationship.fromId rel) in
  let targetId := Js.trim (EaRelationship.toId rel) in
  if String.eqb sourceId EmptyString || String.eqb targetId EmptyString then None
  else if negb (supported supportedElementIds sourceId)
          || negb (supported supportedElementIds targetId) then None
  else
    let sourceType := toBackendElementType (typeOfObject eaRepository sourceId) in
    let targetType := toBackendElementType (typeOfObject eaRepository targetId) in
    let relationshipType := Js.trim (EaRelationship.type rel) in
    Some {| rid := "rel_" +:+ pretty i;
            relationshipType := relationshipType;
            sourceElementId := sourceId;
            sourceElementType := Js.trim sourceType;
            targetElementId := targetId;
            targetElementType := Js.trim targetType;
            direction := "OUTGOING";
            status := "Draft";
            effectiveFrom := now;
            rationale := EmptyString;
            confidenceLevel := "Medium";
            lastReviewedAt := now;
            reviewedBy := "ui";
            createdAt := now;
            createdBy := "ui";
            dependencyStrength :=
              if String.eqb relationshipType "DEPENDS_ON" then
                match EaRelationship.attributes rel with
                | Some attrs => getProp "dependencyStrength" attrs
                | None => None
                end
              else None |}.

(** The records of the loop turns that reach [addRelationship], in order. *)
Fixpoint attemptedRecords (eaRepository : EaRepository)
    (supportedElementIds : list string) (now : string) (i : nat)
    (rels : list EaRelationship.t) : list RelationshipRecord :=
  match rels with
  | [] => []
  | rel :: rest =>
      match projectRelationship eaRepository supportedElementIds now i rel with
      | None => attemptedRecords eaRepository supportedElementIds now (S i) rest
      | Some rec => rec :: attemptedRecords eaRepository supportedElementIds now (S i) rest
      end
  end.

(** An endpoint id as the loop reads it is blank, or does not resolve in
    the typed store. *)
Definition endpointUnusable (repo : ArchitectureRepository) (rawId : string) : Prop :=
  Js.trim rawId = EmptyString \/ getElementById (Js.trim rawId) repo = None.

Definition insertFailure (rec : RelationshipRecord) (error : string) : string :=
  strOr (relationshipType rec) "(unknown)" +:+ " " +:+ sourceElementId rec
  +:+ " -> " +:+ targetElementId rec +:+ ": " +:+ error.

Definition orZero (n : option nat) : nat :=
  match n with Some k => k | None => 0 end.

Section Build.
Context {api : RelationshipRepositoryApi} {validators : Validators api}.

(** The object loop: the typed store and the ids that miss a lifecycle tag. *)
Definition objectStep (lifecycleCoverage : option string) (now : string)
    (acc : ArchitectureRepository * list string) (obj : EaObject.t)
    : ArchitectureRepository * list string :=
  let '(repo, missing) := acc in
  let attrs := attrsOrEmpty (EaObject.attributes obj) in
  let missing' :=
    if optStringIs lifecycleCoverage "Both" && notDeleted attrs then
      if falsyState (getLifecycleStateFromAttributes attrs)
      then missing ++ [EaObject.id obj] else missing
    else missing in
  match projectObject now obj with
  | Some (c, element) => (snd (addElement c element repo), missing')
  | None => (repo, missing')
  end.

(** The tail of a loop turn that was not skipped: the insertion and the
    bookkeeping of its failure. *)
Definition insertStep (acc : RelationshipRepository * list string)
    (rec : RelationshipRecord) : RelationshipRepository * list string :=
  match addRelationship rec (fst acc) with
  | (Ok _, store') => (store', snd acc)
  | (Err error, store') => (store', snd acc ++ [insertFailure rec error])
  end.

(** The relationship loop from index [i] on: the relationship store and
    the collected insertion failures. *)
Fixpoint relationshipLoop (eaRepository : EaRepository)
    (supportedElementIds : list string) (now : string) (i : nat)
    (rels : list EaRelationship.t)
    (acc : RelationshipRepository * list string)
    : RelationshipRepository * list string :=
  match rels with
  | [] => acc
  | rel :: rest =>
      let acc' :=
        match projectRelationship eaRepository supportedElementIds now i rel with
        | None => acc
        | Some rec => insertStep acc rec
        end in
      relationshipLoop eaRepository supportedElementIds now (S i) rest acc'
  end.

(** The typed element store that the object loop leaves behind. *)
Definition typedStoreOf (eaRepository : EaRepository) (now : string)
    (lifecycleCoverage : option string) : ArchitectureRepository :=
  fst (fold_left (objectStep lifecycleCoverage now)
         (Js.values (objects eaRepository)) (createArchitectureRepository, [])).

Definition insertAll (recs : list RelationshipRecord)
    (acc : RelationshipRepository * list string)
    : RelationshipRepository * list string :=
  fold_left insertStep recs acc.

Definition buildGovernanceDebt (eaRepository : EaRepository) (now : string)
    (lifecycleCoverage : option string) : GovernanceDebt :=
  let '(repo, lifecycleTagMissingIds) :=
    fold_left (objectStep lifecycleCoverage now)
      (Js.values (objects eaRepository)) (createArchitectureRepository, []) in
  let relationships0 := createRelationshipRepository repo in
  let supportedElementIds := supportedIdsOf repo in
  let '(relationships, invalidRelationshipInserts) :=
    relationshipLoop eaRepository supportedElementIds now 0
      (Ea.relationships eaRepository) (relationships0, []) in
  let repoReport := validateArchitectureRepository repo now in
  let relationshipReport := validateRelationshipRepository repo relationships now in
  let mandatoryFindingCount := orZero (summaryTotal repoReport) in
  let relationshipErrorCount := orZero (bySeverityError relationshipReport) in
  let relationshipWarningCount := orZero (bySeverityWarning relationshipReport) in
  let invalidRelationshipInsertCount := length invalidRelationshipInserts in
  let lifecycleTagMissingCount := length lifecycleTagMissingIds in
  {| summary :=
       {| mandatoryFindingCount := mandatoryFindingCount;
          relationshipErrorCount := relationshipErrorCount;
          relationshipWarningCount := relationshipWarningCount;
          invalidRelationshipInsertCount := invalidRelationshipInsertCount;
          lifecycleTagMissingCount := lifecycleTagMissingCount;
          total := mandatoryFindingCount + relationshipErrorCount
                   + relationshipWarningCount + invalidRelationshipInsertCount
                   + lifecycleTagMissingCount |};
     repoReport := repoReport;
     relationshipReport := relationshipReport;
     invalidRelationshipInserts := invalidRelationshipInserts;
     lifecycleTagMissingIds := lifecycleTagMissingIds |}.

End Build.

End Governance.

(** ** Repository metadata *)

Module Metadata.
Import Json.

(** Modelled from the spec: the module repositoryMetadata, which
    declares the metadata type and validates it, is not among the
    sources.  Section 3 lists the fields; the provider reads
    [repositoryName], [architectureScope], [governanceMode] and
    [lifecycleCoverage], two of which may be absent. *)
Record EaRepositoryMetadata : Type := {
  repositoryName : string;
  organizationName : string;
  architectureScope : option string;
  referenceFramework : string;
  governanceMode : string;
  lifecycleCoverage : option string;
  timeHorizon : string;
  createdAt : string;
}.

Definition optStr (o : option string) : json :=
  match o with Some s => JStr s | None => JNull end.

(** The metadata as the plain object that is written into a snapshot. *)
Definition metadataJson (m : EaRepositoryMetadata) : json :=
  JObj [ ("repositoryName", JStr (repositoryName m));
         ("organizationName", JStr (organizationName m));
         ("architectureScope", optStr (architectureScope m));
         ("referenceFramework", JStr (referenceFramework m));
         ("governanceMode", JStr (governanceMode m));
         ("lifecycleCoverage", optStr (lifecycleCoverage m));
         ("timeHorizon", JStr (timeHorizon m));
         ("createdAt", JStr (createdAt m)) ].

End Metadata.

(** ** The repository provider (EaRepositoryContext) *)

Module Provider.
Import Json ArchRepo RelRepo Ea Governance Metadata ScopePolicy.

Definition HISTORY_LIMIT : nat := 50.

(** The JavaScript runtime: the JSON text codec and [localeCompare].
    [Raw] is the type of JSON texts; the provider compares texts for
    equality and hands them back to [JSON.parse], nothing else.
    [jsonText] above is the reference rendering of [JSON.stringify].
    [JSON_parse] gives nothing for a text on which [JSON.parse] throws;
    [parseErrorMessage] is the message of the error it throws then. *)
Class Platform : Type := {
  Raw : Type;
  Raw_eq_dec : forall a b : Raw, {a = b} + {a <> b};
  JSON_stringify : json -> Raw;
  JSON_parse : Raw -> option json;
  parseErrorMessage : Raw -> string;
  localeCompare : string -> string -> comparison;
}.

(** The parts of the repository that the provider calls and that are
    not among the sources: the metadata validator and the constructor of
    [EaRepository], which may throw (with a message, possibly empty). *)
Class Environment : Type := {
  validateRepositoryMetadata : option json -> string + EaRepositoryMetadata;
  newEaRepository : list json -> list json -> string + EaRepository;
  emptyEaRepository : EaRepository;
}.

(** *** Snapshots *)

Definition objectJson (o : EaObject.t) : json :=
  JObj [ ("id", JStr (EaObject.id o));
         ("type", JStr (EaObject.type o));
         ("attributes", JObj (attrsOrEmpty (EaObject.attributes o))) ].

Definition relationshipJson (r : EaRelationship.t) : json :=
  JObj [ ("fromId", JStr (EaRelationship.fromId r));
         ("toId", JStr (EaRelationship.toId r));
         ("type", JStr (EaRelationship.type r));
         ("attributes", JObj (attrsOrEmpty (EaRelationship.attributes r))) ].

(** [serializeRepository(repo, metadata)]; [now] is the reading of the
    clock taken for [updatedAt]. *)
Definition serializeRepository (repo : EaRepository)
    (metadata : EaRepositoryMetadata) (now : string) : json :=
  JObj [ ("version", JNum 1);
         ("metadata", metadataJson metadata);
         ("objects", JArr (List.map objectJson (Js.values (objects repo))));
         ("relationships", JArr (List.map relationshipJson (relationships repo)));
         ("updatedAt", JStr now) ].

(** [asAny?.k] *)
Definition propOf (value : json) (k : string) : option json :=
  match value with
  | JObj props => getProp k props
  | _ => None
  end.

(** [Array.isArray(asAny?.k) ? asAny.k : undefined] *)
Definition arrayOf (value : json) (k : string) : option (list json) :=
  match propOf value k with
  | Some (JArr items) => Some items
  | _ => None
  end.

Section WithEnvironment.
Context {platform : Platform} {env : Environment}.

Definition tryDeserializeRepository (value : json)
    : string + (EaRepository * EaRepositoryMetadata) :=
  match validateRepositoryMetadata (propOf value "metadata") with
  | inl error => inl error
  | inr metadata =>
      match arrayOf value "objects", arrayOf value "relationships" with
      | Some objs, Some rels =>
          match newEaRepository objs rels with
          | inr repo => inr (repo, metadata)
          | inl thrown =>
              inl (strOr thrown "Failed to load repository snapshot.")
          end
      | _, _ =>
          inl "Invalid repository snapshot: expected { objects, relationships }."
      end
  end.

(** [JSON.parse] followed by [tryDeserializeRepository], with the
    surrounding [try]: a text that does not parse gives no result. *)
Definition deserializeRaw (raw : Raw) : option (EaRepository * EaRepositoryMetadata) :=
  match JSON_parse raw with
  | None => None
  | Some value =>
      match tryDeserializeRepository value with
      | inr res => Some res
      | inl _ => None
      end
  end.

Definition snapshot (repo : EaRepository) (metadata : EaRepositoryMetadata)
    (now : string) : Raw :=
  JSON_stringify (serializeRepository repo metadata now).

(** *** The scope check of the update boundary *)

(** The ids of a [Set] filled from a list: first occurrences, in order. *)
Fixpoint setOf (seen : list string) (l : list string) : list string :=
  match l with
  | [] => seen
  | x :: rest =>
      if existsb (String.eqb x) seen then setOf seen rest
      else setOf (seen ++ [x]) rest
  end.

Definition isScoped (architectureScope : option string) : bool :=
  scopeIs architectureScope "Business Unit" || scopeIs architectureScope "Domain".

(** The body of the loop over ids: [true] is a [return true]. *)
Definition readOnlyChangeAt (prev next : EaRepository)
    (architectureScope : option string) (k : string) : bool :=
  let a := Js.get k (objects prev) in
  let b := Js.get k (objects next) in
  let typeA := option_map EaObject.type a in
  let typeB := option_map EaObject.type b in
  let writableA := isAnyObjectTypeWritableForScope architectureScope typeA in
  let writableB := isAnyObjectTypeWritableForScope architectureScope typeB in
  if negb writableA || negb writableB then
    match a, b with
    | Some oa, Some ob =>
        if negb (String.eqb (EaObject.type oa) (EaObject.type ob)) then true
        else
          let attrsA :=
            stableStringify localeCompare (JObj (attrsOrEmpty (EaObject.attributes oa))) in
          let attrsB :=
            stableStringify localeCompare (JObj (attrsOrEmpty (EaObject.attributes ob))) in
          negb (String.eqb attrsA attrsB)
    | _, _ => true
    end
  else false.

Definition hasReadOnlyObjectChanges (prev next : option EaRepository)
    (architectureScope : option string) : bool :=
  if negb (isScoped architectureScope) then false
  else
    match prev, next with
    | Some p, Some n =>
        let ids := setOf [] (Js.keys (objects p) ++ Js.keys (objects n)) in
        existsb (readOnlyChangeAt p n architectureScope) ids
    | _, _ => false
    end.

(** An element under id [k] is added, removed, or changed in type or in
    serialized attributes, and its type is not writable under the scope. *)
Definition touchesReadOnly (prev next : EaRepository)
    (architectureScope : option string) (k : string) : Prop :=
  let writable o :=
    isAnyObjectTypeWritableForScope architectureScope (Some (EaObject.type o)) in
  let rendered o :=
    stableStringify localeCompare (JObj (attrsOrEmpty (EaObject.attributes o))) in
  match Js.get k (objects prev), Js.get k (objects next) with
  | None, Some b => writable b = false
  | Some a, None => writable a = false
  | Some a, Some b =>
      (writable a = false \/ writable b = false)
      /\ (EaObject.type a <> EaObject.type b \/ rendered a <> rendered b)
  | None, None => False
  end.

(** *** Provider state and effects *)

Record GovernanceLogEntry : Type := {
  logType : string;
  logGovernanceMode : string;
  logRepositoryName : string;
  logArchitectureScope : option string;
  logSummary : GovernanceDebtSummary;
  logHighlights : list string;
}.

Inductive Event : Type :=
| StorageSetItem (raw : Raw)
| StorageRemoveItem
| AppendGovernanceLog (entry : GovernanceLogEntry)
| MessageWarning (text : string)
| MessageSuccess (text : string)
| ModalError (mandatory lifecycleMissing invalidInserts relationshipErrors : nat)
| ModalDestroy.

(** React state and refs of [EaRepositoryProvider].  The undo stack
    grows at its end, the redo stack at its front, as the arrays do. *)
Record State : Type := {
  eaRepository : option EaRepository;
  metadata : option EaRepositoryMetadata;
  canUndo : bool;
  canRedo : bool;
  undoStack : list Raw;
  redoStack : list Raw;
  lastSerialized : option Raw;
  suppressHistory : bool;
  lastSaveBlockedKey : option string;
  saveBlockedModal : bool;
  lastAdvisoryWarnKey : option string;
}.

Definition setModel (repo : option EaRepository)
    (meta : option EaRepositoryMetadata) (st : State) : State :=
  {| eaRepository := repo; metadata := meta;
     canUndo := canUndo st; canRedo := canRedo st;
     undoStack := undoStack st; redoStack := redoStack st;
     lastSerialized := lastSerialized st; suppressHistory := suppressHistory st;
     lastSaveBlockedKey := lastSaveBlockedKey st;
     saveBlockedModal := saveBlockedModal st;
     lastAdvisoryWarnKey := lastAdvisoryWarnKey st |}.

Definition setHistory (undo redo : list Raw) (cu cr : bool) (st : State) : State :=
  {| eaRepository := eaRepository st; metadata := metadata st;
     canUndo := cu; canRedo := cr;
     undoStack := undo; redoStack := redo;
     lastSerialized := lastSerialized st; suppressHistory := suppressHistory st;
     lastSaveBlockedKey := lastSaveBlockedKey st;
     saveBlockedModal := saveBlockedModal st;
     lastAdvisoryWarnKey := lastAdvisoryWarnKey st |}.

Definition setTracking (last : option Raw) (suppress : bool) (st : State) : State :=
  {| eaRepository := eaRepository st; metadata := metadata st;
     canUndo := canUndo st; canRedo := canRedo st;
     undoStack := undoStack st; redoStack := redoStack st;
     lastSerialized := last; suppressHistory := suppress;
     lastSaveBlockedKey := lastSaveBlockedKey st;
     saveBlockedModal := saveBlockedModal st;
     lastAdvisoryWarnKey := lastAdvisoryWarnKey st |}.

Definition setGate (blockedKey : option string) (modal : bool)
    (warnKey : option string) (st : State) : State :=
  {| eaRepository := eaRepository st; metadata := metadata st;
     canUndo := canUndo st; canRedo := canRedo st;
     undoStack := undoStack st; redoStack := redoStack st;
     lastSerialized := lastSerialized st; suppressHistory := suppressHistory st;
     lastSaveBlockedKey := blockedKey;
     saveBlockedModal := modal;
     lastAdvisoryWarnKey := warnKey |}.

(** [a.push(x); if (a.length > HISTORY_LIMIT) a.shift()] *)
Definition pushBounded (stack : list Raw) (x : Raw) : list Raw :=
  let s := stack ++ [x] in
  if Nat.ltb HISTORY_LIMIT (length s) then tl s else s.

(** [a.unshift(x); if (a.length > HISTORY_LIMIT) a.pop()] *)
Definition unshiftBounded (stack : list Raw) (x : Raw) : list Raw :=
  let s := x :: stack in
  if Nat.ltb HISTORY_LIMIT (length s) then removelast s else s.

Definition nonEmpty (l : list Raw) : bool :=
  match l with [] => false | _ => true end.

(** *** [setEaRepository] *)

Inductive SetStateAction : Type :=
| Value (next : option EaRepository)
| Updater (f : option EaRepository -> option EaRepository).

Definition resolveAction (next : SetStateAction) (prev : option EaRepository)
    : option EaRepository :=
  match next with
  | Value v => v
  | Updater f => f prev
  end.

Definition scopeOf (meta : option EaRepositoryMetadata) : option string :=
  match meta with Some m => architectureScope m | None => None end.

Definition domainWarning : string :=
  "Read-only in Domain scope: only Application + Technology layers are editable.".
Definition businessUnitWarning : string :=
  "Read-only in Business Unit scope: only Business + Application layers are editable.".

Definition setEaRepositoryUnsafe (next : option EaRepository) (st : State) : State :=
  setModel next (metadata st) st.

Definition setEaRepository (next : SetStateAction) (st : State) : State * list Event :=
  let prev := eaRepository st in
  let resolved := resolveAction next prev in
  match resolved with
  | None => (setModel None (metadata st) st, [])
  | Some _ =>
      let scope := scopeOf (metadata st) in
      if negb (hasReadOnlyObjectChanges prev resolved scope) then
        (setModel resolved (metadata st) st, [])
      else if scopeIs scope "Domain" then (st, [MessageWarning domainWarning])
      else (st, [MessageWarning businessUnitWarning])
  end.

(** *** New history roots *)

(** The [catch] answers with the message of the error that [JSON.parse]
    threw, or with "Invalid JSON." when that message is empty. *)
Definition loadRepositoryFromJsonText (text : Raw) (st : State) : option string * State :=
  match JSON_parse text with
  | None => (Some (strOr (parseErrorMessage text) "Invalid JSON."), st)
  | Some parsed =>
      match tryDeserializeRepository parsed with
      | inl error => (Some error, st)
      | inr (repo, meta) =>
          (None, setModel (Some repo) (Some meta) (setHistory [] [] false false st))
      end
  end.

(** [input] holds the form values; [createdAt] is added to them. *)
Definition createNewRepository (input : Props) (now : string) (st : State)
    : option string * State :=
  match validateRepositoryMetadata (Some (JObj (input ++ [("createdAt", JStr now)]))) with
  | inl error => (Some error, st)
  | inr meta =>
      (None, setModel (Some emptyEaRepository) (Some meta)
               (setHistory [] [] false false st))
  end.

Definition clearRepository (st : State) : State :=
  setModel None None (setHistory [] [] false false st).

(** *** Undo and redo *)

Definition applySerialized (raw : Raw) (st : State) : bool * State :=
  match deserializeRaw raw with
  | None => (false, st)
  | Some (repo, meta) =>
      (true, setModel (Some repo) (Some meta)
               (setTracking (lastSerialized st) true st))
  end.

Definition undo (st : State) : bool * State :=
  match list.last (undoStack st) with
  | None => (false, setHistory (undoStack st) (redoStack st) false (canRedo st) st)
  | Some prevRaw =>
      let undo' := removelast (undoStack st) in
      let redo' :=
        match lastSerialized st with
        | Some currentRaw => unshiftBounded (redoStack st) currentRaw
        | None => redoStack st
        end in
      let st1 := setHistory undo' redo' (canUndo st) (canRedo st) st in
      match applySerialized prevRaw st1 with
      | (false, st2) => (false, st2)
      | (true, st2) =>
          (true, setHistory undo' redo' (nonEmpty undo') (nonEmpty redo')
                   (setTracking (Some prevRaw) (suppressHistory st2) st2))
      end
  end.

Definition redo (st : State) : bool * State :=
  match redoStack st with
  | [] => (false, setHistory (undoStack st) (redoStack st) (canUndo st) false st)
  | nextRaw :: redo' =>
      let undo' :=
        match lastSerialized st with
        | Some currentRaw => pushBounded (undoStack st) currentRaw
        | None => undoStack st
        end in
      let st1 := setHistory undo' redo' (canUndo st) (canRedo st) st in
      match applySerialized nextRaw st1 with
      | (false, st2) => (false, st2)
      | (true, st2) =>
          (true, setHistory undo' redo' (nonEmpty undo') (nonEmpty redo')
                   (setTracking (Some nextRaw) (suppressHistory st2) st2))
      end
  end.

(** *** The persistence effect: history tracking and the governance gate *)

Section Settle.
Context {api : RelationshipRepositoryApi} {validators : Validators api}.

(** The separator of the fingerprint key. *)
Definition bar : ascii := "|"%char.

(** The fingerprint of a debt summary, as the template literal builds it. *)
Definition debtKey (s : GovernanceDebtSummary) : string :=
  pretty (mandatoryFindingCount s) +:+ "|"
  +:+ pretty (invalidRelationshipInsertCount s) +:+ "|"
  +:+ pretty (relationshipErrorCount s) +:+ "|"
  +:+ pretty (relationshipWarningCount s) +:+ "|"
  +:+ pretty (lifecycleTagMissingCount s).

Definition highlights (debt : GovernanceDebt) : list string :=
  List.map (fun f => "Mandatory: " +:+ repoMessage f +:+ " (" +:+ elementId f +:+ ")")
    (firstn 3 (repoFindings (repoReport debt)))
  ++ List.map (fun f => "Relationship: " +:+ relMessage f +:+ " (" +:+ subjectId f +:+ ")")
       (firstn 3 (relFindings (relationshipReport debt)))
  ++ List.map (fun s => "Relationship insert: " +:+ s)
       (firstn 3 (invalidRelationshipInserts debt))
  ++ List.map (fun i => "Lifecycle tag missing: " +:+ i)
       (firstn 3 (lifecycleTagMissingIds debt)).

Definition logEntry (type mode : string) (meta : EaRepositoryMetadata)
    (debt : GovernanceDebt) : GovernanceLogEntry :=
  {| logType := type; logGovernanceMode := mode;
     logRepositoryName := repositoryName meta;
     logArchitectureScope := architectureScope meta;
     logSummary := summary debt;
     logHighlights := highlights debt |}.

(** [ref.current !== key] *)
Definition keyDiffers (current : option string) (key : string) : bool :=
  match current with
  | Some k => negb (String.eqb k key)
  | None => true
  end.

(** [if (ref.current)] on a key *)
Definition keySet (current : option string) : bool :=
  match current with
  | Some k => negb (String.eqb k EmptyString)
  | None => false
  end.

(** The history part of the effect (lines 316-329). *)
Definition trackHistory (nextSerialized : Raw) (st : State) : State :=
  let st1 :=
    if negb (suppressHistory st) then
      match lastSerialized st with
      | Some prevSerialized =>
          if Raw_eq_dec prevSerialized nextSerialized then st
          else setHistory (pushBounded (undoStack st) prevSerialized) [] true false st
      | None => st
      end
    else st in
  setTracking (Some nextSerialized) false st1.

(** The condition of the Strict branch (lines 352-356). *)
Definition blocked (s : GovernanceDebtSummary) : bool :=
  Nat.ltb 0 (mandatoryFindingCount s)
  || Nat.ltb 0 (relationshipErrorCount s)
  || Nat.ltb 0 (invalidRelationshipInsertCount s)
  || Nat.ltb 0 (lifecycleTagMissingCount s).

(** The Strict branch: the state, the events, and whether the effect
    returns before it reaches [localStorage.setItem]. *)
Definition strictGate (meta : EaRepositoryMetadata) (debt : GovernanceDebt)
    (st : State) : State * list Event * bool :=
  let s := summary debt in
  let key := debtKey s in
  if blocked s then
    if keyDiffers (lastSaveBlockedKey st) key then
      (setGate (Some key) true (lastAdvisoryWarnKey st) st,
       [AppendGovernanceLog (logEntry "save.blocked" "Strict" meta debt)]
       ++ (if saveBlockedModal st then [ModalDestroy] else [])
       ++ [ModalError (mandatoryFindingCount s) (lifecycleTagMissingCount s)
             (invalidRelationshipInsertCount s) (relationshipErrorCount s)],
       true)
    else (st, [], true)
  else if keySet (lastSaveBlockedKey st) then
    (setGate None false (lastAdvisoryWarnKey st) st,
     (if saveBlockedModal st then [ModalDestroy] else [])
     ++ [MessageSuccess "Governance compliant: saving re-enabled."],
     false)
  else (st, [], false).

(** The Advisory branch (lines 416-434). *)
Definition advisoryGate (meta : EaRepositoryMetadata) (debt : GovernanceDebt)
    (st : State) : State * list Event :=
  let s := summary debt in
  let key := debtKey s in
  let '(st1, events) :=
    if Nat.ltb 0 (total s) && keyDiffers (lastAdvisoryWarnKey st) key then
      (setGate (lastSaveBlockedKey st) (saveBlockedModal st) (Some key) st,
       [MessageWarning ("Saved with governance warnings (Advisory): "
                        +:+ pretty (total s) +:+ " issue(s).");
        AppendGovernanceLog (logEntry "save.warned" "Advisory" meta debt)])
    else (st, []) in
  if Nat.eqb (total s) 0 then
    (setGate (lastSaveBlockedKey st1) (saveBlockedModal st1) None st1, events)
  else (st1, events).

(** The effect that runs when the model has settled.  [updatedAt] and
    [asOf] are the two readings of the clock, the first for the
    snapshot, the second for the debt. *)
Definition settle (updatedAt asOf : string) (st : State) : State * list Event :=
  match eaRepository st, metadata st with
  | Some repo, Some meta =>
      let nextSerialized := snapshot repo meta updatedAt in
      let st1 := trackHistory nextSerialized st in
      let mode := governanceMode meta in
      if String.eqb mode "Strict" || String.eqb mode "Advisory" then
        let debt := buildGovernanceDebt repo asOf (lifecycleCoverage meta) in
        let '(st2, events2, returned) :=
          if String.eqb mode "Strict" then strictGate meta debt st1
          else (st1, [], false) in
        if returned then (st2, events2)
        else
          let '(st3, events3) :=
            if String.eqb mode "Advisory" then advisoryGate meta debt st2
            else (st2, []) in
          (st3, events2 ++ events3 ++ [StorageSetItem nextSerialized])
      else (st1, [StorageSetItem nextSerialized])
  | _, _ =>
      (setTracking None (suppressHistory st) st, [StorageRemoveItem])
  end.

(** Does the trace of an effect run write the snapshot to storage? *)
Definition persisted (events : list Event) : bool :=
  existsb (fun e => match e with StorageSetItem _ => true | _ => false end) events.

Definition isLog (type : string) (e : Event) : bool :=
  match e with
  | AppendGovernanceLog entry => String.eqb (logType entry) type
  | _ => false
  end.

(** The number of audit entries of a kind in a trace. *)
Definition countLog (type : string) (events : list Event) : nat :=
  length (List.filter (isLog type) events).

(** *** Runs of the provider *)

(** A committed edit: the state holder takes the new repository (an
    update that passed the scope check of [setEaRepository]) and the
    effect runs, reading the clock twice. *)
Record Edit : Type := {
  editRepo : EaRepository;
  editUpdatedAt : string;
  editAsOf : string;
}.

Definition commit (e : Edit) (st : State) : State * list Event :=
  settle (editUpdatedAt e) (editAsOf e) (setEaRepositoryUnsafe (Some (editRepo e)) st).

Fixpoint commits (edits : list Edit) (st : State) : State * list Event :=
  match edits with
  | [] => (st, [])
  | e :: rest =>
      let '(st1, events1) := commit e st in
      let '(st2, events2) := commits rest st1 in
      (st2, events1 ++ events2)
  end.





(** *** The fingerprint of the spec

    Section 4.8: the fingerprint is the ordered tuple of the five summary
    counts. *)
Definition Fingerprint : Type := (nat * nat * nat * nat * nat)%type.

Definition fingerprint (s : GovernanceDebtSummary) : Fingerprint :=
  (mandatoryFindingCount s, invalidRelationshipInsertCount s,
   relationshipErrorCount s, relationshipWarningCount s,
   lifecycleTagMissingCount s).

Definition Fingerprint_eq_dec (a b : Fingerprint) : {a = b} + {a <> b}.
Proof. repeat decide equality. Defined.

(** Does the fingerprint of [s] differ from that of the settle before
    it, if there was one? *)
Definition fingerprintChanged (prev : option GovernanceDebtSummary)
    (s : GovernanceDebtSummary) : bool :=
  match prev with
  | Some p => if Fingerprint_eq_dec (fingerprint p) (fingerprint s) then false else true
  | None => true
  end.

(** The summary of the last settle of a run, [prev] for an empty run. *)
Definition lastSummary (prev : option GovernanceDebtSummary)
    (run : list GovernanceDebtSummary) : option GovernanceDebtSummary :=
  match list.last run with
  | Some s => Some s
  | None => prev
  end.

(** The number of warnings that the spec's rule asks for over a run of
    settles: one for every settle with positive total whose fingerprint
    differs from the fingerprint of the settle before it ([prev]). *)
Fixpoint specWarnedEntries (prev : option GovernanceDebtSummary)
    (run : list GovernanceDebtSummary) : nat :=
  match run with
  | [] => 0
  | s :: rest =>
      (if Nat.ltb 0 (total s) && fingerprintChanged prev s then 1 else 0)
      + specWarnedEntries (Some s) rest
  end.

(** The last warned key after a settle whose summary was [prev]. *)
Definition warnedAfter (prev : option GovernanceDebtSummary) : option string :=
  match prev with
  | Some p => if Nat.ltb 0 (total p) then Some (debtKey p) else None
  | None => None
  end.

Definition countPersisted (events : list Event) : nat :=
  length (List.filter
            (fun e => match e with StorageSetItem _ => true | _ => false end) events).

(** *** Vocabulary for the history properties *)

(** The last [n] entries of a stack. *)
Definition keepLast {A} (n : nat) (l : list A) : list A :=
  drop (length l - n) l.

(** The fields that undo and redo work on. *)
Definition historyOf (st : State)
    : option EaRepository * option EaRepositoryMetadata
      * list Raw * list Raw * option Raw * bool :=
  (eaRepository st, metadata st, undoStack st, redoStack st,
   lastSerialized st, suppressHistory st).

Definition withinLimit (st : State) : Prop :=
  length (undoStack st) <= HISTORY_LIMIT /\ length (redoStack st) <= HISTORY_LIMIT.

(** The states that the provider can come to from [st0] by its
    operations, in any order. *)
Inductive reaches (st0 : State) : State -> Prop :=
| reaches_here : reaches st0 st0
| reaches_settle st updatedAt asOf :
    reaches st0 st -> reaches st0 (fst (settle updatedAt asOf st))
| reaches_undo st : reaches st0 st -> reaches st0 (snd (undo st))
| reaches_redo st : reaches st0 st -> reaches st0 (snd (redo st))
| reaches_set st next :
    reaches st0 st -> reaches st0 (fst (setEaRepository next st))
| reaches_load st text :
    reaches st0 st -> reaches st0 (snd (loadRepositoryFromJsonText text st))
| reaches_create st input now :
    reaches st0 st -> reaches st0 (snd (createNewRepository input now st))
| reaches_clear st : reaches st0 st -> reaches st0 (clearRepository st).

(** Each snapshot of a run differs from the one before it, [s0] being
    the snapshot before the first: every edit is a change. *)
Fixpoint distinctRun (s0 : Raw) (snaps : list Raw) : Prop :=
  match snaps with
  | [] => True
  | x :: rest => s0 <> x /\ distinctRun x rest
  end.

Definition snapshotOfEdit (meta : EaRepositoryMetadata) (e : Edit) : Raw :=
  snapshot (editRepo e) meta (editUpdatedAt e).

(** What the runtime's JSON codec is relied on for: parsing the text of
    an object gives back the object up to what JSON text can carry, and
    a value and its normal form have the same text. *)
Definition codecLaws : Prop :=
  (forall props,
      JSON_parse (JSON_stringify (JObj props)) = Some (jsonNormalize (JObj props)))
  /\ (forall v, JSON_stringify (jsonNormalize v) = JSON_stringify v).

Definition objectsContent (r : EaRepository) : list json :=
  List.map (fun o => jsonNormalize (objectJson o)) (Js.values (objects r)).

Definition relationshipsContent (r : EaRepository) : list json :=
  List.map (fun x => jsonNormalize (relationshipJson x)) (relationships r).

(** Two repositories hold the same objects and relationships, in the
    same order, as far as a snapshot can tell. *)
Definition sameContent (a b : EaRepository) : Prop :=
  objectsContent a = objectsContent b
  /\ relationshipsContent a = relationshipsContent b.

(** What the absent metadata validator and [EaRepository] constructor
    are relied on for, at a repository [r] with metadata [meta]: the
    validator accepts the metadata of a snapshot and returns it, and the
    constructor accepts the arrays of a snapshot of [r] and keeps them. *)
Definition restorable (meta : EaRepositoryMetadata) (r : EaRepository) : Prop :=
  validateRepositoryMetadata (Some (jsonNormalize (metadataJson meta))) = inr meta
  /\ exists r',
       newEaRepository (objectsContent r) (relationshipsContent r) = inr r'
       /\ sameContent r' r.

(** What a snapshot holds of a repository, read off the objects and the
    relationships themselves: attributes as JSON text can hold them (a
    missing attributes object reads as the empty one, an attribute that
    holds [undefined] is not written, an [undefined] inside an array
    reads as [null]), ids and types as they are. *)
Definition carriedAttributes (attributes : option Props) : Props :=
  match jsonNormalize (JObj (attrsOrEmpty attributes)) with
  | JObj props => props
  | _ => []
  end.

Definition carriedObject (o : EaObject.t) : EaObject.t :=
  {| EaObject.id := EaObject.id o;
     EaObject.type := EaObject.type o;
     EaObject.attributes := Some (carriedAttributes (EaObject.attributes o)) |}.

Definition carriedRelationship (x : EaRelationship.t) : EaRelationship.t :=
  {| EaRelationship.fromId := EaRelationship.fromId x;
     EaRelationship.toId := EaRelationship.toId x;
     EaRelationship.type := EaRelationship.type x;
     EaRelationship.attributes := Some (carriedAttributes (EaRelationship.attributes x)) |}.

(** The repository as a snapshot holds it: the objects in the order of
    the map, each under its id, and the relationships in their order.
    A repository whose objects sit under their ids and whose attributes
    are all there and free of [undefined] is its own carried form. *)
Definition carried (r : EaRepository) : EaRepository :=
  {| objects :=
       List.map (fun o => (EaObject.id o, carriedObject o)) (Js.values (objects r));
     relationships := List.map carriedRelationship (relationships r) |}.

(** What an item of the [objects] array, and of the [relationships]
    array, of a parsed snapshot describes. *)
Definition objectOfJson (item : json) : option EaObject.t :=
  match propOf item "id", propOf item "type", propOf item "attributes" with
  | Some (JStr i), Some (JStr t), Some (JObj a) =>
      Some {| EaObject.id := i; EaObject.type := t; EaObject.attributes := Some a |}
  | _, _, _ => None
  end.

Definition relationshipOfJson (item : json) : option EaRelationship.t :=
  match propOf item "fromId", propOf item "toId", propOf item "type",
        propOf item "attributes" with
  | Some (JStr f), Some (JStr t), Some (JStr ty), Some (JObj a) =>
      Some {| EaRelationship.fromId := f; EaRelationship.toId := t;
              EaRelationship.type := ty; EaRelationship.attributes := Some a |}
  | _, _, _, _ => None
  end.

(** What the history properties rely on the absent metadata validator
    and [EaRepository] constructor for, at a repository [r] with
    metadata [meta]: the validator accepts the metadata of a snapshot
    and returns it, and the constructor accepts the arrays of a snapshot
    of [r] and returns the repository that holds what their items
    describe, in order, each object under its id. *)
Definition rebuilds (meta : EaRepositoryMetadata) (r : EaRepository) : Prop :=
  validateRepositoryMetadata (Some (jsonNormalize (metadataJson meta))) = inr meta
  /\ exists os rs,
       List.map objectOfJson (objectsContent r) = List.map Some os
       /\ List.map relationshipOfJson (relationshipsContent r) = List.map Some rs
       /\ newEaRepository (objectsContent r) (relationshipsContent r)
          = inr {| objects := List.map (fun o => (EaObject.id o, o)) os;
                   relationships := rs |}.




End Settle.

End WithEnvironment.

End Provider.

(** ** The definition tables of the meta-model (eaMetaModel.ts) *)

Module ObjectTypeDefinition.
Record t : Type := {
  type : string;
  layer : MetaModel.EaLayer;
  description : string;
  attributes : list string;
  allowedOutgoingRelationships : list string;
  allowedIncomingRelationships : list string;
}.
End ObjectTypeDefinition.

Module RelationshipTypeDefinition.
Record t : Type := {
  type : string;
  layer : MetaModel.EaLayer;
  description : string;
  fromTypes : list string;
  toTypes : list string;
  attributes : list string;
}.
End RelationshipTypeDefinition.

Module MetaModelTables.
Import Json MetaModel.

Definition RELATIONSHIP_TYPES : list string :=
  [ "DECOMPOSES_TO"; "REALIZES"; "DEPENDS_ON"; "HOSTED_ON"; "SUPPORTS";
    "DELIVERS"; "OWNS" ].

Definition EA_LAYERS : list EaLayer := [Strategy; Business; Application; Technology].

Definition objectType (type : string) (layer : EaLayer) (description : string)
    (attributes outgoing incoming : list string) : string * ObjectTypeDefinition.t :=
  (type,
   {| ObjectTypeDefinition.type := type;
      ObjectTypeDefinition.layer := layer;
      ObjectTypeDefinition.description := description;
      ObjectTypeDefinition.attributes := attributes;
      ObjectTypeDefinition.allowedOutgoingRelationships := outgoing;
      ObjectTypeDefinition.allowedIncomingRelationships := incoming |}).

(** The record [OBJECT_TYPE_DEFINITIONS], in the order of its literal. *)
Definition OBJECT_TYPE_DEFINITIONS : Js.Map ObjectTypeDefinition.t :=
  [ objectType "Programme" Strategy
      "A strategic initiative grouping related change outcomes and delivery work."
      ["name"] ["DELIVERS"] [];
    objectType "Project" Strategy
      "A time-bound delivery effort (v1: catalogued but not fully modeled)."
      ["name"] [] [];
    objectType "Principle" Strategy
      "A guiding principle that shapes architecture decisions."
      ["name"] [] [];
    objectType "Requirement" Strategy
      "A requirement that constrains or informs architecture and change work."
      ["name"] [] [];
    objectType "CapabilityCategory" Business
      "A top-level grouping of business capabilities."
      ["name"; "category"] ["DECOMPOSES_TO"] ["DECOMPOSES_TO"; "DELIVERS"];
    objectType "Capability" Business
      "A business capability (what the business does)."
      ["name"; "category"] ["DECOMPOSES_TO"] ["DECOMPOSES_TO"; "DELIVERS"];
    objectType "SubCapability" Business
      "A decomposed business capability (more granular capability)."
      ["name"; "category"] [] ["DECOMPOSES_TO"; "DELIVERS"];
    objectType "BusinessProcess" Business
      "A business process (how work is performed across steps/activities)."
      ["name"] ["REALIZES"] ["SUPPORTS"];
    objectType "Department" Business
      "An organizational unit accountable for or owning applications (v1: simple catalogued unit)."
      ["name"] ["OWNS"] [];
    objectType "Application" Application
      "A software application or service."
      ["name"; "criticality"; "lifecycle"]
      ["DEPENDS_ON"; "HOSTED_ON"; "SUPPORTS"]
      ["DEPENDS_ON"; "REALIZES"; "DELIVERS"; "OWNS"];
    objectType "Technology" Technology
      "A technology platform/component that applications run on or use."
      ["name"] [] ["HOSTED_ON"] ].

Definition relationshipType (type : string) (layer : EaLayer) (description : string)
    (fromTypes toTypes attributes : list string)
    : string * RelationshipTypeDefinition.t :=
  (type,
   {| RelationshipTypeDefinition.type := type;
      RelationshipTypeDefinition.layer := layer;
      RelationshipTypeDefinition.description := description;
      RelationshipTypeDefinition.fromTypes := fromTypes;
      RelationshipTypeDefinition.toTypes := toTypes;
      RelationshipTypeDefinition.attributes := attributes |}).

(** The record [RELATIONSHIP_TYPE_DEFINITIONS], in the order of its literal. *)
Definition RELATIONSHIP_TYPE_DEFINITIONS : Js.Map RelationshipTypeDefinition.t :=
  [ relationshipType "DECOMPOSES_TO" Business
      "Decomposition relationship used to break a parent element into child elements."
      ["CapabilityCategory"; "Capability"; "SubCapability"]
      ["CapabilityCategory"; "Capability"; "SubCapability"] [];
    relationshipType "REALIZES" Business
      "Indicates an application realizes (implements/enables) a business process."
      ["BusinessProcess"] ["Application"] [];
    relationshipType "DEPENDS_ON" Application
      "Dependency relationship between applications (service/application calling another)."
      ["Application"] ["Application"] ["dependencyStrength"; "dependencyType"];
    relationshipType "HOSTED_ON" Technology
      "Hosting relationship (application hosted on / deployed to technology)."
      ["Application"] ["Technology"] [];
    relationshipType "SUPPORTS" Business
      "Support relationship (application supports a business process)."
      ["Application"] ["BusinessProcess"] [];
    relationshipType "DELIVERS" Strategy
      "Delivery relationship from a programme to a delivered business/application outcome."
      ["Programme"] ["CapabilityCategory"; "Capability"; "SubCapability"; "Application"] [];
    relationshipType "OWNS" Business
      "Ownership/accountability relationship from an organizational unit to an application."
      ["Department"] ["Application"] ["sourceFile"; "sourceRow"; "importedAt"] ].

(** [typeof type === 'string' && RELATIONSHIP_TYPES.includes(type)], on
    a value of unknown type. *)
Definition isValidRelationshipType (type : json) : bool :=
  match type with
  | JStr s => existsb (String.eqb s) RELATIONSHIP_TYPES
  | _ => false
  end.

(** The types from which a relationship type may start and at which it
    may end, as the relationship table has them; none for a name that
    the table does not define. *)
Definition fromTypesOf (relationship : string) : list string :=
  match Js.get relationship RELATIONSHIP_TYPE_DEFINITIONS with
  | Some d => RelationshipTypeDefinition.fromTypes d
  | None => []
  end.

Definition toTypesOf (relationship : string) : list string :=
  match Js.get relationship RELATIONSHIP_TYPE_DEFINITIONS with
  | Some d => RelationshipTypeDefinition.toTypes d
  | None => []
  end.

Definition outgoingOf (objectType : string) : list string :=
  match Js.get objectType OBJECT_TYPE_DEFINITIONS with
  | Some d => ObjectTypeDefinition.allowedOutgoingRelationships d
  | None => []
  end.

Definition incomingOf (objectType : string) : list string :=
  match Js.get objectType OBJECT_TYPE_DEFINITIONS with
  | Some d => ObjectTypeDefinition.allowedIncomingRelationships d
  | None => []
  end.

End MetaModelTables.

(** ** Catalog tables (CatalogTableTab.tsx) *)

Module Catalog.

(** A catalog kind reaches the component as a string; the [switch] and
    the chains of [if] have a branch for every other string. *)
Definition titleForCatalogKind (kind : string) : string :=
  if String.eqb kind "capabilities" then "Capabilities"
  else if String.eqb kind "processes" then "Business Processes"
  else if String.eqb kind "applications" then "Applications"
  else if String.eqb kind "technologies" then "Technologies"
  else if String.eqb kind "programmes" then "Programmes"
  else "Catalog".

Record Column : Type := {
  title : string;
  dataIndex : string;
  width : nat;
  ellipsis : bool;
  valueType : option string;
}.

Definition column (title dataIndex : string) (width : nat) : Column :=
  {| title := title; dataIndex := dataIndex; width := width;
     ellipsis := false; valueType := None |}.

Definition wide (title dataIndex : string) (width : nat) : Column :=
  {| title := title; dataIndex := dataIndex; width := width;
     ellipsis := true; valueType := None |}.

Definition switch (title dataIndex : string) (width : nat) : Column :=
  {| title := title; dataIndex := dataIndex; width := width;
     ellipsis := false; valueType := Some "switch" |}.

Definition baseColumns : list Column :=
  [ column "ID" "id" 240;
    column "Name" "name" 220;
    wide "Description" "description" 320;
    column "Element Type" "elementType" 140;
    column "Layer" "layer" 140;
    column "Lifecycle Status" "lifecycleStatus" 160;
    column "Lifecycle Start" "lifecycleStartDate" 150;
    column "Lifecycle End" "lifecycleEndDate" 150;
    column "Owner Role" "ownerRole" 160;
    column "Owner Name" "ownerName" 180;
    column "Owning Unit" "owningUnit" 180;
    column "Approval Status" "approvalStatus" 160;
    column "Last Reviewed At" "lastReviewedAt" 180;
    column "Review Cycle (Months)" "reviewCycleMonths" 190;
    column "Created At" "createdAt" 180;
    column "Created By" "createdBy" 160;
    column "Last Modified At" "lastModifiedAt" 180;
    column "Last Modified By" "lastModifiedBy" 170 ].

Definition capabilityColumns : list Column :=
  baseColumns ++
  [ column "Capability Level" "capabilityLevel" 150;
    column "Parent Capability ID" "parentCapabilityId" 240;
    wide "Business Outcome" "businessOutcome" 260;
    column "Value Stream" "valueStream" 200;
    switch "In Scope" "inScope" 110;
    switch "Impacted By Change" "impactedByChange" 170;
    column "Strategic Importance" "strategicImportance" 170;
    column "Maturity Level" "maturityLevel" 140 ].

Definition processColumns : list Column :=
  baseColumns ++
  [ column "Process Owner" "processOwner" 200;
    wide "Triggering Event" "triggeringEvent" 220;
    wide "Expected Outcome" "expectedOutcome" 240;
    column "Frequency" "frequency" 140;
    column "Criticality" "criticality" 140;
    switch "Regulatory Relevant" "regulatoryRelevant" 170;
    wide "Compliance Notes" "complianceNotes" 260;
    column "Parent Capability ID" "parentCapabilityId" 240 ].

Definition applicationColumns : list Column :=
  baseColumns ++
  [ column "Application Code" "applicationCode" 180;
    column "Application Type" "applicationType" 150;
    column "Business Criticality" "businessCriticality" 180;
    column "Availability Target (%)" "availabilityTarget" 190;
    column "Deployment Model" "deploymentModel" 150;
    column "Vendor Lock-In Risk" "vendorLockInRisk" 170;
    column "Technical Debt Level" "technicalDebtLevel" 180;
    column "Annual Run Cost" "annualRunCost" 160;
    column "Vendor Name" "vendorName" 200 ].

Definition technologyColumns : list Column :=
  baseColumns ++
  [ column "Technology Type" "technologyType" 160;
    column "Technology Category" "technologyCategory" 190;
    column "Vendor" "vendor" 180;
    column "Version" "version" 140;
    column "Support End Date" "supportEndDate" 170;
    column "Obsolescence Risk" "obsolescenceRisk" 170;
    switch "Standard Approved" "standardApproved" 170 ].

Definition programmeColumns : list Column :=
  baseColumns ++
  [ column "Programme Type" "programmeType" 160;
    wide "Strategic Objective" "strategicObjective" 260;
    column "Start Date" "startDate" 150;
    column "End Date" "endDate" 150;
    column "Budget Estimate" "budgetEstimate" 160;
    column "Funding Status" "fundingStatus" 150;
    wide "Expected Business Impact" "expectedBusinessImpact" 280;
    column "Risk Level" "riskLevel" 130 ].

(** The memoised [columns] of the component. *)
Definition columnsFor (kind : string) : list Column :=
  if String.eqb kind "capabilities" then capabilityColumns
  else if String.eqb kind "processes" then processColumns
  else if String.eqb kind "applications" then applicationColumns
  else if String.eqb kind "technologies" then technologyColumns
  else if String.eqb kind "programmes" then programmeColumns
  else baseColumns.

End Catalog.

(** ** The explorer tree (ExplorerTree.tsx) *)

Module Explorer.

Set Warnings "-register-all".

(** A tree node: key, title, the name of its icon component, children. *)
Inductive DataNode : Type :=
| Node (key title icon : string) (children : list DataNode).

Definition nodeKey (n : DataNode) : string := let 'Node k _ _ _ := n in k.
Definition nodeTitle (n : DataNode) : string := let 'Node _ t _ _ := n in t.
Definition nodeChildren (n : DataNode) : list DataNode := let 'Node _ _ _ c := n in c.

Module ROOT_KEYS.
Definition business : string := "explorer:business".
Definition application : string := "explorer:application".
Definition technology : string := "explorer:technology".
Definition implMig : string := "explorer:implementation-migration".
Definition governance : string := "explorer:governance".
End ROOT_KEYS.

Definition EXPLORER_TREE_DATA : list DataNode :=
  [ Node ROOT_KEYS.business "Business" "FolderOutlined"
      [ Node "explorer:business:capabilities" "Capabilities" "ApartmentOutlined" [];
        Node "explorer:business:processes" "Business Processes" "ForkOutlined" [];
        Node "explorer:business:departments" "Departments" "TeamOutlined" [] ];
    Node ROOT_KEYS.application "Application" "FolderOutlined"
      [ Node "explorer:application:applications" "Applications" "AppstoreOutlined" [] ];
    Node ROOT_KEYS.technology "Technology" "FolderOutlined"
      [ Node "explorer:technology:technologies" "Technologies" "CloudOutlined" [] ];
    Node ROOT_KEYS.implMig "Implementation & Migration" "FolderOutlined"
      [ Node "explorer:implmig:programmes" "Programmes" "ProjectOutlined" [];
        Node "explorer:implmig:projects" "Projects" "FundProjectionScreenOutlined" [] ];
    Node ROOT_KEYS.governance "Governance" "FolderOutlined"
      [ Node "explorer:governance:principles" "Principles" "SafetyOutlined" [];
        Node "explorer:governance:requirements" "Requirements" "FileTextOutlined" [] ] ].

Definition defaultExpandedKeys : list string :=
  [ ROOT_KEYS.business; ROOT_KEYS.application; ROOT_KEYS.technology;
    ROOT_KEYS.implMig; ROOT_KEYS.governance ].

(** What a click asks the shell for: [openWorkspaceTab({ type: 'catalog',
    catalog })] or [openRouteTab(route)]. *)
Inductive TabRequest : Type :=
| OpenWorkspaceTab (catalog : string)
| OpenRouteTab (route : string).

Definition openForKey (key : string) : TabRequest :=
  if String.eqb key ROOT_KEYS.business then OpenWorkspaceTab "capabilities"
  else if String.eqb key ROOT_KEYS.application then OpenWorkspaceTab "applications"
  else if String.eqb key ROOT_KEYS.technology then OpenWorkspaceTab "technologies"
  else if String.eqb key ROOT_KEYS.implMig then OpenWorkspaceTab "programmes"
  else if String.eqb key ROOT_KEYS.governance then OpenRouteTab "/governance"
  else if String.eqb key "explorer:business:capabilities" then OpenWorkspaceTab "capabilities"
  else if String.eqb key "explorer:business:processes" then OpenWorkspaceTab "processes"
  else if String.eqb key "explorer:application:applications" then OpenWorkspaceTab "applications"
  else if String.eqb key "explorer:technology:technologies" then OpenWorkspaceTab "technologies"
  else if String.eqb key "explorer:implmig:programmes" then OpenWorkspaceTab "programmes"
  else if String.eqb key "explorer:governance:principles"
          || String.eqb key "explorer:governance:requirements" then OpenRouteTab "/governance"
  else OpenRouteTab "/workspace".

(** A [React.Key] is a string or a number. *)
Inductive ReactKey : Type :=
| KeyString (s : string)
| KeyNumber (n : Z).

Inductive ShellEffect : Type :=
| SetSelection (kind : string) (keys : list string)
| Open (request : TabRequest).

(** The [onSelect] handler of the tree; [onSwitcher] tells whether the
    click landed inside the expand/collapse caret. *)
Definition onSelect (selectedKeys : list ReactKey) (onSwitcher : bool)
    : list ShellEffect :=
  match selectedKeys with
  | KeyString key :: _ =>
      if onSwitcher then []
      else [SetSelection "repository" [key]; Open (openForKey key)]
  | _ => []
  end.

(** Every node of the tree, parents before their children. *)
Fixpoint nodesOf (n : DataNode) : list DataNode :=
  n :: (fix all (l : list DataNode) : list DataNode :=
          match l with
          | [] => []
          | c :: rest => nodesOf c ++ all rest
          end) (nodeChildren n).

End Explorer.

(** ** Runs of insertions into the typed element store *)

Module ArchRepoRuns.
Import ArchRepo.

(** A sequence of [addElement] calls, results ignored as the object
    loop of [buildGovernanceDebt] ignores them. *)
Definition addAll (ops : list (RepositoryCollectionType * BaseArchitectureElement))
    (r : ArchitectureRepository) : ArchitectureRepository :=
  fold_left (fun acc op => snd (addElement (fst op) (snd op) acc)) ops r.

(** The elements of the five typed collections, in the order in which
    [buildGovernanceDebt] concatenates them. *)
Definition allElements (r : ArchitectureRepository) : list BaseArchitectureElement :=
  getElementsByType capabilities r ++ getElementsByType businessProcesses r
  ++ getElementsByType applications r ++ getElementsByType technologies r
  ++ getElementsByType programmes r.

(** The message of the second check of [addElement]. *)
Definition mismatchError (c : RepositoryCollectionType) (e : BaseArchitectureElement)
    : string :=
  "Rejected insert: elementType '" +:+ elementType e
  +:+ "' does not match collection '" +:+ collectionName c
  +:+ "' (expected '" +:+ expectedElementType c +:+ "').".

(** Every element of a typed collection has the element type of the
    collection. *)
Definition typed (r : ArchitectureRepository) : Prop :=
  forall c k e, Js.get k (collection c r) = Some e ->
    elementType e = expectedElementType c.

End ArchRepoRuns.

(** ** Vocabulary for the scope policy *)

Module PolicyTerms.
Import MetaModel ScopePolicy.

(** One of the three scopes that the policy names. *)
Definition namedScope (architectureScope : option string) : bool :=
  scopeIs architectureScope "Programme"
  || scopeIs architectureScope "Business Unit"
  || scopeIs architectureScope "Domain".

(** A type that is present, non-empty and one of [OBJECT_TYPES]. *)
Definition presentAndValid (objectType : option string) : bool :=
  match objectType with
  | Some t => negb (String.eqb t EmptyString) && isValidObjectType t
  | None => false
  end.

End PolicyTerms.

(** ** Vocabulary for the scope check of the update boundary *)

Module ScopeCheckTerms.
Import Json Ea ScopePolicy Provider.

Section WithPlatform.
Context {platform : Platform}.

(** What the loop of [hasReadOnlyObjectChanges] objects to at id [k]:
    the object is there on one side only, or it is there on both, one of
    its two types is not writable under the scope, and its type or its
    rendered attributes differ. *)
Definition changeBarred (prev next : EaRepository)
    (architectureScope : option string) (k : string) : Prop :=
  let writable o :=
    isAnyObjectTypeWritableForScope architectureScope (Some (EaObject.type o)) in
  let rendered o :=
    stableStringify localeCompare (JObj (attrsOrEmpty (EaObject.attributes o))) in
  match Js.get k (objects prev), Js.get k (objects next) with
  | Some a, Some b =>
      (writable a = false \/ writable b = false)
      /\ (EaObject.type a <> EaObject.type b \/ rendered a <> rendered b)
  | Some _, None => True
  | None, Some _ => True
  | None, None => False
  end.

(** The warning that [setEaRepository] shows under a scope. *)
Definition scopeWarning (architectureScope : option string) : string :=
  if scopeIs architectureScope "Domain" then domainWarning else businessUnitWarning.

End WithPlatform.

End ScopeCheckTerms.

(** ** Vocabulary for the comparator of [stableStringify] *)

Module SortTerms.

(** [x] is sorted before [y], or is [y]. *)
Definition precedes (cmp : string -> string -> comparison) (x y : string) : Prop :=
  cmp x y = Lt \/ x = y.

(** The comparator is a consistent one that tells any two distinct keys
    apart: swapping the arguments flips the answer, the answer "before"
    is transitive, and only a key and itself compare as equal. *)
Definition tellsKeysApart (cmp : string -> string -> comparison) : Prop :=
  (forall x y, cmp y x = CompOpp (cmp x y))
  /\ (forall x y z, cmp x y = Lt -> cmp y z = Lt -> cmp x z = Lt)
  /\ (forall x y, cmp x y = Eq -> x = y).

End SortTerms.

(** ** Vocabulary for the governance debt aggregator *)

Module GovernanceTerms.
Import Json ArchRepo RelRepo Ea Governance.

(** The element types of the five typed collections. *)
Definition backendTypes : list string :=
  [ "Capability"; "BusinessProcess"; "Application"; "Technology"; "Programme" ].

(** The projection of the first object of [objs] that carries the id
    [k] and has a typed collection. *)
Fixpoint firstProjection (now k : string) (objs : list EaObject.t)
    : option BaseArchitectureElement :=
  match objs with
  | [] => None
  | obj :: rest =>
      match projectObject now obj with
      | Some (_, element) =>
          if String.eqb k (EaObject.id obj) then Some element
          else firstProjection now k rest
      | None => firstProjection now k rest
      end
  end.

(** The objects map is keyed by the ids of its objects, each key once,
    as a [Map] filled with [set(obj.id, obj)] is. *)
Definition keyedById (eaRepository : EaRepository) : Prop :=
  NoDup (Js.keys (objects eaRepository))
  /\ forall k obj, In (k, obj) (objects eaRepository) -> EaObject.id obj = k.

(** The element has a value under the field [name]: the field is there
    and holds something other than [undefined]. *)
Definition carries (element : BaseArchitectureElement) (name : string) : Prop :=
  name = "id" \/ name = "elementType"
  \/ exists v, getProp name (fields element) = Some v /\ isUndefined v = false.

(** The field [name] of the element holds a value that JavaScript takes
    for true: neither missing nor empty. *)
Definition filled (element : BaseArchitectureElement) (name : string) : Prop :=
  exists v, getProp name (fields element) = Some v /\ truthy v = true.

Section WithValidators.
Context {api : RelationshipRepositoryApi} {validators : Validators api}.

(** The test of the object loop for a missing lifecycle tag, short of
    the coverage test: the object is not marked deleted and has no
    lifecycle state. *)
Definition lacksLifecycleTag (obj : EaObject.t) : bool :=
  let attrs := attrsOrEmpty (EaObject.attributes obj) in
  notDeleted attrs && falsyState (getLifecycleStateFromAttributes attrs).

End WithValidators.

End GovernanceTerms.

(** ** The provider at mount, and the dialog's OK button *)

Module Mount.
Import Json Ea Governance Metadata Provider.

Section WithEnvironment.
Context {platform : Platform} {env : Environment}.

(** The provider with nothing loaded. *)
Definition unloaded : State :=
  {| eaRepository := None; metadata := None;
     canUndo := false; canRedo := false;
     undoStack := []; redoStack := [];
     lastSerialized := None; suppressHistory := false;
     lastSaveBlockedKey := None; saveBlockedModal := false;
     lastAdvisoryWarnKey := None |}.

(** The memoised [initial] of the provider and the state and refs that
    are initialised from it (EaRepositoryContext, lines 142-168).
    [stored] is what [localStorage.getItem] answers: nothing when the
    key is absent, the text is empty or the read throws. *)
Definition initialState (stored : option Raw) : State :=
  match stored with
  | None => unloaded
  | Some raw =>
      match deserializeRaw raw with
      | None => unloaded
      | Some (repo, meta) =>
          {| eaRepository := Some repo; metadata := Some meta;
             canUndo := false; canRedo := false;
             undoStack := []; redoStack := [];
             lastSerialized := Some raw; suppressHistory := false;
             lastSaveBlockedKey := None; saveBlockedModal := false;
             lastAdvisoryWarnKey := None |}
      end
  end.

(** The [onOk] of the blocking dialog (lines 398-400). *)
Definition modalOnOk (st : State) : State :=
  setGate (lastSaveBlockedKey st) false (lastAdvisoryWarnKey st) st.

End WithEnvironment.

End Mount.

(** ** Vocabulary for the history flags and the Strict gate *)

Module GateTerms.
Import Json RelRepo Ea Governance Metadata Provider.

Section WithPlatform.
Context {platform : Platform}.
Context {api : RelationshipRepositoryApi} {validators : Validators api}.

(** The two flags that the provider publishes tell whether the stacks
    hold an entry. *)
Definition flagsAgree (st : State) : Prop :=
  canUndo st = nonEmpty (undoStack st) /\ canRedo st = nonEmpty (redoStack st).

(** The key that the Strict branch remembers after a settle whose
    summary was [prev]. *)
Definition blockedAfter (prev : option GovernanceDebtSummary) : option string :=
  match prev with
  | Some p => if blocked p then Some (debtKey p) else None
  | None => None
  end.

(** A settle with summary [s] starts a new blocked episode or changes
    the fingerprint of the running one. *)
Definition blockReported (prev : option GovernanceDebtSummary)
    (s : GovernanceDebtSummary) : bool :=
  blocked s
  && match prev with
     | Some p => negb (blocked p) || fingerprintChanged (Some p) s
     | None => true
     end.

(** Over a run of settles: the number that report a block. *)
Fixpoint blockedEntries (prev : option GovernanceDebtSummary)
    (run : list GovernanceDebtSummary) : nat :=
  match run with
  | [] => 0
  | s :: rest =>
      (if blockReported prev s then 1 else 0) + blockedEntries (Some s) rest
  end.

(** Over a run of settles: the number that leave a blocked episode. *)
Fixpoint releases (prev : option GovernanceDebtSummary)
    (run : list GovernanceDebtSummary) : nat :=
  match run with
  | [] => 0
  | s :: rest =>
      (if negb (blocked s)
          && match prev with Some p => blocked p | None => false end
       then 1 else 0)
      + releases (Some s) rest
  end.

Definition isModalError (e : Event) : bool :=
  match e with ModalError _ _ _ _ => true | _ => false end.

Definition isModalDestroy (e : Event) : bool :=
  match e with ModalDestroy => true | _ => false end.

Definition isReleaseMessage (e : Event) : bool :=
  match e with
  | MessageSuccess text => String.eqb text "Governance compliant: saving re-enabled."
  | _ => false
  end.

Definition count (p : Event -> bool) (events : list Event) : nat :=
  length (List.filter p events).

(** The summary of the debt that a committed edit settles with. *)
Definition debtOfEdit (meta : EaRepositoryMetadata) (e : Edit) : GovernanceDebtSummary :=
  summary (buildGovernanceDebt (editRepo e) (editAsOf e) (lifecycleCoverage meta)).

End WithPlatform.

End GateTerms.

(** ** Runs of the gate with the user's dismissals *)

Module GateRuns.
Import Json RelRepo Ea Governance Metadata Provider Mount GateTerms.

Section WithEnvironment.
Context {platform : Platform} {env : Environment}.
Context {api : RelationshipRepositoryApi} {validators : Validators api}.

(** A step of a session: an edit is committed, or the user presses OK
    on the blocking dialog that the provider holds. *)
Inductive GateStep : Type :=
| Commit (e : Edit)
| PressOk.

(** The state after the steps, the trace of the effect runs, and the
    number of dialogs that the user dismissed. *)
Fixpoint runGate (steps : list GateStep) (st : State) : State * list Event * nat :=
  match steps with
  | [] => (st, [], 0)
  | Commit e :: rest =>
      let '(st1, events1) := commit e st in
      let '(st2, events2, dismissed) := runGate rest st1 in
      (st2, events1 ++ events2, dismissed)
  | PressOk :: rest =>
      let '(st2, events2, dismissed) := runGate rest (modalOnOk st) in
      (st2, events2, (if saveBlockedModal st then 1 else 0) + dismissed)
  end.

(** One for a dialog that the provider holds, zero for none. *)
Definition held (st : State) : nat := if saveBlockedModal st then 1 else 0.

End WithEnvironment.

End GateRuns.

(** ** Vocabulary for the two rule tables *)

Module RuleTerms.
Import Semantics Governance.

(** The backend rule of a relationship type lists, among its sources
    and targets, the element types that [toBackendElementType] gives for
    the two object types. *)
Definition backendRuleAdmits (relationship fromType toType : string) : bool :=
  match getRelationshipEndpointRule relationship with
  | Some rule =>
      includes (from rule) (toBackendElementType fromType)
      && includes (to rule) (toBackendElementType toType)
  | None => false
  end.

End RuleTerms.

(** ** Vocabulary for the explorer tree *)

Module ExplorerTerms.
Import Explorer.

(** The catalog kinds that the catalog tab knows. *)
Definition catalogKinds : list string :=
  [ "capabilities"; "processes"; "applications"; "technologies"; "programmes" ].

(** The children of the roots of the tree. *)
Definition leaves : list DataNode :=
  List.flat_map nodeChildren EXPLORER_TREE_DATA.

(** A request names a catalog that the catalog tab knows, with a title
    and columns of its own, or one of the two routes. *)
Definition wellFormed (request : TabRequest) : Prop :=
  match request with
  | OpenWorkspaceTab catalog =>
      In catalog catalogKinds
      /\ Catalog.titleForCatalogKind catalog <> "Catalog"
      /\ Catalog.columnsFor catalog <> Catalog.baseColumns
  | OpenRouteTab route => route = "/governance" \/ route = "/workspace"
  end.

(** What a selection may do: select one repository key, or make a
    well-formed request. *)
Definition expected (effect : ShellEffect) : Prop :=
  match effect with
  | SetSelection kind keys => kind = "repository" /\ length keys = 1
  | Open request => wellFormed request
  end.

(** A root opens what its first child opens. *)
Definition opensLikeFirstChild (root : DataNode) : Prop :=
  match nodeChildren root with
  | child :: _ => openForKey (nodeKey root) = openForKey (nodeKey child)
  | [] => True
  end.

(** A leaf that opens a catalog opens the one that is titled as the
    leaf is. *)
Definition opensOwnCatalog (leaf : DataNode) : Prop :=
  match openForKey (nodeKey leaf) with
  | OpenWorkspaceTab catalog => Catalog.titleForCatalogKind catalog = nodeTitle leaf
  | OpenRouteTab _ => True
  end.

End ExplorerTerms.

(** ** Stand-ins for the parts that are not among the sources

    Concrete runs need a runtime and the absent modules.  The stand-ins
    below are used only to exhibit runs; every general statement of
    Part II quantifies over all platforms, environments and validators. *)

Module StandIns.
Import Json ArchRepo RelRepo Ea Governance Metadata Provider.

(** Equality of values, for a platform whose texts are the values they
    denote: as a test, and as a decision. *)
Fixpoint json_eqb (a b : json) : bool :=
  match a, b with
  | JNull, JNull => true
  | JUndefined, JUndefined => true
  | JBool x, JBool y => Bool.eqb x y
  | JNum x, JNum y => Z.eqb x y
  | JStr x, JStr y => String.eqb x y
  | JArr xs, JArr ys =>
      (fix go (l1 l2 : list json) : bool :=
         match l1, l2 with
         | [], [] => true
         | x :: l1', y :: l2' => json_eqb x y && go l1' l2'
         | _, _ => false
         end) xs ys
  | JObj ps, JObj qs =>
      (fix go (l1 l2 : list (string * json)) : bool :=
         match l1, l2 with
         | [], [] => true
         | p :: l1', q :: l2' =>
             String.eqb (fst p) (fst q) && json_eqb (snd p) (snd q) && go l1' l2'
         | _, _ => false
         end) ps qs
  | _, _ => false
  end.

Fixpoint json_eq_dec (a b : json) {struct a} : {a = b} + {a <> b}.
Proof.
  destruct a as [| |x|x|x|xs|ps], b as [| |y|y|y|ys|qs];
    try (right; discriminate); try (left; reflexivity).
  - destruct (bool_dec x y) as [->|H]; [left; reflexivity | right; congruence].
  - destruct (Z.eq_dec x y) as [->|H]; [left; reflexivity | right; congruence].
  - destruct (String.string_dec x y) as [->|H]; [left; reflexivity | right; congruence].
  - assert ({xs = ys} + {xs <> ys}) as [->|H]; [|left; reflexivity|right; congruence].
    revert ys. induction xs as [|x xs IH]; intros [|y ys];
      try (right; discriminate); try (left; reflexivity).
    destruct (json_eq_dec x y) as [->|H]; [|right; congruence].
    destruct (IH ys) as [->|H]; [left; reflexivity | right; congruence].
  - assert ({ps = qs} + {ps <> qs}) as [->|H]; [|left; reflexivity|right; congruence].
    revert qs. induction ps as [|[k v] ps IH]; intros [|[k' v'] qs];
      try (right; discriminate); try (left; reflexivity).
    destruct (String.string_dec k k') as [->|H]; [|right; congruence].
    destruct (json_eq_dec v v') as [->|H]; [|right; congruence].
    destruct (IH qs) as [->|H]; [left; reflexivity | right; congruence].
Defined.

(** A runtime whose JSON texts are identified with the values they
    denote, and whose collation is the code-unit order. *)
Definition valuePlatform : Platform := {|
  Raw := json;
  Raw_eq_dec := json_eq_dec;
  JSON_stringify := jsonNormalize;
  JSON_parse := fun raw => Some raw;
  parseErrorMessage := fun _ => EmptyString;
  localeCompare := String.compare;
|}.

Definition asString (v : option json) : option string :=
  match v with Some (JStr s) => Some s | _ => None end.

Definition decodeMetadata (v : option json) : string + EaRepositoryMetadata :=
  match v with
  | Some (JObj p) =>
      match asString (getProp "repositoryName" p),
            asString (getProp "organizationName" p),
            asString (getProp "referenceFramework" p),
            asString (getProp "governanceMode" p),
            asString (getProp "timeHorizon" p),
            asString (getProp "createdAt" p) with
      | Some rn, Some on, Some rf, Some gm, Some th, Some ca =>
          inr {| repositoryName := rn; organizationName := on;
                 architectureScope := asString (getProp "architectureScope" p);
                 referenceFramework := rf; governanceMode := gm;
                 lifecycleCoverage := asString (getProp "lifecycleCoverage" p);
                 timeHorizon := th; createdAt := ca |}
      | _, _, _, _, _, _ => inl "Invalid repository metadata."
      end
  | _ => inl "Invalid repository metadata."
  end.

Definition decodeObject (v : json) : option EaObject.t :=
  match v with
  | JObj p =>
      match asString (getProp "id" p), asString (getProp "type" p),
            getProp "attributes" p with
      | Some i, Some t, Some (JObj a) =>
          Some {| EaObject.id := i; EaObject.type := t; EaObject.attributes := Some a |}
      | _, _, _ => None
      end
  | _ => None
  end.

Definition decodeRelationship (v : json) : option EaRelationship.t :=
  match v with
  | JObj p =>
      match asString (getProp "fromId" p), asString (getProp "toId" p),
            asString (getProp "type" p), getProp "attributes" p with
      | Some f, Some t, Some ty, Some (JObj a) =>
          Some {| EaRelationship.fromId := f; EaRelationship.toId := t;
                  EaRelationship.type := ty; EaRelationship.attributes := Some a |}
      | _, _, _, _ => None
      end
  | _ => None
  end.

Fixpoint decodeAll {A} (f : json -> option A) (l : list json) : option (list A) :=
  match l with
  | [] => Some []
  | v :: rest =>
      match f v, decodeAll f rest with
      | Some a, Some r => Some (a :: r)
      | _, _ => None
      end
  end.

Definition buildRepository (objs rels : list json) : string + EaRepository :=
  match decodeAll decodeObject objs, decodeAll decodeRelationship rels with
  | Some os, Some rs =>
      inr {| objects := List.map (fun o => (EaObject.id o, o)) os;
             relationships := rs |}
  | _, _ => inl "Malformed snapshot entry."
  end.

Definition plainEnvironment : Environment := {|
  validateRepositoryMetadata := decodeMetadata;
  newEaRepository := buildRepository;
  emptyEaRepository := {| objects := []; relationships := [] |};
|}.

(** Validators: a missing owner role is a mandatory finding, a stored
    relationship still in draft is a warning, the lifecycle tag is the
    attribute [lifecycleState]. *)
Definition ownerFindings (repo : ArchitectureRepository) : list RepoFinding :=
  List.flat_map
    (fun e =>
       if String.eqb (getString (getProp "ownerRole" (fields e))) EmptyString
       then [{| elementId := id e; repoMessage := "ownerRole is required." |}]
       else [])
    (Js.values (byId repo)).

Definition draftFindings (s : SpecRelationshipStore) : list RelationshipFinding :=
  List.flat_map
    (fun r =>
       if String.eqb (status r) "Draft"
       then [{| subjectId := rid r; relMessage := "Relationship is a draft." |}]
       else [])
    (stored s).

Definition ownerReport (repo : ArchitectureRepository) (now : string) : RepoReport :=
  {| repoFindings := ownerFindings repo;
     summaryTotal := Some (length (ownerFindings repo)) |}.

Definition draftReport (repo : ArchitectureRepository)
    (store : SpecRelationshipStore) (now : string) : RelationshipReport :=
  {| relFindings := draftFindings store;
     bySeverityError := Some 0;
     bySeverityWarning := Some (length (draftFindings store)) |}.

Definition plainValidators : Validators specApi :=
  @Build_Validators specApi
    (fun attrs => asString (getProp "lifecycleState" attrs))
    ownerReport draftReport.

(** Sample data. *)
Definition application (objId owner : string) : EaObject.t :=
  {| EaObject.id := objId; EaObject.type := "Application";
     EaObject.attributes := Some [("name", JStr objId); ("ownerRole", JStr owner)] |}.

Definition technology (objId owner : string) : EaObject.t :=
  {| EaObject.id := objId; EaObject.type := "Technology";
     EaObject.attributes := Some [("name", JStr objId); ("ownerRole", JStr owner)] |}.

Definition repositoryOf (os : list EaObject.t) (rs : list EaRelationship.t)
    : EaRepository :=
  {| objects := List.map (fun o => (EaObject.id o, o)) os; relationships := rs |}.

Definition dependsOn (a b : string) : EaRelationship.t :=
  {| EaRelationship.fromId := a; EaRelationship.toId := b;
     EaRelationship.type := "DEPENDS_ON"; EaRelationship.attributes := Some [] |}.

Definition metadataWith (scope mode : string) : EaRepositoryMetadata :=
  {| repositoryName := "Sample"; organizationName := "Org";
     architectureScope := Some scope; referenceFramework := "ArchiMate";
     governanceMode := mode; lifecycleCoverage := Some "As-Is";
     timeHorizon := "Current"; createdAt := "2024-01-01T00:00:00.000Z" |}.

(** A provider that holds [repo] and [meta] and has not settled yet. *)
Definition freshState (repo : EaRepository) (meta : EaRepositoryMetadata)
    : @State valuePlatform :=
  {| eaRepository := Some repo; metadata := Some meta;
     canUndo := false; canRedo := false;
     undoStack := []; redoStack := [];
     lastSerialized := None; suppressHistory := false;
     lastSaveBlockedKey := None; saveBlockedModal := false;
     lastAdvisoryWarnKey := None |}.

(** Two owned applications, one depending on the other: no error, one
    draft warning. *)
Definition warnedRepository : EaRepository :=
  repositoryOf [application "app-1" "Owner"; application "app-2" "Owner"]
    [dependsOn "app-1" "app-2"].

(** One application that lacks an owner role: one mandatory finding. *)
Definition unownedRepository : EaRepository :=
  repositoryOf [application "app-1" EmptyString] [].

Definition emptyRepository : EaRepository := repositoryOf [] [].

(** A provider that holds [repo] and has settled once, at [t0]. *)
Definition settledState (repo : EaRepository) (meta : EaRepositoryMetadata)
    (t0 : string) : @State valuePlatform :=
  fst (@settle valuePlatform specApi plainValidators t0 t0 (freshState repo meta)).

Definition edit (repo : EaRepository) (t : string) : Edit :=
  {| editRepo := repo; editUpdatedAt := t; editAsOf := t |}.

(** An object with the given attributes, to compare key orders. *)
Definition tagged (attrs : Props) : EaObject.t :=
  {| EaObject.id := "cap-1"; EaObject.type := "Capability";
     EaObject.attributes := Some attrs |}.

(** Sixty edits, the k-th leaving one application named after k. *)
Definition sixtyEdits : list Edit :=
  List.map (fun k => edit (repositoryOf [application (pretty k) "Owner"] []) "t")
    (seq 1 60).

(** [distinctRun], decided on values. *)
Fixpoint distinctRunb (s0 : json) (snaps : list json) : bool :=
  match snaps with
  | [] => true
  | x :: rest => negb (json_eqb s0 x) && distinctRunb x rest
  end.

(** Further sample data of the concrete runs. *)
Definition sampleApplication : BaseArchitectureElement :=
  {| id := "app-1"; elementType := "Application"; fields := [] |}.

Definition sampleClash : BaseArchitectureElement :=
  {| id := "app-1"; elementType := "Technology"; fields := [] |}.

Definition sampleStore : ArchitectureRepository :=
  snd (addElement applications sampleApplication createArchitectureRepository).

Definition strictMeta : EaRepositoryMetadata := metadataWith "Enterprise" "Strict".
Definition noon : string := "2024-06-01T12:00:00.000Z".

Definition ownedBy (owner : string) : EaRepository :=
  repositoryOf [application "app-1" owner; technology "tech-1" owner] [].

Definition advisoryMeta : EaRepositoryMetadata := metadataWith "Enterprise" "Advisory".
Definition later : string := "2024-06-01T12:00:01.000Z".

Definition attrsAB : Props := [("a", JNum 1); ("b", JNum 2)].
Definition attrsBA : Props := [("b", JNum 2); ("a", JNum 1)].

Definition oneApp : EaRepository := repositoryOf [application "app-1" "Owner"] [].
Definition twoApps : EaRepository :=
  repositoryOf [application "app-1" "Owner"; application "app-2" "Owner"] [].


(** U+00A0 (no-break space) and U+FEFF (byte order mark), which
    [trim] strips, and U+200B (zero width space), which it keeps. *)
Definition nbsp : string :=
  String (ascii_of_nat 194) (String (ascii_of_nat 160) EmptyString).
Definition bom : string :=
  String (ascii_of_nat 239) (String (ascii_of_nat 187)
    (String (ascii_of_nat 191) EmptyString)).
Definition zwsp : string :=
  String (ascii_of_nat 226) (String (ascii_of_nat 128)
    (String (ascii_of_nat 139) EmptyString)).


Definition advisoryRun : list Edit :=
  [edit unownedRepository "t1"; edit unownedRepository "t2";
   edit warnedRepository "t3"].

Definition typedSample : ArchitectureRepository :=
  typedStoreOf (api := specApi) (validators := plainValidators)
    (repositoryOf [application "app-1" "Owner"; application "app-2" "Owner";
                   technology "tech-1" "Owner"] [])
    noon None.

Definition recordOf (type source target : string) : RelationshipRecord :=
  {| rid := "rel_0"; relationshipType := type;
     sourceElementId := source; sourceElementType := "Application";
     targetElementId := target; targetElementType := "Application";
     direction := "OUTGOING"; status := "Draft"; effectiveFrom := noon;
     rationale := EmptyString; confidenceLevel := "Medium";
     lastReviewedAt := noon; reviewedBy := "ui"; RelRepo.createdAt := noon;
     createdBy := "ui"; dependencyStrength := None |}.

Definition sampleRelationshipStore : SpecRelationshipStore :=
  {| elementStore := typedSample; stored := [] |}.

(** A department has no typed collection: a relationship that touches
    it, or names no source, is skipped; the remaining one is inserted
    and fails, and is the only entry of the failure list. *)
Definition mixedRepository : EaRepository :=
  repositoryOf
    [application "app-1" "Owner";
     {| EaObject.id := "dept-1"; EaObject.type := "Department";
        EaObject.attributes := Some [] |};
     technology "tech-1" "Owner"]
    [dependsOn "app-1" "dept-1"; dependsOn "  " "app-1"; dependsOn "app-1" "tech-1"].

End StandIns.

(* ===================================================================== *)
(** * Part II: properties                                                *)
(* ===================================================================== *)

(** ** Scope write policy *)

Section ScopePolicyFacts.
Import MetaModel ScopePolicy.

Lemma isValidObjectType_cases (t : string) :
  isValidObjectType t = true -> In t OBJECT_TYPES.
Proof.
  unfold isValidObjectType. rewrite existsb_exists.
  intros [x [Hin Heq]]. apply String.eqb_eq in Heq. now subst.
Qed.

Lemma valid_type_nonempty (t : string) :
  isValidObjectType t = true -> String.eqb t EmptyString = false.
Proof.
  intros H. apply isValidObjectType_cases in H.
  simpl in H. intuition (subst; reflexivity).
Qed.

(** C10. For every architecture scope, null and undefined included, and
    every valid object type, [getReadOnlyReason] answers null exactly
    when [isObjectTypeWritableForScope] answers true: the two policy
    functions never disagree about writability. *)
Theorem getReadOnlyReason_agrees_with_writable
    (architectureScope : option string) (objectType : string) :
  isValidObjectType objectType = true ->
  getReadOnlyReason architectureScope (Some objectType) = None
  <-> isObjectTypeWritableForScope architectureScope objectType = true.
Proof.
  intros Hvalid.
  unfold getReadOnlyReason, isObjectTypeWritableForScope.
  rewrite Hvalid, (valid_type_nonempty _ Hvalid). cbn [orb negb].
  destruct architectureScope as [s|]; cbn [scopeIs]; [|tauto].
  destruct (String.eqb_spec s "Programme") as [->|_].
  { cbn. destruct (_ || _); split; congruence. }
  destruct (String.eqb_spec s "Business Unit") as [->|_].
  { destruct (_ || _); split; congruence. }
  destruct (String.eqb_spec s "Domain") as [->|_].
  { destruct (_ || _); split; congruence. }
  tauto.
Qed.

Lemma getReadOnlyReason_agrees_with_writable_witness :
  isValidObjectType "Technology" = true
  /\ (getReadOnlyReason (Some "Business Unit") (Some "Technology") = None
      <-> isObjectTypeWritableForScope (Some "Business Unit") "Technology" = true).
Proof.
  split; [reflexivity|].
  apply (getReadOnlyReason_agrees_with_writable (Some "Business Unit") "Technology").
  reflexivity.
Defined.

End ScopePolicyFacts.

(** ** JavaScript maps *)

Section JsMapFacts.
Context {V : Type}.
Implicit Types (m : Js.Map V) (k : string) (v : V).

Lemma get_set_eq m k v : Js.get k (Js.set k v m) = Some v.
Proof.
  induction m as [|[k' v'] m IH]; cbn.
  - now rewrite String.eqb_refl.
  - destruct (String.eqb_spec k k') as [->|Hne]; cbn.
    + now rewrite String.eqb_refl.
    + destruct (String.eqb_spec k k'); [contradiction | exact IH].
Qed.

Lemma get_set_ne m k k' v : k <> k' -> Js.get k' (Js.set k v m) = Js.get k' m.
Proof.
  intros Hne. induction m as [|[k0 v0] m IH]; cbn.
  - destruct (String.eqb_spec k' k); [congruence | reflexivity].
  - destruct (String.eqb_spec k k0) as [->|Hk]; cbn.
    + destruct (String.eqb_spec k' k0); [congruence | reflexivity].
    + destruct (String.eqb_spec k' k0); [reflexivity | exact IH].
Qed.

Lemma has_true_iff m k : Js.has k m = true <-> exists v, Js.get k m = Some v.
Proof.
  unfold Js.has. destruct (Js.get k m) as [v|].
  - split; [eauto | reflexivity].
  - split; [discriminate | intros [v Hv]; discriminate].
Qed.

Lemma has_false_iff m k : Js.has k m = false <-> Js.get k m = None.
Proof. unfold Js.has. destruct (Js.get k m); split; congruence. Qed.

Lemma get_Some_in_keys m k v : Js.get k m = Some v -> In k (Js.keys m).
Proof.
  induction m as [|[k' v'] m IH]; cbn; [discriminate|].
  destruct (String.eqb_spec k k') as [->|_]; auto.
Qed.

Lemma in_keys_get m k : In k (Js.keys m) -> exists v, Js.get k m = Some v.
Proof.
  induction m as [|[k' v'] m IH]; cbn; [tauto|].
  intros [->|Hin].
  - rewrite String.eqb_refl. eauto.
  - destruct (String.eqb k k'); eauto.
Qed.

End JsMapFacts.

(** ** The typed element store *)

Section ArchRepoFacts.
Import ArchRepo.

Lemma collection_setCollection c c' m r :
  collection c (setCollection c' m r) = if coll_eq_dec c c' then m else collection c r.
Proof. destruct c, c'; reflexivity. Qed.

Lemma byId_setCollection c m r : byId (setCollection c m r) = byId r.
Proof. destruct c; reflexivity. Qed.

Lemma collection_setById c m r : collection c (setById m r) = collection c r.
Proof. destruct c; reflexivity. Qed.

Lemma addElement_cases c e r :
  (fst (addElement c e r) <> Ok tt /\ snd (addElement c e r) = r)
  \/ (Js.get (id e) (byId r) = None
      /\ elementType e = expectedElementType c
      /\ addElement c e r =
           (Ok tt,
            setById (Js.set (id e) e (byId r))
              (setCollection c (Js.set (id e) e (collection c r)) r))).
Proof.
  unfold addElement.
  destruct (Js.has (id e) (byId r)) eqn:Hhas; [left; split; [discriminate|reflexivity]|].
  destruct (String.eqb_spec (elementType e) (expectedElementType c)) as [Heq|Hne]; cbn [negb];
    [|left; split; [discriminate|reflexivity]].
  destruct (guardOf c e) eqn:Hg; cbn [negb];
    [|left; split; [discriminate|reflexivity]].
  right. rewrite byId_setCollection. apply has_false_iff in Hhas. auto.
Qed.

Lemma addElement_indexed c e r : indexed r -> indexed (snd (addElement c e r)).
Proof.
  intros Hinv. destruct (addElement_cases c e r) as [[_ ->]|(Hfresh & _ & ->)]; [exact Hinv|].
  cbn [snd]. intros c0 k e0. rewrite collection_setById, collection_setCollection.
  cbn [byId setById].
  destruct (coll_eq_dec c0 c) as [->|Hc].
  - destruct (String.string_dec (id e) k) as [<-|Hk].
    + now rewrite !get_set_eq.
    + rewrite !get_set_ne by assumption. apply Hinv.
  - intros Hget. pose proof (Hinv _ _ _ Hget) as Hby.
    rewrite get_set_ne; [exact Hby|]. intros <-. congruence.
Qed.

Lemma reachable_indexed r : reachable r -> indexed r.
Proof.
  induction 1 as [|c e r _ IH].
  - intros [] k e; discriminate.
  - now apply addElement_indexed.
Qed.

(** C6. An insertion under an id that the store already holds, in the
    flat index or in any typed collection, fails with the duplicate-id
    error whatever the target collection, and the stored element stays
    as it was, both in its typed collection and in the flat index. *)
Theorem addElement_duplicate_id_rejected
    (r : ArchitectureRepository) (type held : RepositoryCollectionType)
    (element original : BaseArchitectureElement) :
  reachable r ->
  Js.get (id element) (collection held r) = Some original ->
  fst (addElement type element r) = Err (duplicateIdError (id element))
  /\ snd (addElement type element r) = r
  /\ Js.get (id element) (collection held (snd (addElement type element r)))
     = Some original
  /\ getElementById (id element) (snd (addElement type element r)) = Some original.
Proof.
  intros Hreach Hheld.
  pose proof (reachable_indexed r Hreach _ _ _ Hheld) as Hby.
  unfold addElement, getElementById.
  assert (Js.has (id element) (byId r) = true) as ->
    by (apply has_true_iff; eauto).
  cbn [fst snd]. auto.
Qed.

Lemma addElement_duplicate_id_rejected_witness :
  fst (addElement technologies StandIns.sampleClash StandIns.sampleStore) = Err "Duplicate id: app-1"
  /\ snd (addElement technologies StandIns.sampleClash StandIns.sampleStore) = StandIns.sampleStore
  /\ Js.get "app-1" (collection applications
                       (snd (addElement technologies StandIns.sampleClash StandIns.sampleStore)))
     = Some StandIns.sampleApplication
  /\ getElementById "app-1" (snd (addElement technologies StandIns.sampleClash StandIns.sampleStore))
     = Some StandIns.sampleApplication.
Proof.
  apply (addElement_duplicate_id_rejected StandIns.sampleStore technologies applications
           StandIns.sampleClash StandIns.sampleApplication).
  - apply reachable_add, reachable_empty.
  - reflexivity.
Defined.

End ArchRepoFacts.

(** ** The relationship store *)

Section RelRepoFacts.
Import ArchRepo Semantics RelRepo.

Lemma specAddRelationship_succeeds_iff s rec :
  succeeds (specAddRelationship rec s) = true <-> endpointsAllowed s rec.
Proof.
  unfold succeeds, specAddRelationship, endpointsAllowed.
  destruct (getElementById (sourceElementId rec) (elementStore s)) as [src|] eqn:Hs.
  2:{ split; [discriminate | intros (? & ? & ? & ? & _); discriminate]. }
  destruct (getElementById (targetElementId rec) (elementStore s)) as [tgt|] eqn:Ht.
  2:{ split; [discriminate | intros (? & ? & ? & _ & ? & _); discriminate]. }
  destruct (getRelationshipEndpointRule (relationshipType rec)) as [rule|] eqn:Hr.
  2:{ split; [discriminate | intros (? & ? & ? & _ & _ & ? & _); discriminate]. }
  destruct (includes (from rule) (elementType src)) eqn:Hf;
    destruct (includes (to rule) (elementType tgt)) eqn:Hto; cbn.
  - split; [intros _; exists src, tgt, rule; auto | reflexivity].
  - split; [discriminate|]. intros (? & ? & ? & ? & ? & ? & ? & ?). congruence.
  - split; [discriminate|]. intros (? & ? & ? & ? & ? & ? & ? & ?). congruence.
  - split; [discriminate|]. intros (? & ? & ? & ? & ? & ? & ? & ?). congruence.
Qed.

(** C2. [addRelationship] succeeds exactly when both endpoint ids resolve
    in the Element Store and the resolved source and target element types
    are in the allowed sets of the rule for the relationship type.  In
    particular DEPENDS_ON from an Application to an Application succeeds
    and DEPENDS_ON from an Application to a Technology fails with
    EndpointTypeMismatch. *)
Theorem addRelationship_succeeds_iff_endpoints_allowed
    (s : SpecRelationshipStore) (rec : RelationshipRecord) :
  (succeeds (specAddRelationship rec s) = true <-> endpointsAllowed s rec)
  /\ (forall src tgt,
        getElementById (sourceElementId rec) (elementStore s) = Some src ->
        getElementById (targetElementId rec) (elementStore s) = Some tgt ->
        Js.trim (relationshipType rec) = "DEPENDS_ON" ->
        elementType src = "Application" ->
        (elementType tgt = "Application" ->
           fst (specAddRelationship rec s) = inr (rid rec))
        /\ (elementType tgt = "Technology" ->
           fst (specAddRelationship rec s)
           = inl (EndpointTypeMismatch (relationshipType rec)
                    (sourceElementId rec) (targetElementId rec)))).
Proof.
  split; [apply specAddRelationship_succeeds_iff|].
  intros src tgt Hs Ht Hty Hsrc. unfold specAddRelationship.
  rewrite Hs, Ht. unfold getRelationshipEndpointRule. rewrite Hty, Hsrc.
  split; intros ->; reflexivity.
Qed.

End RelRepoFacts.

(** ** The governance debt aggregator *)

Section StoreInvariants.
Import ArchRepo.

Lemma in_set_inv {V} (m : Js.Map V) k v k0 v0 :
  In (k0, v0) (Js.set k v m) -> (k0, v0) = (k, v) \/ In (k0, v0) m.
Proof.
  induction m as [|[k' v'] m IH]; cbn.
  - intros [H|[]]. left. now symmetry.
  - destruct (String.eqb k k'); cbn; intros [H|H]; auto;
      try (left; now symmetry); destruct (IH H); auto.
Qed.

Lemma get_Some_In {V} (m : Js.Map V) k v : Js.get k m = Some v -> In (k, v) m.
Proof.
  induction m as [|[k' v'] m IH]; cbn; [discriminate|].
  destruct (String.eqb_spec k k') as [->|_]; [intros [= ->]; auto | auto].
Qed.

Lemma addElement_keyed c e r : keyed r -> keyed (snd (addElement c e r)).
Proof.
  intros Hinv. destruct (addElement_cases c e r) as [[_ ->]|(_ & _ & ->)]; [exact Hinv|].
  cbn [snd]. intros c0 k e0. rewrite collection_setById, collection_setCollection.
  destruct (coll_eq_dec c0 c) as [->|_]; [|apply Hinv].
  intros Hin. apply in_set_inv in Hin as [[= -> ->]|Hin]; [reflexivity|].
  exact (Hinv _ _ _ Hin).
Qed.

Lemma addElement_covered c e r : covered r -> covered (snd (addElement c e r)).
Proof.
  intros Hinv. destruct (addElement_cases c e r) as [[_ ->]|(Hfresh & _ & ->)]; [exact Hinv|].
  cbn [snd]. intros k e0. cbn [byId setById].
  destruct (String.string_dec (id e) k) as [<-|Hk].
  - rewrite get_set_eq. intros [= <-]. exists c.
    rewrite collection_setById, collection_setCollection.
    destruct (coll_eq_dec c c); [apply get_set_eq | contradiction].
  - rewrite get_set_ne by assumption. intros Hget.
    destruct (Hinv _ _ Hget) as [c0 Hc0]. exists c0.
    rewrite collection_setById, collection_setCollection.
    destruct (coll_eq_dec c0 c) as [->|_]; [|exact Hc0].
    now rewrite get_set_ne.
Qed.

Lemma reachable_keyed r : reachable r -> keyed r.
Proof.
  induction 1 as [|c e r _ IH]; [intros [] k e [] | now apply addElement_keyed].
Qed.

Lemma reachable_covered r : reachable r -> covered r.
Proof.
  induction 1 as [|c e r _ IH]; [intros k e; discriminate | now apply addElement_covered].
Qed.

End StoreInvariants.

Section GovernanceFacts.
Import Json ArchRepo RelRepo Ea Governance.
Context {api : RelationshipRepositoryApi} {validators : Validators api}.

Lemma objectLoop_reachable lifecycleCoverage now objs acc :
  reachable (fst acc) ->
  reachable (fst (fold_left (objectStep lifecycleCoverage now) objs acc)).
Proof.
  revert acc. induction objs as [|obj objs IH]; intros [repo missing] Hacc; [exact Hacc|].
  cbn [fold_left]. apply IH. unfold objectStep.
  destruct (projectObject now obj) as [[c element]|]; cbn [fst] in *;
    [apply reachable_add|]; exact Hacc.
Qed.

Lemma typedStoreOf_reachable eaRepository now lifecycleCoverage :
  reachable (typedStoreOf eaRepository now lifecycleCoverage).
Proof. apply objectLoop_reachable, reachable_empty. Qed.

Lemma in_values_inv {V} (m : Js.Map V) v : In v (Js.values m) <-> exists k, In (k, v) m.
Proof.
  unfold Js.values. rewrite in_map_iff. split.
  - intros [[k v'] [Heq Hin]]. cbn in Heq. subst. eauto.
  - intros [k Hin]. exists (k, v). auto.
Qed.

Lemma in_typed_elements r e :
  In e (getElementsByType capabilities r ++ getElementsByType businessProcesses r
        ++ getElementsByType applications r ++ getElementsByType technologies r
        ++ getElementsByType programmes r)
  <-> exists c, In e (Js.values (collection c r)).
Proof.
  rewrite !in_app_iff. unfold getElementsByType. split.
  - intros [H|[H|[H|[H|H]]]]; eauto.
  - intros [[] H]; cbn in H; auto.
Qed.

(** [supportedElementIds.has(x)] holds exactly for the non-empty ids
    that resolve in the typed store. *)
Lemma supported_iff_resolves r x :
  reachable r ->
  supported (supportedIdsOf r) x = true
  <-> x <> EmptyString /\ is_Some (getElementById x r).
Proof.
  intros Hreach. unfold supported, supportedIdsOf.
  rewrite existsb_exists. setoid_rewrite filter_In. split.
  - intros [y [[Hin Hne] Heq]]. apply String.eqb_eq in Heq. subst y.
    apply negb_true_iff in Hne. split.
    { intros ->. discriminate. }
    apply in_map_iff in Hin as [e [Hid Hin]].
    apply in_typed_elements in Hin as [c Hin].
    apply in_values_inv in Hin as [k Hin].
    pose proof (reachable_keyed r Hreach _ _ _ Hin) as Hk.
    assert (In k (Js.keys (collection c r))) as Hkeys
      by (unfold Js.keys; apply in_map_iff; exists (k, e); auto).
    apply in_keys_get in Hkeys as [e' He'].
    apply (reachable_indexed r Hreach) in He'.
    exists e'. unfold getElementById. congruence.
  - intros [Hne [e He]]. exists x. split; [split|apply String.eqb_refl].
    + destruct (reachable_covered r Hreach _ _ He) as [c Hc].
      apply get_Some_In in Hc.
      apply in_map_iff. exists e. split.
      * exact (reachable_keyed r Hreach _ _ _ Hc).
      * apply in_typed_elements. exists c. apply in_values_inv. eauto.
    + apply negb_true_iff. now apply String.eqb_neq.
Qed.

Lemma unsupported_unresolved r x :
  reachable r -> x <> EmptyString ->
  supported (supportedIdsOf r) x = false -> getElementById x r = None.
Proof.
  intros Hreach Hne Hsup.
  destruct (getElementById x r) as [e|] eqn:Hg; [|reflexivity].
  assert (supported (supportedIdsOf r) x = true) as Habs
    by (apply supported_iff_resolves; [assumption|split; [assumption|eauto]]).
  congruence.
Qed.

Lemma projectRelationship_None_iff eaRepository r now i rel :
  reachable r ->
  projectRelationship eaRepository (supportedIdsOf r) now i rel = None
  <-> endpointUnusable r (EaRelationship.fromId rel)
      \/ endpointUnusable r (EaRelationship.toId rel).
Proof.
  intros Hreach. unfold projectRelationship, endpointUnusable.
  set (a := Js.trim (EaRelationship.fromId rel)).
  set (b := Js.trim (EaRelationship.toId rel)).
  destruct (String.eqb_spec a EmptyString) as [Ha0|Ha0]; cbn [orb]; [tauto|].
  destruct (String.eqb_spec b EmptyString) as [Hb0|Hb0]; cbn [orb]; [tauto|].
  destruct (supported (supportedIdsOf r) a) eqn:Hsa; cbn [negb orb].
  2:{ pose proof (unsupported_unresolved r a Hreach Ha0 Hsa). tauto. }
  destruct (supported (supportedIdsOf r) b) eqn:Hsb; cbn [negb orb].
  2:{ pose proof (unsupported_unresolved r b Hreach Hb0 Hsb). tauto. }
  apply supported_iff_resolves in Hsa as [_ [ea Hea]]; [|assumption].
  apply supported_iff_resolves in Hsb as [_ [eb Heb]]; [|assumption].
  split; [discriminate|]. intros [[?|?]|[?|?]]; congruence.
Qed.

Lemma projectRelationship_Some_endpoints eaRepository ids now i rel rec :
  projectRelationship eaRepository ids now i rel = Some rec ->
  sourceElementId rec = Js.trim (EaRelationship.fromId rel)
  /\ targetElementId rec = Js.trim (EaRelationship.toId rel).
Proof.
  unfold projectRelationship.
  destruct (_ || _); [discriminate|]. destruct (_ || _); [discriminate|].
  intros [= <-]. split; reflexivity.
Qed.

Lemma relationshipLoop_attempted eaRepository ids now i rels acc :
  relationshipLoop eaRepository ids now i rels acc
  = insertAll (attemptedRecords eaRepository ids now i rels) acc.
Proof.
  revert i acc. induction rels as [|rel rest IH]; intros i acc; [reflexivity|].
  cbn [relationshipLoop attemptedRecords].
  destruct (projectRelationship eaRepository ids now i rel) as [rec|]; rewrite IH; reflexivity.
Qed.

(** C9. In the relationship loop of [buildGovernanceDebt] a typed
    insertion is attempted exactly when both trimmed endpoint ids are
    non-blank and resolve in the typed Element Store.  A relationship
    with a blank or unresolved endpoint is skipped: its loop turn leaves
    the relationship store and the list of failed insertions as they
    were, so the list [invalidRelationshipInserts] and the relationship
    store that the validators scan are built from the attempted records
    alone. *)
Theorem relationship_projection_skips_unresolved
    (eaRepository : EaRepository) (now : string) (lifecycleCoverage : option string) :
  let repo := typedStoreOf eaRepository now lifecycleCoverage in
  let ids := supportedIdsOf repo in
  (forall i rel,
      projectRelationship eaRepository ids now i rel = None
      <-> endpointUnusable repo (EaRelationship.fromId rel)
          \/ endpointUnusable repo (EaRelationship.toId rel))
  /\ (forall i rel rec,
        projectRelationship eaRepository ids now i rel = Some rec ->
        is_Some (getElementById (sourceElementId rec) repo)
        /\ is_Some (getElementById (targetElementId rec) repo))
  /\ (forall i rel rest acc,
        endpointUnusable repo (EaRelationship.fromId rel)
        \/ endpointUnusable repo (EaRelationship.toId rel) ->
        relationshipLoop eaRepository ids now i (rel :: rest) acc
        = relationshipLoop eaRepository ids now (S i) rest acc)
  /\ (let attempted :=
        attemptedRecords eaRepository ids now 0 (relationships eaRepository) in
      let result := insertAll attempted (createRelationshipRepository repo, []) in
      let debt := buildGovernanceDebt eaRepository now lifecycleCoverage in
      invalidRelationshipInserts debt = snd result
      /\ relationshipReport debt = validateRelationshipRepository repo (fst result) now
      /\ repoReport debt = validateArchitectureRepository repo now).
Proof.
  intros repo ids.
  pose proof (typedStoreOf_reachable eaRepository now lifecycleCoverage) as Hreach.
  fold repo in Hreach.
  split; [|split; [|split]].
  - intros i rel. now apply projectRelationship_None_iff.
  - intros i rel rec Hsome.
    destruct (projectRelationship_Some_endpoints _ _ _ _ _ _ Hsome) as [-> ->].
    pose proof (projectRelationship_None_iff eaRepository repo now i rel Hreach) as Hnone.
    fold ids in Hnone. unfold endpointUnusable in Hnone.
    split.
    + destruct (getElementById (Js.trim (EaRelationship.fromId rel)) repo) eqn:Hg; [eauto|].
      destruct Hnone as [_ Hnone]. rewrite Hnone in Hsome; [discriminate|auto].
    + destruct (getElementById (Js.trim (EaRelationship.toId rel)) repo) eqn:Hg; [eauto|].
      destruct Hnone as [_ Hnone]. rewrite Hnone in Hsome; [discriminate|auto].
  - intros i rel rest acc Hbad.
    apply (projectRelationship_None_iff eaRepository repo now i rel Hreach) in Hbad.
    fold ids in Hbad. cbn [relationshipLoop]. now rewrite Hbad.
  - cbn zeta. unfold buildGovernanceDebt. subst ids repo. unfold typedStoreOf.
    destruct (fold_left _ _ _) as [repo missing]. cbn [fst].
    rewrite relationshipLoop_attempted.
    destruct (insertAll _ _) as [store failures]. cbn. auto.
Qed.

End GovernanceFacts.

(** ** The governance gate *)

Section GateFacts.
Import Json ArchRepo RelRepo Ea Governance Metadata Provider.
Context {platform : Platform}.
Context {api : RelationshipRepositoryApi} {validators : Validators api}.

Lemma buildGovernanceDebt_total repo now coverage :
  let s := summary (buildGovernanceDebt repo now coverage) in
  total s = mandatoryFindingCount s + relationshipErrorCount s
            + relationshipWarningCount s + invalidRelationshipInsertCount s
            + lifecycleTagMissingCount s.
Proof.
  unfold buildGovernanceDebt.
  destruct (fold_left _ _ _) as [typed missing].
  destruct (relationshipLoop _ _ _ _ _ _) as [store failures]. reflexivity.
Qed.

Lemma blocked_true_iff s :
  blocked s = true
  <-> 0 < mandatoryFindingCount s \/ 0 < relationshipErrorCount s
      \/ 0 < invalidRelationshipInsertCount s \/ 0 < lifecycleTagMissingCount s.
Proof.
  unfold blocked. rewrite !orb_true_iff, !Nat.ltb_lt. tauto.
Qed.

Lemma persisted_app l1 l2 : persisted (l1 ++ l2) = persisted l1 || persisted l2.
Proof. unfold persisted. apply existsb_app. Qed.

Lemma strictGate_not_persisted meta debt st :
  persisted (snd (fst (strictGate meta debt st))) = false.
Proof.
  unfold strictGate.
  destruct (blocked _); [destruct (keyDiffers _ _)|destruct (keySet _)]; cbn;
    try reflexivity; destruct (saveBlockedModal st); reflexivity.
Qed.

Lemma strictGate_returns meta debt st :
  snd (strictGate meta debt st) = blocked (summary debt).
Proof.
  unfold strictGate.
  destruct (blocked _); [destruct (keyDiffers _ _)|destruct (keySet _)]; reflexivity.
Qed.

Lemma strictGate_unblocked_key meta debt st :
  blocked (summary debt) = false ->
  lastSaveBlockedKey (fst (fst (strictGate meta debt st))) = None
  \/ lastSaveBlockedKey (fst (fst (strictGate meta debt st))) = Some EmptyString.
Proof.
  unfold strictGate. intros ->.
  destruct (keySet (lastSaveBlockedKey st)) eqn:Hk; cbn; [now left|].
  unfold keySet in Hk. destruct (lastSaveBlockedKey st) as [k|]; [|now left].
  right. apply negb_false_iff, String.eqb_eq in Hk. now subst.
Qed.

(** The effect in Strict mode, with the mode tests resolved. *)
Lemma settle_strict_eq updatedAt asOf st repo meta :
  eaRepository st = Some repo -> metadata st = Some meta ->
  governanceMode meta = "Strict" ->
  settle updatedAt asOf st
  = let next := snapshot repo meta updatedAt in
    let debt := buildGovernanceDebt repo asOf (lifecycleCoverage meta) in
    let gate := strictGate meta debt (trackHistory next st) in
    if snd gate then fst gate
    else (fst (fst gate), snd (fst gate) ++ [StorageSetItem next]).
Proof.
  intros Hrepo Hmeta Hmode. unfold settle. rewrite Hrepo, Hmeta, Hmode.
  rewrite String.eqb_refl.
  change (String.eqb "Strict" "Advisory") with false. cbv beta iota zeta.
  destruct (strictGate _ _ _) as [[st2 events2] [|]]; reflexivity.
Qed.

(** In Strict mode the effect reaches [localStorage.setItem] exactly
    when the Strict condition does not hold. *)
Lemma settle_strict_persisted updatedAt asOf st repo meta :
  eaRepository st = Some repo -> metadata st = Some meta ->
  governanceMode meta = "Strict" ->
  persisted (snd (settle updatedAt asOf st))
  = negb (blocked (summary (buildGovernanceDebt repo asOf (lifecycleCoverage meta)))).
Proof.
  intros Hrepo Hmeta Hmode.
  rewrite (settle_strict_eq _ _ _ _ _ Hrepo Hmeta Hmode). cbv zeta.
  set (debt := buildGovernanceDebt repo asOf (lifecycleCoverage meta)).
  set (gate := strictGate meta debt _).
  pose proof (strictGate_returns meta debt (trackHistory (snapshot repo meta updatedAt) st))
    as Hret.
  pose proof (strictGate_not_persisted meta debt
                (trackHistory (snapshot repo meta updatedAt) st)) as Hnp.
  fold gate in Hret, Hnp. rewrite Hret.
  destruct (blocked (summary debt)); cbn [negb snd]; [exact Hnp|].
  rewrite persisted_app, Hnp. reflexivity.
Qed.

(** C1, as the code has it.  In Strict mode every settle recomputes the
    debt, whose total is the sum of the five counts, and withholds
    persistence exactly when one of the four blocking counts (mandatory
    findings, relationship errors, invalid relationship inserts, missing
    lifecycle tags) is positive; relationship warnings add to the total
    but do not block.  Hence a withheld save has a positive total, and a
    settle whose total is zero persists and leaves the gate unblocked. *)
Theorem strict_gate_blocks_on_blocking_counts
    (updatedAt asOf : string) (st : State)
    (repo : EaRepository) (meta : EaRepositoryMetadata) :
  eaRepository st = Some repo -> metadata st = Some meta ->
  governanceMode meta = "Strict" ->
  let s := summary (buildGovernanceDebt repo asOf (lifecycleCoverage meta)) in
  let st' := fst (settle updatedAt asOf st) in
  let events := snd (settle updatedAt asOf st) in
  total s = mandatoryFindingCount s + relationshipErrorCount s
            + relationshipWarningCount s + invalidRelationshipInsertCount s
            + lifecycleTagMissingCount s
  /\ (persisted events = false
      <-> 0 < mandatoryFindingCount s \/ 0 < relationshipErrorCount s
          \/ 0 < invalidRelationshipInsertCount s \/ 0 < lifecycleTagMissingCount s)
  /\ (persisted events = false -> 0 < total s)
  /\ (total s = 0 ->
      persisted events = true /\ keySet (lastSaveBlockedKey st') = false).
Proof.
  intros Hrepo Hmeta Hmode s st' events. subst st' events.
  pose proof (settle_strict_persisted updatedAt asOf st repo meta Hrepo Hmeta Hmode) as Hp.
  pose proof (buildGovernanceDebt_total repo asOf (lifecycleCoverage meta)) as Htot.
  cbn zeta in Htot. fold s in Hp, Htot.
  assert (keySet (lastSaveBlockedKey (fst (settle updatedAt asOf st))) = false
          \/ blocked s = true) as Hkey.
  { rewrite (settle_strict_eq _ _ _ _ _ Hrepo Hmeta Hmode). cbv zeta.
    set (debt := buildGovernanceDebt repo asOf (lifecycleCoverage meta)).
    set (st1 := trackHistory _ st).
    pose proof (strictGate_returns meta debt st1) as Hret.
    destruct (blocked s) eqn:Hb; [now right|left].
    pose proof (strictGate_unblocked_key meta debt st1 Hb) as Hk.
    change (summary debt) with s in Hret. rewrite Hb in Hret. rewrite Hret. cbn [fst].
    destruct Hk as [-> | ->]; reflexivity. }
  pose proof (blocked_true_iff s) as Hb.
  split; [exact Htot|]. split; [|split].
  - rewrite Hp, negb_false_iff. exact Hb.
  - rewrite Hp, negb_false_iff, Hb. lia.
  - intros Hzero.
    assert (blocked s = false) as Hnb.
    { clear Hb. destruct (blocked s) eqn:E; [|reflexivity].
      apply blocked_true_iff in E. lia. }
    split; [now rewrite Hp, Hnb|].
    destruct Hkey as [Hk|Hk]; [exact Hk | congruence].
Qed.

End GateFacts.

(** ** The debt fingerprint *)

Section FingerprintFacts.
Import Governance Provider.

Lemma pretty_N_go_freeOf (x : N) (s : string) :
  Js.freeOf bar s -> Js.freeOf bar (pretty_N_go x s).
Proof.
  revert s. induction (N.lt_wf_0 x) as [x _ IH]; intros s Hs.
  assert (x = 0 \/ 0 < x)%N as [->|Hpos] by lia.
  - now rewrite pretty_N_go_0.
  - rewrite pretty_N_go_step by assumption. apply IH.
    + now apply N.div_lt.
    + split; [|assumption]. unfold pretty_N_char, bar.
      repeat case_match; discriminate.
Qed.

Lemma pretty_nat_freeOf (n : nat) : Js.freeOf bar (pretty n).
Proof.
  unfold pretty, pretty_nat, pretty, pretty_N.
  case_decide; [cbn; split; [discriminate|exact I]|].
  apply pretty_N_go_freeOf. exact I.
Qed.

(** Two texts that agree after a separator-free prefix and the
    separator have the same prefix and the same remainder. *)
Lemma split_at_bar (a b x y : string) :
  Js.freeOf bar a -> Js.freeOf bar b ->
  a +:+ String bar x = b +:+ String bar y -> a = b /\ x = y.
Proof.
  revert b. induction a as [|c a IH]; intros [|d b] Ha Hb; cbn; intros Heq.
  - injection Heq as ->. split; reflexivity.
  - injection Heq as Hc _. destruct Hb as [Hd _]. congruence.
  - injection Heq as Hc _. destruct Ha as [Hc' _]. congruence.
  - injection Heq as -> Heq. destruct Ha as [_ Ha], Hb as [_ Hb].
    destruct (IH b Ha Hb Heq) as [-> ->]. split; reflexivity.
Qed.

Lemma debtKey_inj (s s' : GovernanceDebtSummary) :
  debtKey s = debtKey s' -> fingerprint s = fingerprint s'.
Proof.
  unfold debtKey, fingerprint.
  cbn [String.append]. fold bar. intros H.
  apply split_at_bar in H as [H1 H]; try apply pretty_nat_freeOf.
  apply split_at_bar in H as [H2 H]; try apply pretty_nat_freeOf.
  apply split_at_bar in H as [H3 H]; try apply pretty_nat_freeOf.
  apply split_at_bar in H as [H4 H5]; try apply pretty_nat_freeOf.
  apply pretty_nat_inj in H1, H2, H3, H4, H5. congruence.
Qed.

Lemma debtKey_of_fingerprint (s s' : GovernanceDebtSummary) :
  fingerprint s = fingerprint s' -> debtKey s = debtKey s'.
Proof. unfold fingerprint, debtKey. intros [= -> -> -> -> ->]. reflexivity. Qed.

End FingerprintFacts.

(** ** The Advisory gate *)

Section AdvisoryFacts.
Import Json ArchRepo RelRepo Ea Governance Metadata Provider.
Context {platform : Platform}.
Context {api : RelationshipRepositoryApi} {validators : Validators api}.

Lemma countLog_app type l1 l2 :
  countLog type (l1 ++ l2) = countLog type l1 + countLog type l2.
Proof. unfold countLog. now rewrite List.filter_app, List.length_app. Qed.

Lemma countPersisted_app l1 l2 :
  countPersisted (l1 ++ l2) = countPersisted l1 + countPersisted l2.
Proof. unfold countPersisted. now rewrite List.filter_app, List.length_app. Qed.

(** The effect in Advisory mode, with the mode tests resolved. *)
Lemma settle_advisory_eq updatedAt asOf st repo meta :
  eaRepository st = Some repo -> metadata st = Some meta ->
  governanceMode meta = "Advisory" ->
  settle updatedAt asOf st
  = let next := snapshot repo meta updatedAt in
    let debt := buildGovernanceDebt repo asOf (lifecycleCoverage meta) in
    let gate := advisoryGate meta debt (trackHistory next st) in
    (fst gate, snd gate ++ [StorageSetItem next]).
Proof.
  intros Hrepo Hmeta Hmode. unfold settle. rewrite Hrepo, Hmeta, Hmode.
  rewrite String.eqb_refl.
  change (String.eqb "Advisory" "Strict") with false. cbv beta iota zeta.
  cbn [orb app]. destruct (advisoryGate _ _ _) as [st3 events3]. reflexivity.
Qed.

(** What the Advisory branch does to the trace and to the last warned key. *)
Lemma advisoryGate_spec meta debt st :
  let s := summary debt in
  let fires := Nat.ltb 0 (total s) && keyDiffers (lastAdvisoryWarnKey st) (debtKey s) in
  countLog "save.warned" (snd (advisoryGate meta debt st)) = (if fires then 1 else 0)
  /\ countPersisted (snd (advisoryGate meta debt st)) = 0
  /\ metadata (fst (advisoryGate meta debt st)) = metadata st
  /\ lastAdvisoryWarnKey (fst (advisoryGate meta debt st))
     = if Nat.ltb 0 (total s) then Some (debtKey s) else None.
Proof.
  cbv zeta. unfold advisoryGate.
  destruct (Nat.ltb_spec 0 (total (summary debt))) as [Hpos|Hzero]; cbn [andb].
  - assert (Nat.eqb (total (summary debt)) 0 = false) as -> by (apply Nat.eqb_neq; lia).
    destruct (keyDiffers _ _) eqn:Hk; cbn; [auto|].
    repeat split. unfold keyDiffers in Hk.
    destruct (lastAdvisoryWarnKey st) as [k|]; [|discriminate].
    apply negb_false_iff, String.eqb_eq in Hk. now subst.
  - assert (Nat.eqb (total (summary debt)) 0 = true) as -> by (apply Nat.eqb_eq; lia).
    cbn. auto.
Qed.

Lemma trackHistory_keeps next st :
  metadata (trackHistory next st) = metadata st
  /\ eaRepository (trackHistory next st) = eaRepository st
  /\ lastAdvisoryWarnKey (trackHistory next st) = lastAdvisoryWarnKey st
  /\ lastSaveBlockedKey (trackHistory next st) = lastSaveBlockedKey st.
Proof.
  unfold trackHistory. destruct (suppressHistory st); cbn; [auto|].
  destruct (lastSerialized st) as [prev|]; [|cbn; auto].
  destruct (Raw_eq_dec prev next); cbn; auto.
Qed.

Lemma fires_iff_changed prev s :
  match prev with Some p => summed p | None => True end -> summed s ->
  Nat.ltb 0 (total s) && keyDiffers (warnedAfter prev) (debtKey s)
  = Nat.ltb 0 (total s) && fingerprintChanged prev s.
Proof.
  intros Hp Hs. destruct (Nat.ltb_spec 0 (total s)) as [Hpos|_]; [cbn [andb]|reflexivity].
  destruct prev as [p|]; [|reflexivity]. cbn [warnedAfter fingerprintChanged].
  destruct (Fingerprint_eq_dec (fingerprint p) (fingerprint s)) as [Heq|Hne].
  - assert (total p = total s) as Htot.
    { unfold summed in *. unfold fingerprint in Heq. injection Heq as ? ? ? ? ?. lia. }
    assert (Nat.ltb 0 (total p) = true) as -> by (apply Nat.ltb_lt; lia).
    cbn [keyDiffers]. rewrite (debtKey_of_fingerprint _ _ Heq), String.eqb_refl. reflexivity.
  - destruct (Nat.ltb 0 (total p)); [|reflexivity]. cbn [keyDiffers].
    destruct (String.eqb_spec (debtKey p) (debtKey s)) as [Hk|_]; [|reflexivity].
    apply debtKey_inj in Hk. contradiction.
Qed.

Lemma commits_advisory meta edits : forall st prev,
  metadata st = Some meta -> governanceMode meta = "Advisory" ->
  lastAdvisoryWarnKey st = warnedAfter prev ->
  match prev with Some p => summed p | None => True end ->
  let debts :=
    List.map (fun e => summary (buildGovernanceDebt (editRepo e) (editAsOf e)
                                  (lifecycleCoverage meta))) edits in
  countLog "save.warned" (snd (commits edits st)) = specWarnedEntries prev debts
  /\ countPersisted (snd (commits edits st)) = length edits.
Proof.
  induction edits as [|e rest IH]; intros st prev Hmeta Hmode Hkey Hprev; [split; reflexivity|].
  cbn [commits List.map specWarnedEntries length]. unfold commit.
  set (st0 := setEaRepositoryUnsafe (Some (editRepo e)) st).
  assert (eaRepository st0 = Some (editRepo e)) as Hrepo0 by reflexivity.
  assert (metadata st0 = Some meta) as Hmeta0 by exact Hmeta.
  rewrite (settle_advisory_eq _ _ _ _ _ Hrepo0 Hmeta0 Hmode). cbv zeta.
  set (debt := buildGovernanceDebt (editRepo e) (editAsOf e) (lifecycleCoverage meta)).
  set (st1 := trackHistory _ st0).
  destruct (trackHistory_keeps (snapshot (editRepo e) meta (editUpdatedAt e)) st0)
    as (Hm1 & _ & Hk1 & _). fold st1 in Hm1, Hk1.
  destruct (advisoryGate_spec meta debt st1) as (Hlog & Hper & Hm2 & Hk2).
  cbv zeta in Hlog, Hk2.
  assert (summed (summary debt)) as Hsum
    by apply (buildGovernanceDebt_total (editRepo e) (editAsOf e) (lifecycleCoverage meta)).
  specialize (IH (fst (advisoryGate meta debt st1)) (Some (summary debt))).
  destruct IH as [IHlog IHper].
  { now rewrite Hm2, Hm1. }
  { exact Hmode. }
  { exact Hk2. }
  { exact Hsum. }
  cbv zeta in IHlog, IHper.
  destruct (commits rest (fst (advisoryGate meta debt st1))) as [st2 events2].
  cbn [fst snd] in *.
  rewrite !countLog_app, !countPersisted_app, Hlog, Hper, IHlog, IHper.
  rewrite Hk1. change (lastAdvisoryWarnKey st0) with (lastAdvisoryWarnKey st).
  rewrite Hkey, (fires_iff_changed prev (summary debt) Hprev Hsum).
  split; [|cbn; lia].
  unfold countLog at 1. cbn. lia.
Qed.

Lemma specWarnedEntries_unchanged p run :
  Forall (fun d => fingerprint d = fingerprint p) run ->
  specWarnedEntries (Some p) run = 0.
Proof.
  revert p. induction run as [|d rest IH]; intros p Hall; [reflexivity|].
  inversion Hall as [|? ? Hd Hrest]; subst. cbn [specWarnedEntries fingerprintChanged].
  destruct (Fingerprint_eq_dec (fingerprint p) (fingerprint d)) as [_|Hne];
    [|now symmetry in Hd].
  rewrite andb_false_r. cbn. apply IH.
  eapply Forall_impl; [exact Hrest|]. cbn. intros a Ha. congruence.
Qed.

Lemma specWarnedEntries_snoc prev run s :
  specWarnedEntries prev (run ++ [s])
  = specWarnedEntries prev run
    + (if Nat.ltb 0 (total s) && fingerprintChanged (lastSummary prev run) s
       then 1 else 0).
Proof.
  revert prev. induction run as [|d rest IH]; intros prev.
  - cbn. lia.
  - cbn [app specWarnedEntries]. rewrite IH.
    replace (lastSummary (Some d) rest) with (lastSummary prev (d :: rest)); [lia|].
    unfold lastSummary. destruct rest as [|d' rest']; [reflexivity|].
    change (list.last (d :: d' :: rest')) with (list.last (d' :: rest')).
    destruct (list.last (d' :: rest')) eqn:Hl; [reflexivity|].
    apply last_None in Hl. discriminate.
Qed.

(** C8, as the code has it.  In Advisory mode, over any run of settles
    of a provider that has not warned yet, the number of [save.warned]
    audit entries is the number of settles with positive total whose
    fingerprint differs from that of the settle before: settles that
    repeat one fingerprint add no further entry, a settle with a changed
    fingerprint adds exactly one more, also when that fingerprint was
    seen earlier in the run.  Every settle writes the snapshot to
    storage, whatever the debt. *)
Theorem advisory_warns_once_per_fingerprint_change
    (st : State) (meta : EaRepositoryMetadata) (edits : list Edit) :
  metadata st = Some meta -> governanceMode meta = "Advisory" ->
  lastAdvisoryWarnKey st = None ->
  let debtOf := fun e =>
    summary (buildGovernanceDebt (editRepo e) (editAsOf e) (lifecycleCoverage meta)) in
  let warned := fun run => countLog "save.warned" (snd (commits run st)) in
  warned edits = specWarnedEntries None (List.map debtOf edits)
  /\ countPersisted (snd (commits edits st)) = length edits
  /\ (forall e rest,
        edits = e :: rest -> 0 < total (debtOf e) ->
        Forall (fun d => fingerprint d = fingerprint (debtOf e)) (List.map debtOf rest) ->
        warned edits = 1)
  /\ (forall e,
        warned (edits ++ [e])
        = warned edits
          + (if Nat.ltb 0 (total (debtOf e))
                && fingerprintChanged (lastSummary None (List.map debtOf edits)) (debtOf e)
             then 1 else 0)).
Proof.
  intros Hmeta Hmode Hkey debtOf warned.
  assert (forall run, warned run = specWarnedEntries None (List.map debtOf run)) as Hrun.
  { intros run. exact (proj1 (commits_advisory meta run st None Hmeta Hmode Hkey I)). }
  split; [apply Hrun|]. split; [|split].
  - exact (proj2 (commits_advisory meta edits st None Hmeta Hmode Hkey I)).
  - intros e rest -> Hpos Hall. rewrite Hrun. cbn [List.map specWarnedEntries].
    rewrite (specWarnedEntries_unchanged _ _ Hall).
    assert (Nat.ltb 0 (total (debtOf e)) = true) as -> by now apply Nat.ltb_lt.
    reflexivity.
  - intros e. rewrite !Hrun, List.map_app. cbn [List.map].
    apply specWarnedEntries_snoc.
Qed.

End AdvisoryFacts.

(** ** Repository history: the bounded stacks *)

Section HistoryBounds.
Import Json ArchRepo RelRepo Ea Governance Metadata Provider.
Context {platform : Platform} {env : Environment}.
Context {api : RelationshipRepositoryApi} {validators : Validators api}.

Lemma length_removelast_le {A} (l : list A) : length (removelast l) <= length l.
Proof.
  induction l as [|x [|y l] IH]; cbn in *; lia.
Qed.

Lemma length_removelast_cons {A} (x : A) (l : list A) :
  length (removelast (x :: l)) = length l.
Proof.
  revert x. induction l as [|y l IH]; intros x; [reflexivity|].
  change (removelast (x :: y :: l)) with (x :: removelast (y :: l)).
  cbn [length]. now rewrite IH.
Qed.

Lemma pushBounded_length (stack : list Raw) x :
  length stack <= HISTORY_LIMIT -> length (pushBounded stack x) <= HISTORY_LIMIT.
Proof.
  unfold pushBounded. intros H.
  destruct (Nat.ltb_spec HISTORY_LIMIT (length (stack ++ [x]))) as [Hgt|Hle]; [|exact Hle].
  rewrite List.length_app in Hgt. cbn in Hgt.
  destruct stack as [|y stack]; cbn in *; [lia|]. rewrite List.length_app. cbn. lia.
Qed.

Lemma unshiftBounded_length (stack : list Raw) x :
  length stack <= HISTORY_LIMIT -> length (unshiftBounded stack x) <= HISTORY_LIMIT.
Proof.
  unfold unshiftBounded. intros H.
  destruct (Nat.ltb_spec HISTORY_LIMIT (length (x :: stack))) as [Hgt|Hle]; [|exact Hle].
  now rewrite length_removelast_cons.
Qed.

(** On overflow the oldest entry goes. *)
Lemma pushBounded_full (stack : list Raw) x :
  length stack = HISTORY_LIMIT -> pushBounded stack x = tl stack ++ [x].
Proof.
  unfold pushBounded. intros H.
  assert (Nat.ltb HISTORY_LIMIT (length (stack ++ [x])) = true) as ->.
  { apply Nat.ltb_lt. rewrite List.length_app. cbn. lia. }
  destruct stack; [discriminate H|reflexivity].
Qed.

Lemma unshiftBounded_full (stack : list Raw) x :
  length stack = HISTORY_LIMIT -> unshiftBounded stack x = x :: removelast stack.
Proof.
  unfold unshiftBounded. intros H.
  assert (Nat.ltb HISTORY_LIMIT (length (x :: stack)) = true) as ->.
  { apply Nat.ltb_lt. cbn. lia. }
  destruct stack; [discriminate H|reflexivity].
Qed.

Lemma pushBounded_room (stack : list Raw) x :
  length stack < HISTORY_LIMIT -> pushBounded stack x = stack ++ [x].
Proof.
  unfold pushBounded. intros H.
  assert (Nat.ltb HISTORY_LIMIT (length (stack ++ [x])) = false) as ->; [|reflexivity].
  apply Nat.ltb_ge. rewrite List.length_app. cbn. lia.
Qed.


Lemma pushBounded_keepLast (stack : list Raw) x :
  length stack <= HISTORY_LIMIT ->
  pushBounded stack x = keepLast HISTORY_LIMIT (stack ++ [x]).
Proof.
  intros H. unfold keepLast. rewrite List.length_app. cbn [length].
  destruct (Nat.eq_dec (length stack) HISTORY_LIMIT) as [Heq|Hne].
  - rewrite (pushBounded_full _ _ Heq), Heq.
    replace (HISTORY_LIMIT + 1 - HISTORY_LIMIT) with 1 by lia.
    destruct stack; [discriminate Heq|reflexivity].
  - rewrite pushBounded_room by lia.
    replace (length stack + 1 - HISTORY_LIMIT) with 0 by lia. reflexivity.
Qed.

Lemma keepLast_absorb {A} n (l extra : list A) :
  keepLast n (keepLast n l ++ extra) = keepLast n (l ++ extra).
Proof.
  unfold keepLast. rewrite !List.length_app, length_drop.
  remember (length l - n) as d eqn:Hd.
  replace (length l + length extra - n) with (d + (length l - d + length extra - n)) by lia.
  rewrite <- drop_drop. rewrite (drop_app_le l extra d) by lia. reflexivity.
Qed.

Lemma keepLast_all {A} n (l : list A) : length l <= n -> keepLast n l = l.
Proof. intros H. unfold keepLast. now replace (length l - n) with 0 by lia. Qed.

(** The gates leave the history fields alone. *)
Lemma strictGate_history meta debt st :
  historyOf (fst (fst (strictGate meta debt st))) = historyOf st.
Proof.
  unfold strictGate.
  destruct (blocked _); [destruct (keyDiffers _ _)|destruct (keySet _)]; reflexivity.
Qed.

Lemma advisoryGate_history meta debt st :
  historyOf (fst (advisoryGate meta debt st)) = historyOf st.
Proof.
  unfold advisoryGate.
  destruct (_ && _); destruct (Nat.eqb _ 0); reflexivity.
Qed.

(** With a repository and metadata at hand, the history fields after the
    effect are those that [trackHistory] leaves, whatever the mode. *)
Lemma settle_history updatedAt asOf st repo meta :
  eaRepository st = Some repo -> metadata st = Some meta ->
  historyOf (fst (settle updatedAt asOf st))
  = historyOf (trackHistory (snapshot repo meta updatedAt) st).
Proof.
  intros Hrepo Hmeta. unfold settle. rewrite Hrepo, Hmeta.
  set (st1 := trackHistory _ st).
  set (debt := buildGovernanceDebt _ _ _).
  destruct (String.eqb (governanceMode meta) "Strict") eqn:Hs; cbn [orb].
  - pose proof (strictGate_history meta debt st1) as Hg.
    destruct (strictGate meta debt st1) as [[st2 events2] returned]. cbn [fst] in Hg.
    destruct returned; [exact Hg|].
    destruct (String.eqb (governanceMode meta) "Advisory").
    + pose proof (advisoryGate_history meta debt st2) as Ha.
      destruct (advisoryGate meta debt st2) as [st3 events3]. cbn [fst] in *. congruence.
    + cbn [fst]. exact Hg.
  - destruct (String.eqb (governanceMode meta) "Advisory"); [|reflexivity].
    pose proof (advisoryGate_history meta debt st1) as Ha.
    destruct (advisoryGate meta debt st1) as [st3 events3]. exact Ha.
Qed.

Lemma settle_history_absent updatedAt asOf st :
  eaRepository st = None \/ metadata st = None ->
  settle updatedAt asOf st
  = (setTracking None (suppressHistory st) st, [StorageRemoveItem]).
Proof.
  unfold settle. intros [H|H]; rewrite H; [reflexivity|].
  destruct (eaRepository st); reflexivity.
Qed.

Lemma withinLimit_of_history st st' :
  undoStack st' = undoStack st -> redoStack st' = redoStack st ->
  withinLimit st -> withinLimit st'.
Proof. unfold withinLimit. intros -> ->. auto. Qed.

Lemma trackHistory_withinLimit next st :
  withinLimit st -> withinLimit (trackHistory next st).
Proof.
  intros [Hu Hr]. unfold trackHistory, withinLimit.
  destruct (suppressHistory st); cbn; [auto|].
  destruct (lastSerialized st) as [prev|]; [|cbn; auto].
  destruct (Raw_eq_dec prev next); cbn; [auto|].
  split; [now apply pushBounded_length | unfold HISTORY_LIMIT; lia].
Qed.

Lemma settle_withinLimit updatedAt asOf st :
  withinLimit st -> withinLimit (fst (settle updatedAt asOf st)).
Proof.
  intros Hlim.
  destruct (eaRepository st) as [repo|] eqn:Hrepo;
    [destruct (metadata st) as [meta|] eqn:Hmeta|].
  - pose proof (settle_history updatedAt asOf st repo meta Hrepo Hmeta) as Hh.
    pose proof (trackHistory_withinLimit (snapshot repo meta updatedAt) st Hlim) as Ht.
    unfold historyOf in Hh. injection Hh as _ _ Hu Hr _ _.
    unfold withinLimit in *. now rewrite Hu, Hr.
  - rewrite settle_history_absent by auto. exact Hlim.
  - rewrite settle_history_absent by auto. exact Hlim.
Qed.

Lemma applySerialized_stacks raw st :
  undoStack (snd (applySerialized raw st)) = undoStack st
  /\ redoStack (snd (applySerialized raw st)) = redoStack st.
Proof.
  unfold applySerialized. destruct (deserializeRaw raw) as [[repo meta]|]; split; reflexivity.
Qed.

Lemma undo_withinLimit st : withinLimit st -> withinLimit (snd (undo st)).
Proof.
  intros [Hu Hr]. unfold undo.
  destruct (list.last (undoStack st)) as [prevRaw|]; [|split; assumption].
  set (undo' := removelast (undoStack st)).
  set (redo' := match lastSerialized st with
                | Some c => unshiftBounded (redoStack st) c
                | None => redoStack st end).
  assert (length undo' <= HISTORY_LIMIT) as Hu'
    by (pose proof (length_removelast_le (undoStack st)); subst undo'; lia).
  assert (length redo' <= HISTORY_LIMIT) as Hr'
    by (subst redo'; destruct (lastSerialized st);
        [now apply unshiftBounded_length | assumption]).
  destruct (applySerialized_stacks prevRaw
              (setHistory undo' redo' (canUndo st) (canRedo st) st)) as [Hsu Hsr].
  destruct (applySerialized prevRaw _) as [[|] st2]; cbn [snd] in *.
  - split; assumption.
  - unfold withinLimit. now rewrite Hsu, Hsr.
Qed.

Lemma redo_withinLimit st : withinLimit st -> withinLimit (snd (redo st)).
Proof.
  intros [Hu Hr]. unfold redo.
  destruct (redoStack st) as [|nextRaw redo'] eqn:Hredo;
    [split; [assumption|cbn; unfold HISTORY_LIMIT; lia]|].
  set (undo' := match lastSerialized st with
                | Some c => pushBounded (undoStack st) c
                | None => undoStack st end).
  assert (length undo' <= HISTORY_LIMIT) as Hu'
    by (subst undo'; destruct (lastSerialized st);
        [now apply pushBounded_length | assumption]).
  assert (length redo' <= HISTORY_LIMIT) as Hr' by (cbn in Hr; lia).
  destruct (applySerialized_stacks nextRaw
              (setHistory undo' redo' (canUndo st) (canRedo st) st)) as [Hsu Hsr].
  destruct (applySerialized nextRaw _) as [[|] st2]; cbn [snd] in *.
  - split; assumption.
  - unfold withinLimit. now rewrite Hsu, Hsr.
Qed.

Lemma setEaRepository_withinLimit next st :
  withinLimit st -> withinLimit (fst (setEaRepository next st)).
Proof.
  intros Hlim. unfold setEaRepository.
  destruct (resolveAction next (eaRepository st)); [|exact Hlim].
  destruct (negb _); [exact Hlim|]. destruct (ScopePolicy.scopeIs _ _); exact Hlim.
Qed.

Lemma roots_withinLimit st :
  (forall text, withinLimit st -> withinLimit (snd (loadRepositoryFromJsonText text st)))
  /\ (forall input now, withinLimit st -> withinLimit (snd (createNewRepository input now st)))
  /\ withinLimit (clearRepository st).
Proof.
  assert (0 <= HISTORY_LIMIT) as H0 by (unfold HISTORY_LIMIT; lia).
  split; [|split].
  - intros text Hlim. unfold loadRepositoryFromJsonText.
    destruct (JSON_parse text); [|exact Hlim].
    destruct (tryDeserializeRepository _) as [?|[repo meta]]; [exact Hlim|].
    split; exact H0.
  - intros input now Hlim. unfold createNewRepository.
    destruct (validateRepositoryMetadata _); [exact Hlim|]. split; exact H0.
  - split; exact H0.
Qed.

Lemma last_default_irrelevant {A} (l : list A) d1 d2 :
  l <> [] -> List.last l d1 = List.last l d2.
Proof.
  induction l as [|x [|y l] IH]; intros Hne; [contradiction|reflexivity|].
  change (List.last (y :: l) d1 = List.last (y :: l) d2). apply IH. discriminate.
Qed.

Lemma trackHistory_change next st s0 :
  suppressHistory st = false -> lastSerialized st = Some s0 -> s0 <> next ->
  historyOf (trackHistory next st)
  = (eaRepository st, metadata st, pushBounded (undoStack st) s0, [], Some next, false).
Proof.
  intros Hs Hl Hne. unfold trackHistory. rewrite Hs, Hl. cbn [negb].
  destruct (Raw_eq_dec s0 next); [contradiction|reflexivity].
Qed.


Lemma commit_history meta e st s0 :
  metadata st = Some meta -> suppressHistory st = false ->
  lastSerialized st = Some s0 -> s0 <> snapshotOfEdit meta e ->
  historyOf (fst (commit e st))
  = (Some (editRepo e), Some meta, pushBounded (undoStack st) s0, [],
     Some (snapshotOfEdit meta e), false).
Proof.
  intros Hmeta Hs Hl Hne. unfold commit, snapshotOfEdit in *.
  set (st0 := setEaRepositoryUnsafe (Some (editRepo e)) st).
  rewrite (settle_history (editUpdatedAt e) (editAsOf e) st0 (editRepo e) meta
             eq_refl Hmeta).
  rewrite (trackHistory_change _ st0 s0 Hs Hl Hne). cbn. now rewrite Hmeta.
Qed.

(** Once the effect has run on a provider that holds a repository and
    its metadata, the provider still holds them, the last serialization
    is their snapshot and history is not suppressed. *)
Lemma settled_record updatedAt asOf st repo meta :
  eaRepository st = Some repo -> metadata st = Some meta ->
  eaRepository (fst (settle updatedAt asOf st)) = Some repo
  /\ metadata (fst (settle updatedAt asOf st)) = Some meta
  /\ lastSerialized (fst (settle updatedAt asOf st)) = Some (snapshot repo meta updatedAt)
  /\ suppressHistory (fst (settle updatedAt asOf st)) = false.
Proof.
  intros Hrepo Hmeta.
  pose proof (settle_history updatedAt asOf st repo meta Hrepo Hmeta) as Hh.
  unfold historyOf in Hh. injection Hh as Hr Hm _ _ Hl Hs.
  destruct (trackHistory_keeps (snapshot repo meta updatedAt) st) as (Hm' & Hr' & _).
  split; [now rewrite Hr, <- Hrepo, <- Hr'|].
  split; [now rewrite Hm, <- Hmeta, <- Hm'|].
  split; assumption.
Qed.

(** The snapshots that a run of edits pushes: the one before the first
    edit and those of all edits but the last. *)
Lemma commits_history meta edits : forall st s0,
  metadata st = Some meta -> suppressHistory st = false ->
  lastSerialized st = Some s0 -> length (undoStack st) <= HISTORY_LIMIT ->
  distinctRun s0 (List.map (snapshotOfEdit meta) edits) ->
  let st' := fst (commits edits st) in
  undoStack st'
  = keepLast HISTORY_LIMIT
      (undoStack st ++ removelast (s0 :: List.map (snapshotOfEdit meta) edits))
  /\ lastSerialized st' = Some (List.last (List.map (snapshotOfEdit meta) edits) s0)
  /\ suppressHistory st' = false
  /\ metadata st' = Some meta
  /\ eaRepository st'
     = match list.last edits with
       | Some e => Some (editRepo e)
       | None => eaRepository st
       end
  /\ redoStack st' = match edits with [] => redoStack st | _ => [] end.
Proof.
  induction edits as [|e rest IH]; intros st s0 Hmeta Hs Hl Hlim Hrun.
  - cbn. rewrite app_nil_r, keepLast_all by assumption. repeat split; auto.
  - cbn [List.map distinctRun] in Hrun. destruct Hrun as [Hne Hrun].
    pose proof (commit_history meta e st s0 Hmeta Hs Hl Hne) as Hc.
    unfold historyOf in Hc. injection Hc as Hrepo1 Hmeta1 Hu1 Hr1 Hl1 Hs1.
    cbn [commits]. destruct (commit e st) as [st1 events1]. cbn [fst] in *.
    specialize (IH st1 (snapshotOfEdit meta e) Hmeta1 Hs1 Hl1).
    rewrite Hu1 in IH. specialize (IH (pushBounded_length _ _ Hlim) Hrun).
    cbv zeta in IH. destruct (commits rest st1) as [st2 events2]. cbn [fst] in *.
    destruct IH as (IHu & IHl & IHs & IHm & IHr & IHredo).
    repeat split; try assumption.
    + rewrite IHu, pushBounded_keepLast by assumption.
      rewrite keepLast_absorb. cbn [List.map].
      change (removelast (s0 :: snapshotOfEdit meta e :: List.map (snapshotOfEdit meta) rest))
        with (s0 :: removelast (snapshotOfEdit meta e :: List.map (snapshotOfEdit meta) rest)).
      now rewrite <- app_assoc.
    + rewrite IHl. cbn [List.map].
      destruct (List.map (snapshotOfEdit meta) rest) as [|r l]; [reflexivity|].
      change (List.last (snapshotOfEdit meta e :: r :: l) s0) with (List.last (r :: l) s0).
      f_equal. apply last_default_irrelevant. discriminate.
    + rewrite IHr. destruct rest as [|e' rest']; [now rewrite Hrepo1|].
      rewrite last_cons_cons. destruct (list.last (e' :: rest')) eqn:Hlast; [reflexivity|].
      apply last_None in Hlast. discriminate.
    + rewrite IHredo. destruct rest; [exact Hr1|reflexivity].
Qed.

Lemma reaches_withinLimit st0 st :
  withinLimit st0 -> reaches st0 st -> withinLimit st.
Proof.
  intros H0. induction 1 as [|st u a _ IH|st _ IH|st _ IH|st next _ IH
                             |st text _ IH|st input now _ IH|st _ IH].
  - exact H0.
  - now apply settle_withinLimit.
  - now apply undo_withinLimit.
  - now apply redo_withinLimit.
  - now apply setEaRepository_withinLimit.
  - now apply (proj1 (roots_withinLimit st)).
  - now apply (proj1 (proj2 (roots_withinLimit st))).
  - exact (proj2 (proj2 (roots_withinLimit st))).
Qed.

(** C7. Neither history stack ever holds more than 50 entries: the
    bound holds in every state that the provider comes to by its
    operations (the persistence effect, committed edits, undo, redo, the
    update boundary and the operations that start a new history root),
    and a push onto a full stack evicts the oldest entry.  After
    60 committed edits that each change the snapshot the undo stack
    holds exactly 50 entries: whatever it held before is gone, and of
    the 60 snapshots that were pushed the oldest 10 are gone. *)
Theorem history_stacks_never_exceed_limit (st : State) :
  withinLimit st ->
  (forall st', reaches st st' -> withinLimit st')
  /\ (forall updatedAt asOf, withinLimit (fst (settle updatedAt asOf st)))
  /\ (forall e, withinLimit (fst (commit e st)))
  /\ withinLimit (snd (undo st))
  /\ withinLimit (snd (redo st))
  /\ (forall next, withinLimit (fst (setEaRepository next st)))
  /\ (forall text, withinLimit (snd (loadRepositoryFromJsonText text st)))
  /\ (forall input now, withinLimit (snd (createNewRepository input now st)))
  /\ withinLimit (clearRepository st)
  /\ (forall (stack : list Raw) x,
        length stack = HISTORY_LIMIT ->
        pushBounded stack x = tl stack ++ [x]
        /\ unshiftBounded stack x = x :: removelast stack)
  /\ (forall meta s0 edits,
        metadata st = Some meta -> suppressHistory st = false ->
        lastSerialized st = Some s0 ->
        length edits = 60 ->
        distinctRun s0 (List.map (snapshotOfEdit meta) edits) ->
        let pushed := removelast (s0 :: List.map (snapshotOfEdit meta) edits) in
        length pushed = 60
        /\ undoStack (fst (commits edits st)) = drop 10 pushed
        /\ length (undoStack (fst (commits edits st))) = 50).
Proof.
  intros Hlim.
  split; [intros st' Hreach; now apply (reaches_withinLimit st)|].
  split; [intros; now apply settle_withinLimit|].
  split; [intros e; unfold commit; now apply settle_withinLimit|].
  split; [now apply undo_withinLimit|].
  split; [now apply redo_withinLimit|].
  split; [intros; now apply setEaRepository_withinLimit|].
  destruct (roots_withinLimit st) as (Hload & Hcreate & Hclear).
  split; [intros; now apply Hload|].
  split; [intros; now apply Hcreate|].
  split; [exact Hclear|].
  split; [intros stack x Hfull; split;
          [now apply pushBounded_full | now apply unshiftBounded_full]|].
  intros meta s0 edits Hmeta Hs Hl Hlen Hrun pushed.
  assert (length pushed = 60) as Hpushed.
  { subst pushed. rewrite length_removelast_cons, List.length_map. exact Hlen. }
  destruct (commits_history meta edits st s0 Hmeta Hs Hl (proj1 Hlim) Hrun) as (Hu & _).
  cbv zeta in Hu. fold pushed in Hu.
  unfold keepLast in Hu. rewrite List.length_app, Hpushed in Hu.
  rewrite drop_app_ge in Hu by (unfold HISTORY_LIMIT; lia).
  replace (length (undoStack st) + 60 - HISTORY_LIMIT - length (undoStack st)) with 10
    in Hu by (unfold HISTORY_LIMIT; lia).
  split; [exact Hpushed|]. split; [exact Hu|].
  rewrite Hu, length_drop, Hpushed. reflexivity.
Qed.

End HistoryBounds.

(** ** The scope check of the update boundary *)

Section ScopeCheckFacts.
Import Json Ea Metadata ScopePolicy Provider.
Context {platform : Platform}.

Lemma in_setOf l : forall seen x, In x (setOf seen l) <-> In x seen \/ In x l.
Proof.
  induction l as [|y l IH]; intros seen x; cbn [setOf].
  - cbn. tauto.
  - destruct (existsb (String.eqb y) seen) eqn:Hseen; rewrite IH; cbn [In].
    + apply existsb_exists in Hseen as [z [Hz Heq]]. apply String.eqb_eq in Heq. subst z.
      split; [tauto|]. intros [H|[<-|H]]; auto.
    + rewrite in_app_iff. cbn [In]. tauto.
Qed.

Lemma touched_is_listed prev next scope k :
  touchesReadOnly prev next scope k ->
  In k (setOf [] (Js.keys (objects prev) ++ Js.keys (objects next))).
Proof.
  unfold touchesReadOnly. intros H. apply in_setOf. right. apply in_app_iff.
  destruct (Js.get k (objects prev)) as [a|] eqn:Ha.
  - left. eapply get_Some_in_keys. exact Ha.
  - destruct (Js.get k (objects next)) as [b|] eqn:Hb; [|contradiction].
    right. eapply get_Some_in_keys. exact Hb.
Qed.

Lemma touched_is_flagged prev next scope k :
  touchesReadOnly prev next scope k -> readOnlyChangeAt prev next scope k = true.
Proof.
  unfold touchesReadOnly, readOnlyChangeAt.
  destruct (Js.get k (objects prev)) as [a|], (Js.get k (objects next)) as [b|];
    cbn [option_map].
  - intros [Hw Hchange].
    assert (negb (isAnyObjectTypeWritableForScope scope (Some (EaObject.type a)))
            || negb (isAnyObjectTypeWritableForScope scope (Some (EaObject.type b))) = true)
      as -> by (destruct Hw as [-> | ->]; [reflexivity | apply orb_true_r]).
    destruct (String.eqb_spec (EaObject.type a) (EaObject.type b)) as [Hty|Hty];
      cbn [negb]; [|reflexivity].
    destruct Hchange as [Hc|Hc]; [contradiction|].
    apply negb_true_iff. now apply String.eqb_neq.
  - intros ->. reflexivity.
  - intros _. reflexivity.
  - contradiction.
Qed.

Lemma scoped_rejects prev next scope :
  isScoped scope = true ->
  (exists k, touchesReadOnly prev next scope k) ->
  hasReadOnlyObjectChanges (Some prev) (Some next) scope = true.
Proof.
  intros Hscoped [k Hk]. unfold hasReadOnlyObjectChanges. rewrite Hscoped. cbn [negb].
  apply existsb_exists. exists k. split.
  - eapply touched_is_listed. exact Hk.
  - now apply touched_is_flagged.
Qed.

(** An update that the scope check lets through is the plain state
    update that a committed edit starts from. *)
Lemma accepted_update_is_plain st next resolved :
  resolveAction next (eaRepository st) = Some resolved ->
  hasReadOnlyObjectChanges (eaRepository st) (Some resolved) (scopeOf (metadata st)) = false ->
  setEaRepository next st = (setEaRepositoryUnsafe (Some resolved) st, []).
Proof.
  intros Hres Hcheck. unfold setEaRepository. rewrite Hres, Hcheck. reflexivity.
Qed.

(** C3, as the code has it.  Under Business Unit or Domain scope, an
    update from an existing repository to another in which some element
    is added, removed, or changed in type or serialized attributes while
    its type is not writable under the scope is rejected: the state is
    left as it was and the read-only message of the scope is shown.
    Under every other scope, Programme included, the update boundary
    does not consult the policy and accepts the update. *)
Theorem scoped_update_rejected_when_read_only_touched
    (st : State) (prev resolved : EaRepository) (next : SetStateAction) :
  eaRepository st = Some prev ->
  resolveAction next (Some prev) = Some resolved ->
  let scope := scopeOf (metadata st) in
  ((scope = Some "Business Unit" \/ scope = Some "Domain") ->
   (exists k, touchesReadOnly prev resolved scope k) ->
   setEaRepository next st
   = (st, [MessageWarning (if scopeIs scope "Domain" then domainWarning
                           else businessUnitWarning)]))
  /\ (scope <> Some "Business Unit" -> scope <> Some "Domain" ->
      setEaRepository next st = (setModel (Some resolved) (metadata st) st, [])).
Proof.
  intros Hprev Hres scope. unfold setEaRepository. rewrite Hprev, Hres. fold scope.
  split.
  - intros Hscope Htouched.
    assert (isScoped scope = true) as Hscoped
      by (unfold isScoped; destruct Hscope as [-> | ->]; reflexivity).
    rewrite (scoped_rejects prev resolved scope Hscoped Htouched). cbn [negb].
    destruct (scopeIs scope "Domain"); reflexivity.
  - intros Hbu Hdom.
    assert (isScoped scope = false) as Hscoped.
    { unfold isScoped, scopeIs. destruct scope as [s|]; [|reflexivity].
      destruct (String.eqb_spec s "Business Unit") as [->|_]; [congruence|].
      destruct (String.eqb_spec s "Domain") as [->|_]; [congruence|reflexivity]. }
    unfold hasReadOnlyObjectChanges. rewrite Hscoped. reflexivity.
Qed.

End ScopeCheckFacts.

(** ** Snapshots *)

Section JsonFacts.
Import Json.

Lemma normalize_defined v : isUndefined (jsonNormalize v) = false.
Proof. destruct v; reflexivity. Qed.

(** A value and what survives of it in JSON text are written alike. *)
Lemma jsonText_normalize : forall v, jsonText (jsonNormalize v) = jsonText v.
Proof.
  fix IH 1. intros [| |b|n|s|items|props]; cbn [jsonNormalize jsonText]; try reflexivity.
  - assert (List.map jsonText (List.map jsonNormalize items) = List.map jsonText items) as ->;
      [|reflexivity].
    induction items as [|x items IHitems]; [reflexivity|].
    cbn [List.map]. now rewrite IH, IHitems.
  - match goal with
    | |- context [String.concat _ ?a] =>
        match goal with
        | |- _ = ("{" +:+ String.concat _ ?b +:+ _) => assert (a = b) as ->; [|reflexivity]
        end
    end.
    induction props as [|[k v] props IHprops]; [reflexivity|].
    cbn [List.flat_map fst snd]. destruct (isUndefined v) eqn:Hv.
    + cbn [app]. exact IHprops.
    + cbn [app List.flat_map fst snd]. rewrite normalize_defined, IH.
      cbn [app]. now rewrite IHprops.
Qed.

Lemma jsonNormalize_idem : forall v, jsonNormalize (jsonNormalize v) = jsonNormalize v.
Proof.
  fix IH 1. intros [| |b|n|s|items|props]; cbn [jsonNormalize]; try reflexivity.
  - f_equal.
    induction items as [|x items IHitems]; [reflexivity|].
    cbn [List.map]. now rewrite IH, IHitems.
  - f_equal.
    induction props as [|[k v] props IHprops]; [reflexivity|].
    cbn [List.flat_map fst snd]. destruct (isUndefined v) eqn:Hv.
    + cbn [app]. exact IHprops.
    + cbn [app List.flat_map fst snd]. rewrite normalize_defined, IH.
      cbn [app]. now rewrite IHprops.
Qed.

End JsonFacts.

Section SnapshotFacts.
Import Json Ea Metadata Provider.
Context {platform : Platform} {env : Environment}.

Lemma normalize_serialize r meta t :
  jsonNormalize (serializeRepository r meta t)
  = JObj [ ("version", JNum 1);
           ("metadata", jsonNormalize (metadataJson meta));
           ("objects", JArr (objectsContent r));
           ("relationships", JArr (relationshipsContent r));
           ("updatedAt", JStr t) ].
Proof.
  unfold serializeRepository, objectsContent, relationshipsContent.
  cbn [jsonNormalize List.flat_map fst snd isUndefined app metadataJson].
  now rewrite !List.map_map.
Qed.

Lemma sameContent_normalize a b meta t :
  sameContent a b ->
  jsonNormalize (serializeRepository a meta t) = jsonNormalize (serializeRepository b meta t).
Proof. intros [Ho Hr]. rewrite !normalize_serialize. now rewrite Ho, Hr. Qed.

Lemma sameContent_text a b meta t :
  sameContent a b ->
  jsonText (serializeRepository a meta t) = jsonText (serializeRepository b meta t).
Proof.
  intros H. rewrite <- (jsonText_normalize (serializeRepository a meta t)).
  rewrite (sameContent_normalize a b meta t H). apply jsonText_normalize.
Qed.

Lemma sameContent_snapshot a b meta t :
  codecLaws -> sameContent a b -> snapshot a meta t = snapshot b meta t.
Proof.
  intros [_ Hlaw] H. unfold snapshot.
  rewrite <- (Hlaw (serializeRepository a meta t)), <- (Hlaw (serializeRepository b meta t)).
  now rewrite (sameContent_normalize a b meta t H).
Qed.

Lemma sameContent_refl a : sameContent a a.
Proof. split; reflexivity. Qed.

Lemma sameContent_trans a b c : sameContent a b -> sameContent b c -> sameContent a c.
Proof. intros [H1 H2] [H3 H4]. split; congruence. Qed.

Lemma sameContent_sym a b : sameContent a b -> sameContent b a.
Proof. intros [H1 H2]. split; congruence. Qed.

Lemma restorable_sameContent meta a b :
  sameContent a b -> restorable meta b -> restorable meta a.
Proof.
  intros Hab [Hmeta [r' [Hnew Hsame]]]. split; [exact Hmeta|].
  exists r'. destruct Hab as [Ho Hr]. rewrite Ho, Hr. split; [exact Hnew|].
  eapply sameContent_trans; [exact Hsame|]. apply sameContent_sym. split; assumption.
Qed.

(** Deserializing a snapshot of a restorable repository succeeds and
    gives a repository with the same content, under the same metadata. *)
Lemma deserialize_snapshot r meta t :
  codecLaws -> restorable meta r ->
  exists r', deserializeRaw (snapshot r meta t) = Some (r', meta) /\ sameContent r' r.
Proof.
  intros [Hparse _] [Hmeta [r' [Hnew Hsame]]]. exists r'. split; [|exact Hsame].
  unfold deserializeRaw, snapshot.
  change (serializeRepository r meta t) with
    (JObj [ ("version", JNum 1);
            ("metadata", metadataJson meta);
            ("objects", JArr (List.map objectJson (Js.values (objects r))));
            ("relationships", JArr (List.map relationshipJson (relationships r)));
            ("updatedAt", JStr t) ]).
  rewrite Hparse.
  change (JObj _) with (serializeRepository r meta t) at 1.
  rewrite normalize_serialize. unfold tryDeserializeRepository.
  cbn [propOf getProp String.eqb Ascii.eqb Bool.eqb arrayOf].
  rewrite Hmeta. cbn. now rewrite Hnew.
Qed.

(** *** The carried form of a repository *)

Lemma map_Some_inj {A} (l l' : list A) : List.map Some l = List.map Some l' -> l = l'.
Proof.
  revert l'. induction l as [|x l IH]; intros [|y l'] H; try discriminate H; [reflexivity|].
  cbn [List.map] in H. injection H as -> H. f_equal. now apply IH.
Qed.

Lemma carriedAttributes_idem a :
  carriedAttributes (Some (carriedAttributes a)) = carriedAttributes a.
Proof.
  assert (JObj (carriedAttributes (Some (carriedAttributes a))) = JObj (carriedAttributes a))
    as H; [|now injection H].
  change (JObj (carriedAttributes (Some (carriedAttributes a))))
    with (jsonNormalize (jsonNormalize (JObj (attrsOrEmpty a)))).
  now rewrite jsonNormalize_idem.
Qed.

(** The item that a snapshot holds for an object describes the carried
    form of the object; likewise for a relationship. *)
Lemma objectOfJson_snapshot o :
  objectOfJson (jsonNormalize (objectJson o)) = Some (carriedObject o).
Proof. reflexivity. Qed.

Lemma relationshipOfJson_snapshot x :
  relationshipOfJson (jsonNormalize (relationshipJson x)) = Some (carriedRelationship x).
Proof. reflexivity. Qed.



Lemma values_carried r :
  Js.values (objects (carried r)) = List.map carriedObject (Js.values (objects r)).
Proof. unfold carried, Js.values. cbn [objects]. now rewrite List.map_map. Qed.


Lemma carried_idem r : carried (carried r) = carried r.
Proof.
  unfold carried at 1. rewrite values_carried. unfold carried. cbn [relationships].
  rewrite !List.map_map. f_equal.
  - apply List.map_ext. intros o. unfold carriedObject at 1 2.
    cbn [carriedObject EaObject.id EaObject.type EaObject.attributes].
    now rewrite carriedAttributes_idem.
  - apply List.map_ext. intros x. unfold carriedRelationship at 1.
    cbn [carriedRelationship EaRelationship.fromId EaRelationship.toId EaRelationship.type
         EaRelationship.attributes].
    now rewrite carriedAttributes_idem.
Qed.

(** Deserializing a snapshot of a repository that the constructor
    rebuilds gives the carried form of the repository, under the same
    metadata. *)
Lemma deserialize_snapshot_carried r meta t :
  codecLaws -> rebuilds meta r ->
  deserializeRaw (snapshot r meta t) = Some (carried r, meta).
Proof.
  intros [Hparse _] (Hmeta & os & rs & Hos & Hrs & Hnew).
  assert (os = List.map carriedObject (Js.values (objects r))) as ->.
  { apply map_Some_inj. rewrite <- Hos. unfold objectsContent.
    rewrite !List.map_map. apply List.map_ext. intros o. apply objectOfJson_snapshot. }
  assert (rs = List.map carriedRelationship (relationships r)) as ->.
  { apply map_Some_inj. rewrite <- Hrs. unfold relationshipsContent.
    rewrite !List.map_map. apply List.map_ext. intros x. apply relationshipOfJson_snapshot. }
  unfold deserializeRaw, snapshot.
  change (serializeRepository r meta t) with
    (JObj [ ("version", JNum 1);
            ("metadata", metadataJson meta);
            ("objects", JArr (List.map objectJson (Js.values (objects r))));
            ("relationships", JArr (List.map relationshipJson (relationships r)));
            ("updatedAt", JStr t) ]).
  rewrite Hparse.
  change (JObj _) with (serializeRepository r meta t) at 1.
  rewrite normalize_serialize. unfold tryDeserializeRepository.
  cbn [propOf getProp String.eqb Ascii.eqb Bool.eqb arrayOf].
  rewrite Hmeta. cbn. rewrite Hnew. unfold carried. now rewrite List.map_map.
Qed.

(** C4, as the code has it.  A snapshot is [JSON.stringify] of an object
    whose keys come in the order in which they were written (version,
    metadata, objects, relationships, updatedAt), not sorted, and which
    carries the reading of the clock.  Where the JSON codec round-trips,
    the metadata validator returns the metadata of the snapshot and the
    repository constructor keeps the arrays it is given, deserializing a
    snapshot succeeds and yields a repository that serializes
    byte-identically to the original at every one reading of the clock. *)
Theorem snapshot_round_trip_at_same_clock
    (r : EaRepository) (meta : EaRepositoryMetadata) (t : string) :
  codecLaws -> restorable meta r ->
  propKeys (serializeRepository r meta t)
  = ["version"; "metadata"; "objects"; "relationships"; "updatedAt"]
  /\ exists r',
       deserializeRaw (snapshot r meta t) = Some (r', meta)
       /\ forall t',
            jsonText (serializeRepository r' meta t')
            = jsonText (serializeRepository r meta t')
            /\ snapshot r' meta t' = snapshot r meta t'.
Proof.
  intros laws Hres. split; [reflexivity|].
  destruct (deserialize_snapshot r meta t laws Hres) as (r' & Hdes & Hsame).
  exists r'. split; [exact Hdes|]. intros t'. split.
  - now apply sameContent_text.
  - now apply sameContent_snapshot.
Qed.

End SnapshotFacts.

(** ** Repository history: undo and redo *)

Section UndoRedoFacts.
Import Json ArchRepo RelRepo Ea Governance Metadata Provider.
Context {platform : Platform} {env : Environment}.
Context {api : RelationshipRepositoryApi} {validators : Validators api}.

Lemma undo_applies st rest x r' meta' :
  undoStack st = rest ++ [x] -> deserializeRaw x = Some (r', meta') ->
  fst (undo st) = true
  /\ historyOf (snd (undo st))
     = (Some r', Some meta', rest,
        match lastSerialized st with
        | Some c => unshiftBounded (redoStack st) c
        | None => redoStack st
        end, Some x, true).
Proof.
  intros Hstack Hdes. unfold undo. rewrite Hstack, last_snoc, removelast_last.
  unfold applySerialized. rewrite Hdes. split; reflexivity.
Qed.





Section Timeline.
Variable meta : EaRepositoryMetadata.
Variable older : list Raw.
Variable L : list EaRepository.
Hypothesis laws : codecLaws.
Hypothesis fits : length older + length L <= S HISTORY_LIMIT.
Hypothesis rebuildsL : Forall (rebuilds meta) L.







End Timeline.







End UndoRedoFacts.

(** ** Concrete runs *)

Section ConcreteRuns.
Import Json ArchRepo RelRepo Ea Governance Metadata ScopePolicy Provider StandIns.

Lemma json_eqb_refl : forall a, json_eqb a a = true.
Proof.
  fix IH 1. intros [| |x|x|x|xs|ps]; cbn; try reflexivity.
  - now destruct x.
  - apply Z.eqb_refl.
  - apply String.eqb_refl.
  - induction xs as [|x xs IHxs]; [reflexivity|]. now rewrite IH, IHxs.
  - induction ps as [|[k v] ps IHps]; [reflexivity|].
    cbn. now rewrite String.eqb_refl, IH, IHps.
Qed.

Lemma json_neq_of_eqb a b : json_eqb a b = false -> a <> b.
Proof. intros H ->. rewrite json_eqb_refl in H. discriminate. Qed.

Lemma distinctRunb_sound snaps : forall s0,
  distinctRunb s0 snaps = true -> @distinctRun valuePlatform s0 snaps.
Proof.
  induction snaps as [|x rest IH]; intros s0 H; [exact I|].
  cbn in H. apply andb_prop in H as [Hne Hrest]. split; [|now apply IH].
  apply json_neq_of_eqb. now apply negb_true_iff.
Qed.

Lemma valuePlatform_laws : @codecLaws valuePlatform.
Proof. split; [reflexivity|]. intros v. apply jsonNormalize_idem. Qed.

(** *** Strict mode *)

(** Warnings alone: the total is positive, the save goes through. *)
Lemma strict_gate_total_counterexample :
  let st := freshState warnedRepository strictMeta in
  let s := summary (@buildGovernanceDebt specApi plainValidators
                      warnedRepository noon (lifecycleCoverage strictMeta)) in
  let events := snd (@settle valuePlatform specApi plainValidators noon noon st) in
  governanceMode strictMeta = "Strict"
  /\ relationshipWarningCount s = 1 /\ total s = 1
  /\ persisted events = true
  /\ ~ (persisted events = false <-> 0 < total s).
Proof.
  cbv zeta.
  assert (persisted (snd (@settle valuePlatform specApi plainValidators noon noon
                            (freshState warnedRepository strictMeta))) = true) as Hp
    by (vm_compute; reflexivity).
  assert (total (summary (@buildGovernanceDebt specApi plainValidators
                            warnedRepository noon (lifecycleCoverage strictMeta))) = 1)
    as Ht by (vm_compute; reflexivity).
  split; [reflexivity|]. split; [vm_compute; reflexivity|]. split; [exact Ht|].
  split; [exact Hp|]. rewrite Hp, Ht. intros [_ H]. assert (0 < 1) as H1 by lia.
  specialize (H H1). discriminate H.
Qed.

Lemma strict_gate_blocks_on_blocking_counts_witness :
  let st := freshState unownedRepository strictMeta in
  (eaRepository st = Some unownedRepository /\ metadata st = Some strictMeta
   /\ governanceMode strictMeta = "Strict")
  /\ persisted (snd (@settle valuePlatform specApi plainValidators noon noon st)) = false.
Proof.
  cbv zeta. split; [repeat split|].
  destruct (@strict_gate_blocks_on_blocking_counts valuePlatform specApi plainValidators
              noon noon (freshState unownedRepository strictMeta)
              unownedRepository strictMeta eq_refl eq_refl eq_refl)
    as (_ & Hiff & _).
  apply Hiff. left. vm_compute. lia.
Defined.

(** The scenario of section 8: an application without owner role blocks
    the save; once the owner role is set the total is zero, the save goes
    through and the block is lifted. *)
Example strict_scenario :
  let st0 := freshState unownedRepository strictMeta in
  let '(st1, events1) := @settle valuePlatform specApi plainValidators noon noon st0 in
  let '(st2, events2) :=
    @commit valuePlatform specApi plainValidators (edit oneApp later) st1 in
  persisted events1 = false
  /\ lastSaveBlockedKey st1 = Some "1|0|0|0|0"
  /\ persisted events2 = true
  /\ lastSaveBlockedKey st2 = None
  /\ In (MessageSuccess "Governance compliant: saving re-enabled.") events2.
Proof. vm_compute. repeat split. right. left. reflexivity. Qed.

(** *** The update boundary *)

(** Programme scope: an Application, read-only by the policy, is edited
    and the update is accepted. *)
Lemma programme_scope_update_counterexample :
  let prev := ownedBy "Owner" in
  let next := ownedBy "Someone else" in
  let st := freshState prev (metadataWith "Programme" "Advisory") in
  scopeOf (metadata st) = Some "Programme"
  /\ isObjectTypeWritableForScope (Some "Programme") "Application" = false
  /\ @touchesReadOnly valuePlatform prev next (Some "Programme") "app-1"
  /\ @setEaRepository valuePlatform (Value (Some next)) st
     = (setModel (Some next) (metadata st) st, []).
Proof.
  cbv zeta. split; [reflexivity|]. split; [reflexivity|]. split; [|reflexivity].
  unfold touchesReadOnly. cbn. split; [now left|]. right.
  apply String.eqb_neq. vm_compute. reflexivity.
Qed.

Lemma scoped_update_rejected_when_read_only_touched_witness :
  let prev := ownedBy "Owner" in
  let next := ownedBy "Someone else" in
  let st := freshState prev (metadataWith "Business Unit" "Advisory") in
  (eaRepository st = Some prev
   /\ resolveAction (Value (Some next)) (Some prev) = Some next
   /\ scopeOf (metadata st) = Some "Business Unit"
   /\ @touchesReadOnly valuePlatform prev next (Some "Business Unit") "tech-1")
  /\ @setEaRepository valuePlatform (Value (Some next)) st
     = (st, [MessageWarning businessUnitWarning]).
Proof.
  cbv zeta.
  assert (@touchesReadOnly valuePlatform (ownedBy "Owner") (ownedBy "Someone else")
            (Some "Business Unit") "tech-1") as Htouched.
  { unfold touchesReadOnly. cbn. split; [now left|]. right.
    apply String.eqb_neq. vm_compute. reflexivity. }
  split; [split; [reflexivity|split; [reflexivity|split; [reflexivity|exact Htouched]]]|].
  apply (proj1 (@scoped_update_rejected_when_read_only_touched valuePlatform
                  (freshState (ownedBy "Owner") (metadataWith "Business Unit" "Advisory"))
                  (ownedBy "Owner") (ownedBy "Someone else")
                  (Value (Some (ownedBy "Someone else"))) eq_refl eq_refl)).
  - now left.
  - exists "tech-1". exact Htouched.
Defined.

(** *** Snapshots *)

Lemma restorable_sample (r : EaRepository) (meta : EaRepositoryMetadata) :
  @validateRepositoryMetadata plainEnvironment
    (Some (jsonNormalize (metadataJson meta))) = inr meta ->
  forall r',
    @newEaRepository plainEnvironment (objectsContent r) (relationshipsContent r) = inr r' ->
    objectsContent r' = objectsContent r ->
    relationshipsContent r' = relationshipsContent r ->
    @restorable plainEnvironment meta r.
Proof. intros Hm r' Hn Ho Hr. split; [exact Hm|]. exists r'. repeat split; assumption. Qed.

(** The same attributes written in two orders give two snapshots; the
    same repository at two readings of the clock gives two snapshots;
    and the top-level keys are not in lexicographic order. *)
Lemma snapshot_not_canonical_counterexample :
  let ab := repositoryOf [tagged attrsAB] [] in
  let ba := repositoryOf [tagged attrsBA] [] in
  (forall k, getProp k attrsAB = getProp k attrsBA)
  /\ jsonText (serializeRepository ab advisoryMeta noon)
     <> jsonText (serializeRepository ba advisoryMeta noon)
  /\ (exists r',
        @deserializeRaw valuePlatform plainEnvironment
          (@snapshot valuePlatform ab advisoryMeta noon) = Some (r', advisoryMeta)
        /\ jsonText (serializeRepository r' advisoryMeta later)
           <> jsonText (serializeRepository ab advisoryMeta noon))
  /\ propKeys (serializeRepository ab advisoryMeta noon)
     = ["version"; "metadata"; "objects"; "relationships"; "updatedAt"].
Proof.
  cbv zeta. split; [|split; [|split; [|reflexivity]]].
  - intros k. unfold attrsAB, attrsBA. cbn [getProp].
    destruct (String.eqb_spec k "a") as [->|_]; [reflexivity|].
    destruct (String.eqb k "b"); reflexivity.
  - apply String.eqb_neq. vm_compute. reflexivity.
  - eexists. split; [vm_compute; reflexivity|].
    apply String.eqb_neq. vm_compute. reflexivity.
Qed.

Lemma snapshot_round_trip_at_same_clock_witness :
  let r := repositoryOf [tagged attrsBA] [dependsOn "cap-1" "cap-1"] in
  (@codecLaws valuePlatform /\ @restorable plainEnvironment advisoryMeta r)
  /\ exists r',
       @deserializeRaw valuePlatform plainEnvironment
         (@snapshot valuePlatform r advisoryMeta noon) = Some (r', advisoryMeta)
       /\ forall t',
            jsonText (serializeRepository r' advisoryMeta t')
            = jsonText (serializeRepository r advisoryMeta t')
            /\ @snapshot valuePlatform r' advisoryMeta t'
               = @snapshot valuePlatform r advisoryMeta t'.
Proof.
  cbv zeta.
  assert (@restorable plainEnvironment advisoryMeta
            (repositoryOf [tagged attrsBA] [dependsOn "cap-1" "cap-1"])) as Hres
    by (eapply restorable_sample; reflexivity).
  split; [split; [exact valuePlatform_laws|exact Hres]|].
  exact (proj2 (@snapshot_round_trip_at_same_clock valuePlatform plainEnvironment
                  (repositoryOf [tagged attrsBA] [dependsOn "cap-1" "cap-1"])
                  advisoryMeta noon valuePlatform_laws Hres)).
Defined.

(** *** History *)


(** The stand-in constructor rebuilds a repository whose snapshot it
    turns into the carried form of the repository. *)
Lemma rebuilds_sample (r : EaRepository) (meta : EaRepositoryMetadata) :
  @validateRepositoryMetadata plainEnvironment
    (Some (jsonNormalize (metadataJson meta))) = inr meta ->
  @newEaRepository plainEnvironment (objectsContent r) (relationshipsContent r)
  = inr (carried r) ->
  @rebuilds plainEnvironment meta r.
Proof.
  intros Hm Hn. split; [exact Hm|].
  exists (List.map carriedObject (Js.values (objects r))),
    (List.map carriedRelationship (relationships r)).
  split; [|split].
  - unfold objectsContent. rewrite !List.map_map. apply List.map_ext.
    intros o. apply objectOfJson_snapshot.
  - unfold relationshipsContent. rewrite !List.map_map. apply List.map_ext.
    intros x. apply relationshipOfJson_snapshot.
  - rewrite Hn. unfold carried. now rewrite List.map_map.
Qed.


Lemma history_stacks_never_exceed_limit_witness :
  let st := settledState emptyRepository advisoryMeta "t0" in
  @withinLimit valuePlatform st
  /\ length (undoStack (fst (@commits valuePlatform specApi plainValidators sixtyEdits st)))
     = 50.
Proof.
  cbv zeta.
  assert (@withinLimit valuePlatform (settledState emptyRepository advisoryMeta "t0"))
    as Hlim by (split; cbn; unfold HISTORY_LIMIT; lia).
  split; [exact Hlim|].
  destruct (@history_stacks_never_exceed_limit valuePlatform plainEnvironment specApi
              plainValidators (settledState emptyRepository advisoryMeta "t0") Hlim)
    as (_ & _ & _ & _ & _ & _ & _ & _ & _ & _ & Hsixty).
  refine (proj2 (proj2 (Hsixty advisoryMeta
                          (@snapshot valuePlatform emptyRepository advisoryMeta "t0")
                          sixtyEdits eq_refl eq_refl eq_refl eq_refl _))).
  apply distinctRunb_sound. vm_compute. reflexivity.
Defined.

(** *** Advisory mode *)

Lemma advisory_warns_once_per_fingerprint_change_witness :
  let st := freshState emptyRepository advisoryMeta in
  (metadata st = Some advisoryMeta /\ governanceMode advisoryMeta = "Advisory"
   /\ lastAdvisoryWarnKey st = None)
  /\ countLog "save.warned"
       (snd (@commits valuePlatform specApi plainValidators advisoryRun st)) = 2
  /\ countPersisted
       (snd (@commits valuePlatform specApi plainValidators advisoryRun st)) = 3.
Proof.
  cbv zeta. split; [repeat split|].
  destruct (@advisory_warns_once_per_fingerprint_change valuePlatform specApi
              plainValidators (freshState emptyRepository advisoryMeta) advisoryMeta
              advisoryRun eq_refl eq_refl eq_refl)
    as (Hwarned & Hpersisted & _).
  split; [rewrite Hwarned; vm_compute; reflexivity|exact Hpersisted].
Defined.

(** A fingerprint that comes back after a different one is warned
    again: the run A, B, A has two distinct fingerprints, both with
    positive total, and leaves three entries. *)
Lemma advisory_recurring_fingerprint_counterexample :
  let st := freshState emptyRepository advisoryMeta in
  let debtOf := fun repo =>
    summary (@buildGovernanceDebt specApi plainValidators repo noon
               (lifecycleCoverage advisoryMeta)) in
  let a := debtOf unownedRepository in
  let b := debtOf warnedRepository in
  governanceMode advisoryMeta = "Advisory"
  /\ 0 < total a /\ 0 < total b /\ fingerprint a <> fingerprint b
  /\ countLog "save.warned"
       (snd (@commits valuePlatform specApi plainValidators
               [edit unownedRepository noon; edit warnedRepository noon;
                edit unownedRepository noon] st)) = 3.
Proof.
  cbv zeta. split; [reflexivity|].
  split; [vm_compute; lia|]. split; [vm_compute; lia|].
  split; [vm_compute; discriminate|vm_compute; reflexivity].
Qed.

(** *** The relationship store and the aggregator *)

Lemma addRelationship_succeeds_iff_endpoints_allowed_witness :
  fst (specAddRelationship (recordOf "DEPENDS_ON" "app-1" "app-2") sampleRelationshipStore)
  = inr "rel_0"
  /\ fst (specAddRelationship (recordOf "DEPENDS_ON" "app-1" "tech-1")
            sampleRelationshipStore)
     = inl (EndpointTypeMismatch "DEPENDS_ON" "app-1" "tech-1").
Proof.
  split.
  - refine (proj1 (proj2 (addRelationship_succeeds_iff_endpoints_allowed
                            sampleRelationshipStore (recordOf "DEPENDS_ON" "app-1" "app-2"))
                     _ _ eq_refl eq_refl eq_refl eq_refl) eq_refl).
  - refine (proj2 (proj2 (addRelationship_succeeds_iff_endpoints_allowed
                            sampleRelationshipStore (recordOf "DEPENDS_ON" "app-1" "tech-1"))
                     _ _ eq_refl eq_refl eq_refl eq_refl) eq_refl).
Defined.

Lemma relationship_projection_skips_unresolved_witness :
  let debt := buildGovernanceDebt (api := specApi) (validators := plainValidators)
                mixedRepository noon None in
  invalidRelationshipInserts debt
  = ["DEPENDS_ON app-1 -> tech-1: EndpointTypeMismatch: DEPENDS_ON app-1 -> tech-1"]
  /\ relFindings (relationshipReport debt) = [].
Proof.
  cbv zeta.
  destruct (@relationship_projection_skips_unresolved specApi plainValidators
              mixedRepository noon None) as (_ & _ & _ & Hinv & Hrel & _).
  split; [rewrite Hinv|rewrite Hrel]; vm_compute; reflexivity.
Defined.

End ConcreteRuns.

(* ===================================================================== *)
(** * Part III: further properties of the code                           *)
(* ===================================================================== *)

(** ** The scope write policy on arbitrary and missing types *)

Section ScopePolicyMore.
Import MetaModel ScopePolicy PolicyTerms.

Lemma scopeIs_cases (scope : option string) :
  scope = Some "Programme" \/ scope = Some "Business Unit" \/ scope = Some "Domain"
  \/ namedScope scope = false.
Proof.
  destruct scope as [s|]; [|now right; right; right].
  unfold namedScope, scopeIs.
  destruct (String.eqb_spec s "Programme") as [->|_]; [now left|].
  destruct (String.eqb_spec s "Business Unit") as [->|_]; [now right; left|].
  destruct (String.eqb_spec s "Domain") as [->|_]; [now right; right; left|].
  now right; right; right.
Qed.

Lemma unnamed_scope_tests (scope : option string) :
  namedScope scope = false ->
  scopeIs scope "Programme" = false /\ scopeIs scope "Business Unit" = false
  /\ scopeIs scope "Domain" = false.
Proof.
  unfold namedScope. intros H.
  apply orb_false_iff in H as [H H3]. apply orb_false_iff in H as [H1 H2]. auto.
Qed.

(** X1. Under the three named scopes the two policy functions agree on
    every type, a missing, empty or unknown one included: a reason is
    given exactly when the type is not writable.  Under any other scope
    no reason is ever given, although a missing or unknown type is not
    writable there either. *)
Theorem read_only_reason_matches_any_type_policy
    (architectureScope : option string) (objectType : option string) :
  if namedScope architectureScope then
    getReadOnlyReason architectureScope objectType = None
    <-> isAnyObjectTypeWritableForScope architectureScope objectType = true
  else
    getReadOnlyReason architectureScope objectType = None
    /\ isAnyObjectTypeWritableForScope architectureScope objectType
       = presentAndValid objectType.
Proof.
  assert (forall scope t,
             isValidObjectType t = true ->
             getReadOnlyReason scope (Some t) = None
             <-> isAnyObjectTypeWritableForScope scope (Some t) = true) as Hvalid.
  { intros scope t Hv.
    unfold getReadOnlyReason, isAnyObjectTypeWritableForScope, isObjectTypeWritableForScope.
    rewrite Hv, (valid_type_nonempty t Hv). cbn [orb negb].
    destruct scope as [s|]; cbn [scopeIs]; [|tauto].
    destruct (String.eqb_spec s "Programme") as [->|_].
    { cbn. destruct (_ || _); split; congruence. }
    destruct (String.eqb_spec s "Business Unit") as [->|_].
    { destruct (_ || _); split; congruence. }
    destruct (String.eqb_spec s "Domain") as [->|_].
    { destruct (_ || _); split; congruence. }
    tauto. }
  destruct (scopeIs_cases architectureScope) as [->|[->|[->|Hun]]].
  1-3: cbn [namedScope scopeIs String.eqb Ascii.eqb Bool.eqb orb];
       destruct objectType as [t|]; [|split; discriminate];
       (destruct (isValidObjectType t) eqn:Hv; [now apply Hvalid|]);
       unfold getReadOnlyReason, isAnyObjectTypeWritableForScope; rewrite Hv;
       cbn [negb orb]; rewrite orb_true_r;
       destruct (String.eqb t EmptyString); split; discriminate.
  rewrite Hun. destruct (unnamed_scope_tests _ Hun) as (Hp & Hb & Hd).
  unfold getReadOnlyReason, isAnyObjectTypeWritableForScope, isObjectTypeWritableForScope,
    presentAndValid.
  rewrite Hp, Hb, Hd.
  destruct objectType as [t|]; [|split; reflexivity].
  destruct (String.eqb t EmptyString); cbn [orb negb andb]; [split; reflexivity|].
  destruct (isValidObjectType t); split; reflexivity.
Qed.

End ScopePolicyMore.

(** ** The typed element store: outcomes, lookups, invariants *)

Section ArchRepoMore.
Import ArchRepo ArchRepoRuns.

Lemma guardOf_expected c e :
  guardOf c e = String.eqb (elementType e) (expectedElementType c).
Proof. destruct c; reflexivity. Qed.

Lemma addElement_result c e r :
  fst (addElement c e r)
  = if Js.has (id e) (byId r) then Err (duplicateIdError (id e))
    else if String.eqb (elementType e) (expectedElementType c) then Ok tt
    else Err (mismatchError c e).
Proof.
  unfold addElement. rewrite guardOf_expected.
  destruct (Js.has (id e) (byId r)); [reflexivity|].
  destruct (String.eqb (elementType e) (expectedElementType c)); reflexivity.
Qed.

Lemma mismatch_is_no_guard_error c c' e : mismatchError c e <> guardError c'.
Proof. destruct c'; discriminate. Qed.

Lemma duplicate_is_no_guard_error k c : duplicateIdError k <> guardError c.
Proof. destruct c; discriminate. Qed.

(** X2. [addElement] succeeds exactly when the id is new to the flat
    index and the element type is the one that the collection expects.
    A duplicate id is reported before a type mismatch, the messages of
    the per-collection type guards are never returned, and an insertion
    that fails leaves the store as it was. *)
Theorem addElement_outcome
    (c : RepositoryCollectionType) (e : BaseArchitectureElement)
    (r : ArchitectureRepository) :
  (fst (addElement c e r) = Ok tt
   <-> Js.has (id e) (byId r) = false /\ elementType e = expectedElementType c)
  /\ (Js.has (id e) (byId r) = true ->
      fst (addElement c e r) = Err (duplicateIdError (id e)))
  /\ (Js.has (id e) (byId r) = false -> elementType e <> expectedElementType c ->
      fst (addElement c e r) = Err (mismatchError c e))
  /\ (forall c', fst (addElement c e r) <> Err (guardError c'))
  /\ (fst (addElement c e r) <> Ok tt -> snd (addElement c e r) = r).
Proof.
  rewrite addElement_result.
  destruct (Js.has (id e) (byId r)) eqn:Hhas.
  - split; [split; [discriminate | intros [? _]; discriminate]|].
    split; [reflexivity|]. split; [discriminate|].
    split.
    + intros c' [= H]. exact (duplicate_is_no_guard_error _ _ H).
    + intros _. unfold addElement. now rewrite Hhas.
  - destruct (String.eqb_spec (elementType e) (expectedElementType c)) as [Heq|Hne].
    + split; [split; auto|]. split; [discriminate|]. split; [contradiction|].
      split; [discriminate | intros H; now contradiction H].
    + split; [split; [discriminate | intros [_ ?]; contradiction]|].
      split; [discriminate|]. split; [reflexivity|].
      split.
      * intros c' [= H]. exact (mismatch_is_no_guard_error _ _ _ H).
      * intros _. unfold addElement. rewrite Hhas.
        destruct (String.eqb_spec (elementType e) (expectedElementType c));
          [contradiction | reflexivity].
Qed.

Lemma set_fresh {V} (m : Js.Map V) k v :
  Js.get k m = None -> Js.set k v m = m ++ [(k, v)].
Proof.
  induction m as [|[k' v'] m IH]; cbn; [reflexivity|].
  destruct (String.eqb k k'); [discriminate|]. intros H. now rewrite IH.
Qed.

Lemma fresh_in_collections r c k :
  indexed r -> Js.get k (byId r) = None -> Js.get k (collection c r) = None.
Proof.
  intros Hidx Hfresh. destruct (Js.get k (collection c r)) as [e|] eqn:Hg; [|reflexivity].
  apply Hidx in Hg. congruence.
Qed.

(** X3. A successful insertion can be read back: the element resolves
    under its id, it is the last element of its collection, and every
    other collection and every other id answer as before. *)
Theorem addElement_then_lookup
    (c : RepositoryCollectionType) (e : BaseArchitectureElement)
    (r : ArchitectureRepository) :
  reachable r ->
  Js.has (id e) (byId r) = false -> elementType e = expectedElementType c ->
  let r' := snd (addElement c e r) in
  fst (addElement c e r) = Ok tt
  /\ getElementById (id e) r' = Some e
  /\ getElementsByType c r' = getElementsByType c r ++ [e]
  /\ (forall c', c' <> c -> getElementsByType c' r' = getElementsByType c' r)
  /\ (forall k, k <> id e -> getElementById k r' = getElementById k r).
Proof.
  intros Hreach Hfresh Hty r'.
  pose proof (reachable_indexed r Hreach) as Hidx.
  apply has_false_iff in Hfresh.
  destruct (addElement_cases c e r) as [[Hfail _]|(_ & _ & Hadd)].
  { exfalso. apply Hfail. rewrite addElement_result.
    assert (Js.has (id e) (byId r) = false) as -> by now apply has_false_iff.
    rewrite Hty, String.eqb_refl. reflexivity. }
  subst r'. rewrite Hadd. cbn [fst snd].
  unfold getElementById, getElementsByType. cbn [byId setById].
  split; [reflexivity|]. split; [apply get_set_eq|].
  split; [|split].
  - rewrite collection_setById, collection_setCollection.
    destruct (coll_eq_dec c c); [|contradiction].
    rewrite set_fresh by now apply fresh_in_collections.
    unfold Js.values. now rewrite List.map_app.
  - intros c' Hc. rewrite collection_setById, collection_setCollection.
    destruct (coll_eq_dec c' c); [contradiction|reflexivity].
  - intros k Hk. apply get_set_ne. congruence.
Qed.

Lemma addElement_then_lookup_witness :
  let e := {| id := "tech-1"; elementType := "Technology"; fields := [] |} in
  let r' := snd (addElement technologies e StandIns.sampleStore) in
  fst (addElement technologies e StandIns.sampleStore) = Ok tt
  /\ getElementById "tech-1" r' = Some e
  /\ getElementsByType technologies r'
     = getElementsByType technologies StandIns.sampleStore ++ [e]
  /\ (forall c', c' <> technologies ->
        getElementsByType c' r' = getElementsByType c' StandIns.sampleStore)
  /\ (forall k, k <> "tech-1" ->
        getElementById k r' = getElementById k StandIns.sampleStore).
Proof.
  intros e.
  apply (addElement_then_lookup technologies e StandIns.sampleStore).
  - apply reachable_add, reachable_empty.
  - reflexivity.
  - reflexivity.
Defined.

Lemma addElement_typed c e r : typed r -> typed (snd (addElement c e r)).
Proof.
  intros Hinv. destruct (addElement_cases c e r) as [[_ ->]|(_ & Hty & ->)]; [exact Hinv|].
  cbn [snd]. intros c0 k e0. rewrite collection_setById, collection_setCollection.
  destruct (coll_eq_dec c0 c) as [->|_]; [|apply Hinv].
  destruct (String.string_dec (id e) k) as [<-|Hk].
  - rewrite get_set_eq. now intros [= <-].
  - rewrite get_set_ne by assumption. apply Hinv.
Qed.

Lemma reachable_typed r : reachable r -> typed r.
Proof.
  induction 1 as [|c e r _ IH]; [intros [] k e; discriminate | now apply addElement_typed].
Qed.

Lemma expectedElementType_inj c c' :
  expectedElementType c = expectedElementType c' -> c = c'.
Proof. destruct c, c'; (reflexivity || discriminate). Qed.

(** X4. In every store that [addElement] has built, the flat index is
    the disjoint union of the five typed collections: an id resolves in
    the index exactly when it resolves, to the same element, in some
    collection; that collection is the only one holding the id; and the
    element sits there under its own id, with the element type of the
    collection. *)
Theorem flat_index_is_union_of_collections (r : ArchitectureRepository) :
  reachable r ->
  (forall k e,
      getElementById k r = Some e <-> exists c, Js.get k (collection c r) = Some e)
  /\ (forall c k e,
        Js.get k (collection c r) = Some e ->
        id e = k /\ elementType e = expectedElementType c)
  /\ (forall c c' k e e',
        Js.get k (collection c r) = Some e ->
        Js.get k (collection c' r) = Some e' -> c = c' /\ e = e').
Proof.
  intros Hreach.
  pose proof (reachable_indexed r Hreach) as Hidx.
  pose proof (reachable_covered r Hreach) as Hcov.
  pose proof (reachable_keyed r Hreach) as Hkey.
  pose proof (reachable_typed r Hreach) as Hty.
  split; [|split].
  - intros k e. unfold getElementById. split; [apply Hcov|].
    intros [c Hc]. exact (Hidx _ _ _ Hc).
  - intros c k e Hget. split; [|exact (Hty _ _ _ Hget)].
    apply (Hkey c). now apply get_Some_In.
  - intros c c' k e e' Hc Hc'.
    pose proof (Hidx _ _ _ Hc) as H1. pose proof (Hidx _ _ _ Hc') as H2.
    assert (e = e') as <- by congruence. split; [|reflexivity].
    apply expectedElementType_inj.
    rewrite <- (Hty _ _ _ Hc), <- (Hty _ _ _ Hc'). reflexivity.
Qed.

Lemma flat_index_is_union_of_collections_witness :
  (forall k e,
      getElementById k StandIns.sampleStore = Some e
      <-> exists c, Js.get k (collection c StandIns.sampleStore) = Some e)
  /\ (forall c k e,
        Js.get k (collection c StandIns.sampleStore) = Some e ->
        id e = k /\ elementType e = expectedElementType c)
  /\ (forall c c' k e e',
        Js.get k (collection c StandIns.sampleStore) = Some e ->
        Js.get k (collection c' StandIns.sampleStore) = Some e' -> c = c' /\ e = e').
Proof.
  apply (flat_index_is_union_of_collections StandIns.sampleStore).
  apply reachable_add, reachable_empty.
Defined.

Lemma addAll_reachable ops r : reachable r -> reachable (addAll ops r).
Proof.
  revert r. induction ops as [|[c e] ops IH]; intros r Hr; [exact Hr|].
  cbn [addAll fold_left]. apply IH. cbn [fst snd]. now apply reachable_add.
Qed.

Lemma addElement_keeps_index c e r k e0 :
  Js.get k (byId r) = Some e0 -> Js.get k (byId (snd (addElement c e r))) = Some e0.
Proof.
  intros Hget. destruct (addElement_cases c e r) as [[_ ->]|(Hfresh & _ & ->)]; [exact Hget|].
  cbn [snd byId setById]. rewrite get_set_ne; [exact Hget|]. intros Heq. congruence.
Qed.

Lemma addElement_extends c0 c e r :
  indexed r ->
  exists extra,
    getElementsByType c0 (snd (addElement c e r)) = getElementsByType c0 r ++ extra.
Proof.
  intros Hidx. destruct (addElement_cases c e r) as [[_ ->]|(Hfresh & _ & ->)].
  { exists []. now rewrite app_nil_r. }
  cbn [snd]. unfold getElementsByType.
  rewrite collection_setById, collection_setCollection.
  destruct (coll_eq_dec c0 c) as [->|_]; [|exists []; now rewrite app_nil_r].
  exists [e]. rewrite set_fresh by now apply fresh_in_collections.
  unfold Js.values. now rewrite List.map_app.
Qed.

(** X5. The store only grows.  Whatever insertions follow, successful
    or not, an id that resolves keeps resolving to the same element, and
    the listing of each collection keeps its elements, in order, as a
    prefix: nothing is ever removed, replaced or reordered. *)
Theorem store_only_grows
    (ops : list (RepositoryCollectionType * BaseArchitectureElement))
    (r : ArchitectureRepository) :
  reachable r ->
  (forall k e, getElementById k r = Some e -> getElementById k (addAll ops r) = Some e)
  /\ (forall c, exists extra,
        getElementsByType c (addAll ops r) = getElementsByType c r ++ extra).
Proof.
  revert r. induction ops as [|[c e] ops IH]; intros r Hreach.
  { split; [auto|]. intros c. exists []. now rewrite app_nil_r. }
  cbn [addAll fold_left fst snd].
  destruct (IH (snd (addElement c e r)) (reachable_add c e r Hreach)) as [IHid IHlist].
  split.
  - intros k e0 Hget. apply IHid. unfold getElementById in *.
    now apply addElement_keeps_index.
  - intros c0. destruct (IHlist c0) as [extra2 H2].
    destruct (addElement_extends c0 c e r (reachable_indexed r Hreach)) as [extra1 H1].
    exists (extra1 ++ extra2). unfold addAll in *. rewrite H2, H1.
    now rewrite app_assoc.
Qed.

Lemma store_only_grows_witness :
  let ops :=
    [ (technologies, StandIns.sampleClash);
      (applications, {| id := "app-2"; elementType := "Application"; fields := [] |}) ] in
  (forall k e,
      getElementById k StandIns.sampleStore = Some e ->
      getElementById k (addAll ops StandIns.sampleStore) = Some e)
  /\ (forall c, exists extra,
        getElementsByType c (addAll ops StandIns.sampleStore)
        = getElementsByType c StandIns.sampleStore ++ extra).
Proof.
  intros ops. apply (store_only_grows ops StandIns.sampleStore).
  apply reachable_add, reachable_empty.
Defined.

Lemma listed_is_indexed r e :
  reachable r -> In e (allElements r) -> Js.has (id e) (byId r) = true.
Proof.
  intros Hreach Hin. apply in_typed_elements in Hin as [c Hin].
  apply in_values_inv in Hin as [k Hin].
  pose proof (reachable_keyed r Hreach _ _ _ Hin) as Hk. subst k.
  assert (In (id e) (Js.keys (collection c r))) as Hkeys
    by (unfold Js.keys; apply in_map_iff; exists (id e, e); auto).
  apply in_keys_get in Hkeys as [e' He'].
  apply (reachable_indexed r Hreach) in He'. apply has_true_iff. eauto.
Qed.

Lemma added_listing c e r c0 :
  indexed r -> Js.get (id e) (byId r) = None ->
  getElementsByType c0
    (setById (Js.set (id e) e (byId r))
       (setCollection c (Js.set (id e) e (collection c r)) r))
  = getElementsByType c0 r ++ (if coll_eq_dec c0 c then [e] else []).
Proof.
  intros Hidx Hfresh. unfold getElementsByType.
  rewrite collection_setById, collection_setCollection.
  destruct (coll_eq_dec c0 c) as [->|_]; [|now rewrite app_nil_r].
  rewrite set_fresh by now apply fresh_in_collections.
  unfold Js.values. now rewrite List.map_app.
Qed.

Lemma added_elements c e r :
  indexed r -> Js.get (id e) (byId r) = None ->
  Permutation
    (allElements
       (setById (Js.set (id e) e (byId r))
          (setCollection c (Js.set (id e) e (collection c r)) r)))
    (e :: allElements r).
Proof.
  intros Hidx Hfresh. unfold allElements.
  rewrite !(added_listing c e r _ Hidx Hfresh).
  destruct c; cbn [coll_eq_dec RepositoryCollectionType_rec RepositoryCollectionType_rect];
    repeat match goal with
           | |- context [coll_eq_dec ?a ?b] =>
               destruct (coll_eq_dec a b); try congruence
           end;
    rewrite ?app_nil_r, <- ?app_assoc; cbn [app];
    rewrite <- ?Permutation_middle; rewrite ?app_nil_r; reflexivity.
Qed.

(** X6. Ids are unique across the whole store: over the five typed
    collections together no id is listed twice, and the flat index has
    exactly one entry for each listed element. *)
Theorem element_ids_are_unique (r : ArchitectureRepository) :
  reachable r ->
  NoDup (List.map id (allElements r))
  /\ length (Js.values (byId r)) = length (allElements r).
Proof.
  induction 1 as [|c e r Hreach [IHnd IHlen]].
  { split; [constructor | reflexivity]. }
  pose proof (reachable_indexed r Hreach) as Hidx.
  destruct (addElement_cases c e r) as [[_ ->]|(Hfresh & _ & ->)]; [now split|].
  cbn [snd].
  pose proof (added_elements c e r Hidx Hfresh) as Hperm.
  split.
  - rewrite (Permutation_map id Hperm). cbn [List.map].
    apply NoDup_cons. split; [|exact IHnd].
    intros Hin. apply list_elem_of_In, in_map_iff in Hin as [e' [Hid Hin]].
    pose proof (listed_is_indexed r e' Hreach Hin) as Hhas.
    rewrite Hid in Hhas. apply has_true_iff in Hhas as [v Hv]. congruence.
  - rewrite (Permutation_length Hperm). cbn [byId setById length].
    rewrite set_fresh by assumption.
    unfold Js.values in *. rewrite !List.length_map in *. rewrite List.length_app.
    cbn [length]. lia.
Qed.

Lemma element_ids_are_unique_witness :
  NoDup (List.map id (allElements StandIns.typedSample))
  /\ length (Js.values (byId StandIns.typedSample))
     = length (allElements StandIns.typedSample).
Proof.
  apply (element_ids_are_unique StandIns.typedSample).
  apply typedStoreOf_reachable.
Defined.

End ArchRepoMore.

(** ** The scope check of the update boundary, in full *)

Section ScopeCheckMore.
Import Json Ea Metadata ScopePolicy Provider ScopeCheckTerms.
Context {platform : Platform}.

Lemma listed_is_present prev next k :
  In k (setOf [] (Js.keys (objects prev) ++ Js.keys (objects next))) ->
  is_Some (Js.get k (objects prev)) \/ is_Some (Js.get k (objects next)).
Proof.
  intros Hin. apply in_setOf in Hin as [[]|Hin].
  apply in_app_iff in Hin as [Hin|Hin]; apply in_keys_get in Hin as [v Hv]; eauto.
Qed.

Lemma present_is_listed prev next k :
  is_Some (Js.get k (objects prev)) \/ is_Some (Js.get k (objects next)) ->
  In k (setOf [] (Js.keys (objects prev) ++ Js.keys (objects next))).
Proof.
  intros H. apply in_setOf. right. apply in_app_iff.
  destruct H as [[v Hv]|[v Hv]]; [left|right]; eapply get_Some_in_keys; exact Hv.
Qed.

Lemma readOnlyChangeAt_iff prev next scope k :
  is_Some (Js.get k (objects prev)) \/ is_Some (Js.get k (objects next)) ->
  readOnlyChangeAt prev next scope k = true <-> changeBarred prev next scope k.
Proof.
  intros Hpresent. unfold readOnlyChangeAt, changeBarred.
  destruct (Js.get k (objects prev)) as [a|], (Js.get k (objects next)) as [b|];
    cbn [option_map].
  - destruct (isAnyObjectTypeWritableForScope scope (Some (EaObject.type a)));
      destruct (isAnyObjectTypeWritableForScope scope (Some (EaObject.type b)));
      cbn [negb orb].
    1:{ split; [discriminate | intros [[?|?] _]; discriminate]. }
    all: destruct (String.eqb_spec (EaObject.type a) (EaObject.type b)) as [Hty|Hty];
      cbn [negb];
      [rewrite negb_true_iff, String.eqb_neq;
       split; [intros H; split; [auto | now right]
              | intros [_ [H|H]]; [contradiction | exact H]]
      | split; [intros _; split; [auto | now left] | reflexivity]].
  - cbn [isAnyObjectTypeWritableForScope negb]. rewrite orb_true_r. tauto.
  - cbn [isAnyObjectTypeWritableForScope negb orb]. tauto.
  - destruct Hpresent as [[? H]|[? H]]; discriminate.
Qed.

(** X7. Under Business Unit or Domain scope the check
    [hasReadOnlyObjectChanges] answers true exactly when, at some id, an
    object was added or removed, whatever its type, or an object that is
    there before and after has a non-writable type on either side and
    differs in type or in rendered attributes. *)
Theorem read_only_check_characterised
    (prev next : EaRepository) (architectureScope : option string) :
  isScoped architectureScope = true ->
  hasReadOnlyObjectChanges (Some prev) (Some next) architectureScope = true
  <-> exists k, changeBarred prev next architectureScope k.
Proof.
  intros Hscoped. unfold hasReadOnlyObjectChanges. rewrite Hscoped. cbn [negb].
  rewrite existsb_exists. split.
  - intros [k [Hin Hk]]. exists k.
    apply readOnlyChangeAt_iff; [|exact Hk]. now apply listed_is_present.
  - intros [k Hk]. exists k.
    assert (is_Some (Js.get k (objects prev)) \/ is_Some (Js.get k (objects next)))
      as Hpresent.
    { unfold changeBarred in Hk.
      destruct (Js.get k (objects prev)), (Js.get k (objects next)); eauto.
      contradiction. }
    split; [now apply present_is_listed | now apply readOnlyChangeAt_iff].
Qed.

(** X8. Under Business Unit or Domain scope the update boundary freezes
    the set of object ids: an update that adds or removes an object is
    rejected whatever the type of that object, writable types included;
    the state stays as it was and the warning of the scope is shown. *)
Theorem scoped_update_cannot_add_or_remove
    (st : State) (prev resolved : EaRepository) (next : SetStateAction) (k : string) :
  eaRepository st = Some prev ->
  resolveAction next (Some prev) = Some resolved ->
  isScoped (scopeOf (metadata st)) = true ->
  Js.has k (objects prev) <> Js.has k (objects resolved) ->
  setEaRepository next st
  = (st, [MessageWarning (scopeWarning (scopeOf (metadata st)))]).
Proof.
  intros Hprev Hres Hscoped Hdiff.
  assert (hasReadOnlyObjectChanges (Some prev) (Some resolved) (scopeOf (metadata st)) = true)
    as Hcheck.
  { unfold hasReadOnlyObjectChanges. rewrite Hscoped. cbn [negb].
    apply existsb_exists. exists k. unfold Js.has in Hdiff.
    assert (is_Some (Js.get k (objects prev)) \/ is_Some (Js.get k (objects resolved)))
      as Hpresent.
    { destruct (Js.get k (objects prev)), (Js.get k (objects resolved)); eauto.
      contradiction. }
    split; [now apply present_is_listed|].
    apply readOnlyChangeAt_iff; [exact Hpresent|]. unfold changeBarred.
    destruct (Js.get k (objects prev)), (Js.get k (objects resolved));
      try exact I; contradiction. }
  unfold setEaRepository, scopeWarning. rewrite Hprev, Hres, Hcheck. cbn [negb].
  destruct (scopeIs _ "Domain"); reflexivity.
Qed.

Lemma same_objects_pass prev next scope :
  objects next = objects prev ->
  hasReadOnlyObjectChanges (Some prev) (Some next) scope = false.
Proof.
  intros Hsame. unfold hasReadOnlyObjectChanges.
  destruct (isScoped scope); [cbn [negb]|reflexivity].
  apply not_true_is_false. rewrite existsb_exists. intros [k [Hin Hk]].
  apply listed_is_present in Hin.
  apply readOnlyChangeAt_iff in Hk; [|exact Hin].
  unfold changeBarred in Hk. rewrite Hsame in Hk.
  destruct (Js.get k (objects prev)) as [a|]; [|exact Hk].
  destruct Hk as [_ [H|H]]; now apply H.
Qed.

(** X9. What the update boundary never rejects, under any scope:
    clearing the repository; the first repository, set while none is
    held; and an update that leaves the objects as they are, whatever it
    does to the relationships, which the check does not read. *)
Theorem update_boundary_never_rejects (st : State) (next : SetStateAction) :
  (resolveAction next (eaRepository st) = None ->
   setEaRepository next st = (setModel None (metadata st) st, []))
  /\ (forall resolved,
        eaRepository st = None ->
        resolveAction next None = Some resolved ->
        setEaRepository next st = (setModel (Some resolved) (metadata st) st, []))
  /\ (forall prev resolved,
        eaRepository st = Some prev ->
        resolveAction next (Some prev) = Some resolved ->
        objects resolved = objects prev ->
        setEaRepository next st = (setModel (Some resolved) (metadata st) st, [])).
Proof.
  split; [|split].
  - intros Hres. unfold setEaRepository. now rewrite Hres.
  - intros resolved Hnone Hres. unfold setEaRepository. rewrite Hnone, Hres.
    unfold hasReadOnlyObjectChanges. destruct (isScoped _); reflexivity.
  - intros prev resolved Hprev Hres Hsame. unfold setEaRepository.
    rewrite Hprev, Hres, (same_objects_pass prev resolved _ Hsame). reflexivity.
Qed.

End ScopeCheckMore.

(** ** [stableStringify]: the order of keys *)

Section StableStringifyFacts.
Import Json SortTerms.
Variable cmp : string -> string -> comparison.
Hypothesis laws : tellsKeysApart cmp.

Lemma insertSorted_perm x l : Permutation (insertSorted cmp x l) (x :: l).
Proof.
  induction l as [|y l IH]; cbn [insertSorted]; [reflexivity|].
  destruct (cmp x y); try reflexivity; rewrite IH; apply perm_swap.
Qed.

Lemma sortFold_perm l : forall acc,
  Permutation (fold_left (fun acc x => insertSorted cmp x acc) l acc) (l ++ acc).
Proof.
  induction l as [|x l IH]; intros acc; cbn [fold_left app]; [reflexivity|].
  rewrite IH, insertSorted_perm. symmetry. apply Permutation_middle.
Qed.

Lemma sortBy_perm l : Permutation (sortBy cmp l) l.
Proof. unfold sortBy. rewrite sortFold_perm. now rewrite app_nil_r. Qed.

Lemma precedes_trans x y z : cmp x y = Lt -> precedes cmp y z -> precedes cmp x z.
Proof.
  destruct laws as (_ & Htrans & _). intros Hxy [Hyz| <-]; left; eauto.
Qed.

Lemma insertSorted_sorted x l :
  StronglySorted (precedes cmp) l -> StronglySorted (precedes cmp) (insertSorted cmp x l).
Proof.
  destruct laws as (Hflip & _ & Heq).
  induction l as [|y l IH]; intros Hsorted; cbn [insertSorted].
  { repeat constructor. }
  apply StronglySorted_inv in Hsorted as [Hl Hy].
  destruct (cmp x y) eqn:Hxy.
  - constructor; [now apply IH|].
    rewrite (insertSorted_perm x l). constructor; [|exact Hy].
    right. symmetry. now apply Heq.
  - constructor; [now constructor|].
    constructor; [now left|].
    eapply Forall_impl; [exact Hy|]. cbn. intros z Hz.
    now apply (precedes_trans x y z).
  - constructor; [now apply IH|].
    rewrite (insertSorted_perm x l). constructor; [|exact Hy].
    left. rewrite Hflip, Hxy. reflexivity.
Qed.

Lemma sortFold_sorted l : forall acc,
  StronglySorted (precedes cmp) acc ->
  StronglySorted (precedes cmp) (fold_left (fun acc x => insertSorted cmp x acc) l acc).
Proof.
  induction l as [|x l IH]; intros acc Hacc; cbn [fold_left]; [exact Hacc|].
  apply IH. now apply insertSorted_sorted.
Qed.

Lemma precedes_antisym x y : precedes cmp x y -> precedes cmp y x -> x = y.
Proof.
  destruct laws as (Hflip & _ & _).
  intros [Hxy|Hxy] [Hyx|Hyx]; auto.
  rewrite Hflip, Hxy in Hyx. discriminate.
Qed.

Lemma sortBy_of_permutation l l' :
  Permutation l l' -> sortBy cmp l = sortBy cmp l'.
Proof.
  intros Hperm.
  assert (AntiSymm eq (precedes cmp)) as Hanti
    by (intros x y; apply precedes_antisym).
  apply (StronglySorted_unique (precedes cmp)).
  - apply sortFold_sorted. constructor.
  - apply sortFold_sorted. constructor.
  - now rewrite !sortBy_perm.
Qed.

Lemma lookupRendered_in (f : json -> string) (props : Props) k v :
  NoDup (List.map fst props) -> In (k, v) props ->
  lookupRendered k (List.map (fun kv => (fst kv, f (snd kv))) props) = f v.
Proof.
  induction props as [|[k' v'] props IH]; intros Hnd Hin; [contradiction|].
  cbn [List.map fst snd lookupRendered]. cbn [List.map fst] in Hnd.
  apply NoDup_cons in Hnd as [Hfresh Hnd].
  destruct Hin as [[= -> ->]|Hin]; [now rewrite String.eqb_refl|].
  destruct (String.eqb_spec k k') as [->|_]; [|now apply IH].
  exfalso. apply Hfresh. apply list_elem_of_In, in_map_iff. exists (k', v). auto.
Qed.

(** X10. [stableStringify] does not depend on the order in which an
    object lists its keys: where the comparator tells any two distinct
    keys apart, two objects with the same entries in different order are
    rendered to the same text. *)
Theorem stableStringify_ignores_key_order (props props' : Props) :
  NoDup (List.map fst props) -> Permutation props props' ->
  stableStringify cmp (JObj props) = stableStringify cmp (JObj props').
Proof.
  intros Hnd Hperm.
  assert (NoDup (List.map fst props')) as Hnd'
    by now rewrite <- (Permutation_map fst Hperm).
  cbn [stableStringify].
  rewrite <- (sortBy_of_permutation _ _ (Permutation_map fst Hperm)).
  do 2 f_equal. f_equal.
  apply List.map_ext_in. intros k Hk.
  apply (Permutation_in _ (sortBy_perm _)) in Hk.
  apply in_map_iff in Hk as [[k0 v] [Heq Hin]]. cbn in Heq. subst k0.
  rewrite (lookupRendered_in (stableStringify cmp) props k v Hnd Hin).
  rewrite (lookupRendered_in (stableStringify cmp) props' k v Hnd'); [reflexivity|].
  now apply (Permutation_in _ Hperm).
Qed.

End StableStringifyFacts.

(** ** The governance debt aggregator: projection, lifecycle tags, counts *)

Section GovernanceMore.
Import Json ArchRepo ArchRepoRuns RelRepo Ea Governance GovernanceTerms.
Context {api : RelationshipRepositoryApi} {validators : Validators api}.

Lemma projectObject_cases (now : string) (obj : EaObject.t) :
  match projectObject now obj with
  | Some (c, element) =>
      id element = EaObject.id obj
      /\ elementType element = toBackendElementType (EaObject.type obj)
      /\ elementType element = expectedElementType c
      /\ In (elementType element) backendTypes
  | None =>
      ~ In (toBackendElementType (EaObject.type obj)) backendTypes
      /\ toBackendElementType (EaObject.type obj) = EaObject.type obj
  end.
Proof.
  unfold projectObject, toBackendElementType.
  destruct (String.eqb_spec (EaObject.type obj) "Capability") as [->|H1];
    [cbn; tauto|].
  destruct (String.eqb_spec (EaObject.type obj) "CapabilityCategory") as [->|H2];
    [cbn; tauto|].
  destruct (String.eqb_spec (EaObject.type obj) "SubCapability") as [->|H3];
    [cbn; tauto|].
  destruct (String.eqb_spec (EaObject.type obj) "Application") as [->|H4];
    [cbn; tauto|].
  destruct (String.eqb_spec (EaObject.type obj) "Technology") as [->|H5];
    [cbn; tauto|].
  destruct (String.eqb_spec (EaObject.type obj) "BusinessProcess") as [->|H6];
    [cbn; tauto|].
  destruct (String.eqb_spec (EaObject.type obj) "Programme") as [->|H7];
    [cbn; tauto|].
  cbn [orb]. split; [|reflexivity].
  cbn [In backendTypes]. intros [H|[H|[H|[H|[H|[]]]]]]; congruence.
Qed.

Lemma projectObject_fits now obj c element :
  projectObject now obj = Some (c, element) ->
  id element = EaObject.id obj
  /\ elementType element = expectedElementType c
  /\ elementType element = toBackendElementType (EaObject.type obj).
Proof.
  intros H. pose proof (projectObject_cases now obj) as Hc. rewrite H in Hc. tauto.
Qed.

(** X11. The object loop and the relationship loop classify types
    alike: an object is projected into a typed collection exactly when
    [toBackendElementType] maps its type to one of the five element
    types, and the projected element then carries the object's id and
    that element type, which is the one its collection expects.  Any
    other type is left as it is by [toBackendElementType] and has no
    projection. *)
Theorem projection_follows_backend_type (now : string) (obj : EaObject.t) :
  match projectObject now obj with
  | Some (c, element) =>
      id element = EaObject.id obj
      /\ elementType element = toBackendElementType (EaObject.type obj)
      /\ elementType element = expectedElementType c
      /\ In (elementType element) backendTypes
  | None =>
      ~ In (toBackendElementType (EaObject.type obj)) backendTypes
      /\ toBackendElementType (EaObject.type obj) = EaObject.type obj
  end.
Proof. apply projectObject_cases. Qed.

Lemma objectLoop_missing lifecycleCoverage now objs : forall acc,
  snd (fold_left (objectStep lifecycleCoverage now) objs acc)
  = snd acc
    ++ (if optStringIs lifecycleCoverage "Both"
        then List.map EaObject.id (List.filter lacksLifecycleTag objs)
        else []).
Proof.
  induction objs as [|obj objs IH]; intros [repo missing]; cbn [fold_left].
  { cbn. destruct (optStringIs _ _); now rewrite app_nil_r. }
  rewrite IH. cbn [List.filter]. unfold objectStep, lacksLifecycleTag.
  destruct (optStringIs lifecycleCoverage "Both"); cbn [andb].
  - destruct (notDeleted _); cbn [andb].
    + destruct (falsyState _);
        destruct (projectObject now obj) as [[c element]|]; cbn [snd List.map];
        now rewrite <- ?app_assoc.
    + destruct (projectObject now obj) as [[c element]|]; reflexivity.
  - destruct (projectObject now obj) as [[c element]|]; reflexivity.
Qed.

(** X12. Lifecycle tags are asked for only under the coverage Both.
    Then the ids reported as missing a tag are, in order, those of the
    objects that are not marked deleted and have no lifecycle state,
    objects without a typed collection included; under any other
    coverage, or none, the list is empty. *)
Theorem lifecycle_tags_checked_only_under_both
    (eaRepository : EaRepository) (now : string) (lifecycleCoverage : option string) :
  let debt := buildGovernanceDebt eaRepository now lifecycleCoverage in
  lifecycleTagMissingIds debt
  = (if optStringIs lifecycleCoverage "Both"
     then List.map EaObject.id
            (List.filter lacksLifecycleTag (Js.values (objects eaRepository)))
     else [])
  /\ lifecycleTagMissingCount (summary debt) = length (lifecycleTagMissingIds debt).
Proof.
  cbv zeta. unfold buildGovernanceDebt.
  pose proof (objectLoop_missing lifecycleCoverage now (Js.values (objects eaRepository))
                (createArchitectureRepository, [])) as Hmissing.
  destruct (fold_left _ _ _) as [repo missing]. cbn [snd app] in Hmissing.
  destruct (relationshipLoop _ _ _ _ _ _) as [store failures].
  cbn [lifecycleTagMissingIds summary lifecycleTagMissingCount].
  split; [exact Hmissing | reflexivity].
Qed.

Lemma objectLoop_lookup lifecycleCoverage now k objs : forall repo missing,
  getElementById k (fst (fold_left (objectStep lifecycleCoverage now) objs (repo, missing)))
  = match getElementById k repo with
    | Some e => Some e
    | None => firstProjection now k objs
    end.
Proof.
  induction objs as [|obj objs IH]; intros repo missing; cbn [fold_left firstProjection].
  { cbn [fst]. now destruct (getElementById k repo). }
  unfold objectStep at 2.
  destruct (projectObject now obj) as [[c element]|] eqn:Hproj; [|apply IH].
  destruct (projectObject_fits now obj c element Hproj) as (Hid & Hty & _).
  rewrite IH. unfold getElementById.
  destruct (addElement_cases c element repo) as [[Hfail ->]|(Hfresh & _ & ->)].
  - rewrite addElement_result, Hty, String.eqb_refl in Hfail.
    destruct (Js.has (id element) (byId repo)) eqn:Hhas; [|now contradiction Hfail].
    apply has_true_iff in Hhas as [e0 He0]. rewrite Hid in He0.
    destruct (String.eqb_spec k (EaObject.id obj)) as [->|_]; [now rewrite He0|reflexivity].
  - cbn [snd byId setById]. rewrite Hid in *.
    destruct (String.eqb_spec k (EaObject.id obj)) as [->|Hk].
    + now rewrite get_set_eq, Hfresh.
    + rewrite get_set_ne by congruence. reflexivity.
Qed.

(** X13. What the typed store of a debt computation holds: an id
    resolves to the projection of the first object that carries the id
    and has a typed collection.  Objects of other types are left out,
    and of several objects with one id only the first is stored, the
    failed insertions of the others passing unreported. *)
Theorem typed_store_holds_first_projection
    (eaRepository : EaRepository) (now : string) (lifecycleCoverage : option string)
    (k : string) :
  getElementById k (typedStoreOf eaRepository now lifecycleCoverage)
  = firstProjection now k (Js.values (objects eaRepository)).
Proof.
  unfold typedStoreOf. now rewrite objectLoop_lookup.
Qed.

Lemma firstProjection_absent now k entries :
  (forall k' obj, In (k', obj) entries -> EaObject.id obj = k') ->
  ~ In k (Js.keys entries) ->
  firstProjection now k (Js.values entries) = None.
Proof.
  induction entries as [|[k' obj] entries IH]; intros Hkeyed Hfresh; [reflexivity|].
  cbn [Js.values List.map snd firstProjection].
  assert (String.eqb k (EaObject.id obj) = false) as Hne.
  { apply String.eqb_neq. rewrite (Hkeyed k' obj (or_introl eq_refl)).
    intros ->. apply Hfresh. now left. }
  rewrite Hne.
  assert (firstProjection now k (Js.values entries) = None) as Hrest.
  { apply IH; [intros ? ? ?; apply Hkeyed; now right|].
    intros Hin. apply Hfresh. now right. }
  unfold Js.values in Hrest. rewrite Hrest.
  now destruct (projectObject now obj) as [[c element]|].
Qed.

Lemma firstProjection_keyed now k entries :
  NoDup (Js.keys entries) ->
  (forall k' obj, In (k', obj) entries -> EaObject.id obj = k') ->
  firstProjection now k (Js.values entries)
  = match Js.get k entries with
    | Some obj => option_map snd (projectObject now obj)
    | None => None
    end.
Proof.
  induction entries as [|[k' obj] entries IH]; intros Hnd Hkeyed; [reflexivity|].
  cbn [Js.keys List.map fst] in Hnd. apply NoDup_cons in Hnd as [Hfresh Hnd].
  assert (EaObject.id obj = k') as Hid by (apply Hkeyed; now left).
  assert (forall k0 o, In (k0, o) entries -> EaObject.id o = k0) as Hrest
    by (intros ? ? ?; apply Hkeyed; now right).
  cbn [Js.values List.map snd firstProjection Js.get]. rewrite Hid.
  specialize (IH Hnd Hrest). unfold Js.values in IH.
  destruct (String.eqb_spec k k') as [->|Hk].
  - destruct (projectObject now obj) as [[c element]|]; [reflexivity|].
    cbn [option_map].
    apply (firstProjection_absent now k' entries Hrest).
    intros Hin. apply Hfresh. now apply list_elem_of_In.
  - rewrite IH. now destruct (projectObject now obj) as [[c element]|].
Qed.

Lemma trim_backend_type t : In t backendTypes -> Js.trim t = t.
Proof.
  cbn [In backendTypes]. intros [<-|[<-|[<-|[<-|[<-|[]]]]]]; reflexivity.
Qed.

Lemma resolved_type_of_object eaRepository now lifecycleCoverage k e :
  keyedById eaRepository ->
  getElementById k (typedStoreOf eaRepository now lifecycleCoverage) = Some e ->
  elementType e = Js.trim (toBackendElementType (typeOfObject eaRepository k)).
Proof.
  intros [Hnd Hkeyed] Hget. unfold typedStoreOf in Hget.
  rewrite objectLoop_lookup in Hget. cbn in Hget.
  rewrite (firstProjection_keyed now k _ Hnd Hkeyed) in Hget.
  unfold typeOfObject. destruct (Js.get k (objects eaRepository)) as [obj|]; [|discriminate].
  destruct (projectObject now obj) as [[c element]|] eqn:Hproj; [|discriminate].
  cbn in Hget. injection Hget as ->.
  pose proof (projectObject_cases now obj) as Hc. rewrite Hproj in Hc.
  destruct Hc as (_ & Hty & _ & Hin).
  rewrite <- Hty. symmetry. now apply trim_backend_type.
Qed.

(** X14. The endpoint types written on a record that is handed to
    [addRelationship] are the element types of the elements that its
    endpoint ids resolve to in the typed store, where the objects map is
    keyed by object id. *)
Theorem attempted_record_types_match_store
    (eaRepository : EaRepository) (now : string) (lifecycleCoverage : option string)
    (i : nat) (rel : EaRelationship.t) (rec : RelationshipRecord) :
  keyedById eaRepository ->
  projectRelationship eaRepository
    (supportedIdsOf (typedStoreOf eaRepository now lifecycleCoverage)) now i rel
  = Some rec ->
  exists src tgt,
    getElementById (sourceElementId rec)
      (typedStoreOf eaRepository now lifecycleCoverage) = Some src
    /\ elementType src = sourceElementType rec
    /\ getElementById (targetElementId rec)
         (typedStoreOf eaRepository now lifecycleCoverage) = Some tgt
    /\ elementType tgt = targetElementType rec.
Proof.
  intros Hkeyed Hrec.
  set (store := typedStoreOf eaRepository now lifecycleCoverage) in *.
  pose proof (typedStoreOf_reachable eaRepository now lifecycleCoverage) as Hreach.
  fold store in Hreach.
  unfold projectRelationship in Hrec.
  destruct (String.eqb_spec (Js.trim (EaRelationship.fromId rel)) EmptyString) as [|Ha];
    [discriminate|].
  destruct (String.eqb_spec (Js.trim (EaRelationship.toId rel)) EmptyString) as [|Hb];
    [discriminate|].
  cbn [orb] in Hrec.
  destruct (supported (supportedIdsOf store) (Js.trim (EaRelationship.fromId rel)))
    eqn:Hsa; [|discriminate].
  destruct (supported (supportedIdsOf store) (Js.trim (EaRelationship.toId rel)))
    eqn:Hsb; [|discriminate].
  cbn [negb orb] in Hrec. injection Hrec as <-.
  cbn [sourceElementId targetElementId sourceElementType targetElementType].
  apply (supported_iff_resolves store _ Hreach) in Hsa as [_ [src Hsrc]].
  apply (supported_iff_resolves store _ Hreach) in Hsb as [_ [tgt Htgt]].
  exists src, tgt.
  split; [exact Hsrc|]. split.
  { subst store. now apply (resolved_type_of_object _ now lifecycleCoverage). }
  split; [exact Htgt|].
  subst store. now apply (resolved_type_of_object _ now lifecycleCoverage).
Qed.

Lemma orElse_truthy v d : truthy d = true -> truthy (orElse v d) = true.
Proof.
  intros Hd. unfold orElse. destruct v as [x|]; [|exact Hd].
  destruct (truthy x) eqn:Hx; [exact Hx | exact Hd].
Qed.

Lemma strOr_filled s d : d <> EmptyString -> truthy (JStr (strOr s d)) = true.
Proof.
  intros Hd. unfold strOr. cbn [truthy].
  destruct (String.eqb_spec s EmptyString) as [_|Hs]; apply negb_true_iff, String.eqb_neq;
    assumption.
Qed.

Lemma displayName_filled attrs objId :
  objId <> EmptyString -> truthy (JStr (displayName attrs objId)) = true.
Proof.
  intros Hid. unfold displayName.
  destruct (getProp "name" attrs) as [[| | | |s| |]|];
    try (cbn [truthy]; apply negb_true_iff, String.eqb_neq; exact Hid).
  now apply strOr_filled.
Qed.

Lemma orElse_defined v d : isUndefined d = false -> isUndefined (orElse v d) = false.
Proof.
  intros Hd. unfold orElse. destruct v as [x|]; [|exact Hd].
  destruct (truthy x) eqn:Hx; [|exact Hd]. now destruct x.
Qed.

Lemma governed_fields_carried attrs now name layer extra :
  let e := {| id := EmptyString; elementType := EmptyString;
              fields := governedFields attrs now name layer ++ extra |} in
  Forall (fun col =>
            Catalog.dataIndex col <> "lifecycleEndDate" ->
            carries e (Catalog.dataIndex col)) Catalog.baseColumns.
Proof.
  cbv zeta. unfold Catalog.baseColumns, carries.
  repeat (apply List.Forall_cons;
          [intros Hother;
           first [ left; reflexivity
                 | right; left; reflexivity
                 | exfalso; apply Hother; reflexivity
                 | right; right; eexists; split;
                   [reflexivity | first [reflexivity | now apply orElse_defined]] ]|]).
  apply List.Forall_nil.
Qed.

Lemma strOrUndefined_defined v :
  isUndefined (strOrUndefined (getString v)) = false
  <-> exists s, v = Some (JStr s) /\ s <> EmptyString.
Proof.
  unfold strOrUndefined, getString. split.
  - destruct v as [[| | | |s| |]|]; cbn; try discriminate.
    destruct (String.eqb_spec s EmptyString) as [->|Hs]; [discriminate|]. eauto.
  - intros (s & -> & Hs). apply String.eqb_neq in Hs. now rewrite Hs.
Qed.

(** X15. Every element that the object loop projects has a value, other
    than [undefined], under each base column of the catalog tables but
    the lifecycle end date, which is [undefined] unless the object holds
    a non-empty string there.  Five of its fields are filled by
    fall-backs: the lifecycle status by Active and the approval status
    by Draft, so these two are never empty; the name by the object id
    and the creation and modification times by the time of the
    computation, so these are filled when the id and the time are. *)
Theorem projected_elements_carry_defaults (now : string) (obj : EaObject.t) :
  match projectObject now obj with
  | Some (c, element) =>
      Forall (fun col =>
                Catalog.dataIndex col <> "lifecycleEndDate" ->
                carries element (Catalog.dataIndex col)) Catalog.baseColumns
      /\ (carries element "lifecycleEndDate"
          <-> exists s,
                getProp "lifecycleEndDate" (attrsOrEmpty (EaObject.attributes obj))
                = Some (JStr s)
                /\ s <> EmptyString)
      /\ getProp "lifecycleEndDate" (fields element) <> None
      /\ filled element "lifecycleStatus"
      /\ filled element "approvalStatus"
      /\ (EaObject.id obj <> EmptyString -> filled element "name")
      /\ (now <> EmptyString ->
          filled element "createdAt" /\ filled element "lastModifiedAt")
  | None => True
  end.
Proof.
  assert (forall elementType layer extra,
             let element :=
               {| id := EaObject.id obj; elementType := elementType;
                  fields := governedFields (attrsOrEmpty (EaObject.attributes obj)) now
                              (displayName (attrsOrEmpty (EaObject.attributes obj))
                                 (EaObject.id obj)) layer ++ extra |} in
             Forall (fun col =>
                       Catalog.dataIndex col <> "lifecycleEndDate" ->
                       carries element (Catalog.dataIndex col)) Catalog.baseColumns
             /\ (carries element "lifecycleEndDate"
                 <-> exists s,
                       getProp "lifecycleEndDate" (attrsOrEmpty (EaObject.attributes obj))
                       = Some (JStr s)
                       /\ s <> EmptyString)
             /\ getProp "lifecycleEndDate" (fields element) <> None
             /\ filled element "lifecycleStatus"
             /\ filled element "approvalStatus"
             /\ (EaObject.id obj <> EmptyString -> filled element "name")
             /\ (now <> EmptyString ->
                 filled element "createdAt" /\ filled element "lastModifiedAt")) as Hall.
  { intros elementType layer extra. cbv zeta.
    split; [exact (governed_fields_carried _ now _ layer extra)|].
    split.
    { rewrite <- strOrUndefined_defined. unfold carries. cbn [fields]. split.
      - intros [Hid | [Hty | (v & Hv & Hdef)]]; [discriminate Hid | discriminate Hty |].
        cbn in Hv. injection Hv as <-. exact Hdef.
      - intros Hdef. right. right. eexists. split; [reflexivity | exact Hdef]. }
    split; [discriminate|].
    unfold filled. cbn [fields].
    split; [eexists; split; [reflexivity | now apply orElse_truthy]|].
    split; [eexists; split; [reflexivity | now apply orElse_truthy]|].
    split.
    - intros Hid. eexists. split; [reflexivity | now apply displayName_filled].
    - intros Hnow. split; eexists; (split; [reflexivity | now apply strOr_filled]). }
  unfold projectObject. cbv zeta.
  repeat match goal with
         | |- context [String.eqb (EaObject.type obj) ?s] =>
             destruct (String.eqb (EaObject.type obj) s)
         end; cbn [orb]; try exact I; apply Hall.
Qed.

End GovernanceMore.

(** ** The provider: fingerprint keys, mounting, history roots, failed undo *)

Section ProviderMore.
Import Json ArchRepo RelRepo Ea Governance Metadata Provider Mount GateTerms.
Context {platform : Platform} {env : Environment}.
Context {api : RelationshipRepositoryApi} {validators : Validators api}.

(** X16. The key that the gate compares is a faithful fingerprint: two
    debt summaries have the same key text exactly when their five counts
    agree, so a comparison of keys never confuses two different debts. *)
Theorem debt_key_determines_the_counts (s s' : GovernanceDebtSummary) :
  debtKey s = debtKey s' <-> fingerprint s = fingerprint s'.
Proof. split; [apply debtKey_inj | apply debtKey_of_fingerprint]. Qed.

Lemma setGate_self (st : State) :
  setGate (lastSaveBlockedKey st) (saveBlockedModal st) (lastAdvisoryWarnKey st) st = st.
Proof. now destruct st. Qed.

Lemma strictGate_shape meta debt st :
  exists k m w, fst (fst (strictGate meta debt st)) = setGate k m w st.
Proof.
  unfold strictGate.
  destruct (blocked _); [destruct (keyDiffers _ _)|destruct (keySet _)]; cbn [fst];
    eauto; eexists _, _, _; symmetry; apply setGate_self.
Qed.

Lemma advisoryGate_shape meta debt st :
  exists k m w, fst (advisoryGate meta debt st) = setGate k m w st.
Proof.
  unfold advisoryGate.
  destruct (_ && _); destruct (Nat.eqb _ 0); cbn [fst]; eauto;
    eexists _, _, _; symmetry; apply setGate_self.
Qed.

(** With a repository and metadata at hand, the effect leaves the state
    that [trackHistory] leaves, up to the three fields of the gate. *)
Lemma settle_tracks updatedAt asOf st repo meta :
  eaRepository st = Some repo -> metadata st = Some meta ->
  exists k m w,
    fst (settle updatedAt asOf st)
    = setGate k m w (trackHistory (snapshot repo meta updatedAt) st).
Proof.
  intros Hrepo Hmeta. unfold settle. rewrite Hrepo, Hmeta.
  set (st1 := trackHistory _ st).
  set (debt := buildGovernanceDebt _ _ _).
  destruct (String.eqb (governanceMode meta) "Strict") eqn:Hs; cbn [orb].
  - destruct (strictGate_shape meta debt st1) as (k & m & w & Hg).
    destruct (strictGate meta debt st1) as [[st2 events2] returned]. cbn [fst] in Hg.
    subst st2. destruct returned; [cbn [fst]; eauto|].
    destruct (String.eqb (governanceMode meta) "Advisory").
    + destruct (advisoryGate_shape meta debt (setGate k m w st1)) as (k' & m' & w' & Ha).
      destruct (advisoryGate meta debt (setGate k m w st1)) as [st3 events3].
      cbn [fst] in *. subst st3. eauto.
    + cbn [fst]. eauto.
  - destruct (String.eqb (governanceMode meta) "Advisory").
    + destruct (advisoryGate_shape meta debt st1) as (k' & m' & w' & Ha).
      destruct (advisoryGate meta debt st1) as [st3 events3]. cbn [fst] in *. eauto.
    + cbn [fst]. eexists _, _, _. symmetry. apply setGate_self.
Qed.

(** X17. A stored snapshot that cannot be restored is lost at start-up:
    the provider mounts with nothing loaded, exactly as if storage were
    empty, and its first effect run removes the stored item. *)
Theorem unreadable_snapshot_is_removed_at_mount
    (raw : Raw) (updatedAt asOf : string) :
  deserializeRaw raw = None ->
  initialState (Some raw) = initialState None
  /\ settle updatedAt asOf (initialState (Some raw))
     = (initialState None, [StorageRemoveItem]).
Proof.
  intros Hbad. unfold initialState. rewrite Hbad. split; reflexivity.
Qed.

Lemma pushBounded_first (x : Raw) : pushBounded [] x = [x].
Proof. reflexivity. Qed.

(** X18. Mounting on a stored snapshot and letting the effect run
    records the stored text as an undo entry whenever the fresh
    serialization differs from it, as it does once the clock reading of
    [updatedAt] has moved on: the undo flag is then set although nothing
    was edited.  Only when the fresh text equals the stored one does the
    history stay empty. *)
Theorem reload_records_stored_snapshot
    (raw : Raw) (repo : EaRepository) (meta : EaRepositoryMetadata)
    (updatedAt asOf : string) :
  deserializeRaw raw = Some (repo, meta) ->
  let st := fst (settle updatedAt asOf (initialState (Some raw))) in
  eaRepository st = Some repo /\ metadata st = Some meta
  /\ lastSerialized st = Some (snapshot repo meta updatedAt)
  /\ redoStack st = []
  /\ (raw = snapshot repo meta updatedAt -> undoStack st = [] /\ canUndo st = false)
  /\ (raw <> snapshot repo meta updatedAt -> undoStack st = [raw] /\ canUndo st = true).
Proof.
  intros Hok. cbv zeta. unfold initialState. rewrite Hok.
  set (st0 := {| eaRepository := Some repo |}).
  destruct (settle_tracks updatedAt asOf st0 repo meta eq_refl eq_refl)
    as (k & m & w & ->).
  unfold trackHistory. cbn [suppressHistory lastSerialized st0 negb].
  destruct (Raw_eq_dec raw (snapshot repo meta updatedAt)) as [Heq|Hne]; cbn.
  - repeat split; auto; contradiction.
  - repeat split; auto; contradiction.
Qed.

Lemma load_succeeds text st repo meta :
  deserializeRaw text = Some (repo, meta) ->
  loadRepositoryFromJsonText text st
  = (None, setModel (Some repo) (Some meta) (setHistory [] [] false false st)).
Proof.
  unfold deserializeRaw, loadRepositoryFromJsonText.
  destruct (JSON_parse text) as [value|]; [|discriminate].
  destruct (tryDeserializeRepository value) as [error|[repo' meta']]; [discriminate|].
  now intros [= -> ->].
Qed.

(** X19. Loading a repository empties both stacks, but it leaves the
    record of the last serialization in place.  When a repository was
    open and the effect had run on it, the effect that follows the load
    therefore pushes the snapshot of that repository, and an undo then
    puts the repository that was open before the load, in its carried
    form, and its metadata back in place of the loaded one; after
    [clearRepository] and its effect the record is gone and the effect
    that follows a load pushes nothing. *)
Theorem load_keeps_previous_snapshot_undoable
    (text : Raw) (before : State) (r0 : EaRepository) (m0 : EaRepositoryMetadata)
    (t0 asOf0 : string) (repo : EaRepository) (meta : EaRepositoryMetadata)
    (updatedAt asOf : string) :
  codecLaws -> rebuilds m0 r0 ->
  eaRepository before = Some r0 -> metadata before = Some m0 ->
  deserializeRaw text = Some (repo, meta) ->
  snapshot r0 m0 t0 <> snapshot repo meta updatedAt ->
  let st := fst (settle t0 asOf0 before) in
  let loaded := snd (loadRepositoryFromJsonText text st) in
  let settled := fst (settle updatedAt asOf loaded) in
  eaRepository st = Some r0
  /\ fst (loadRepositoryFromJsonText text st) = None
  /\ eaRepository loaded = Some repo /\ metadata loaded = Some meta
  /\ undoStack loaded = [] /\ redoStack loaded = []
  /\ canUndo loaded = false /\ canRedo loaded = false
  /\ undoStack settled = [snapshot r0 m0 t0] /\ canUndo settled = true
  /\ fst (undo settled) = true
  /\ eaRepository (snd (undo settled)) = Some (carried r0)
  /\ metadata (snd (undo settled)) = Some m0
  /\ (let cleared := fst (settle updatedAt asOf (clearRepository st)) in
      let reloaded := snd (loadRepositoryFromJsonText text cleared) in
      lastSerialized cleared = None
      /\ undoStack (fst (settle updatedAt asOf reloaded)) = []).
Proof.
  intros laws Hreb Hr0 Hm0 Hok Hne. cbv zeta.
  destruct (settled_record t0 asOf0 before r0 m0 Hr0 Hm0) as (Hheld & _ & Hlast & Hsup).
  set (st := fst (settle t0 asOf0 before)) in *.
  set (s0 := snapshot r0 m0 t0) in *.
  split; [exact Hheld|].
  rewrite (load_succeeds text st repo meta Hok). cbn [fst snd].
  set (loaded := setModel (Some repo) (Some meta) (setHistory [] [] false false st)).
  destruct (settle_tracks updatedAt asOf loaded repo meta eq_refl eq_refl)
    as (k & m & w & Hsettled).
  assert (trackHistory (snapshot repo meta updatedAt) loaded
          = setTracking (Some (snapshot repo meta updatedAt)) false
              (setHistory [s0] [] true false loaded)) as Htrack.
  { unfold trackHistory.
    change (suppressHistory loaded) with (suppressHistory st).
    change (lastSerialized loaded) with (lastSerialized st).
    rewrite Hsup, Hlast. cbn [negb].
    destruct (Raw_eq_dec s0 (snapshot repo meta updatedAt)); [contradiction|reflexivity]. }
  rewrite Htrack in Hsettled.
  repeat (split; [reflexivity|]).
  split; [now rewrite Hsettled|]. split; [now rewrite Hsettled|].
  destruct (undo_applies (fst (settle updatedAt asOf loaded)) [] s0 (carried r0) m0)
    as [Hret Hh];
    [now rewrite Hsettled | now apply deserialize_snapshot_carried |].
  unfold historyOf in Hh. injection Hh as Hr Hm _ _ _ _.
  split; [exact Hret|]. split; [exact Hr|]. split; [exact Hm|].
  rewrite (settle_history_absent updatedAt asOf (clearRepository st)) by now left.
  cbn [fst]. split; [reflexivity|].
  rewrite (load_succeeds text _ repo meta Hok). cbn [snd].
  set (reloaded := setModel _ _ _).
  destruct (settle_tracks updatedAt asOf reloaded repo meta eq_refl eq_refl)
    as (k' & m' & w' & ->).
  unfold trackHistory. cbn. destruct (suppressHistory st); reflexivity.
Qed.

(** X20. An undo whose top entry cannot be restored answers false and
    leaves the model, the metadata, the last serialization and both
    flags as they were, but the entry is gone from the undo stack and
    the current snapshot has been put on the redo stack: the flags may
    now disagree with the stacks.  A redo whose first entry cannot be
    restored fails in the mirrored way. *)
Theorem failed_undo_still_consumes_entry (st : State) (rest : list Raw) (x : Raw) :
  deserializeRaw x = None ->
  (undoStack st = rest ++ [x] ->
   undo st
   = (false,
      setHistory rest
        (match lastSerialized st with
         | Some current => unshiftBounded (redoStack st) current
         | None => redoStack st
         end)
        (canUndo st) (canRedo st) st))
  /\ (redoStack st = x :: rest ->
      redo st
      = (false,
         setHistory
           (match lastSerialized st with
            | Some current => pushBounded (undoStack st) current
            | None => undoStack st
            end)
           rest (canUndo st) (canRedo st) st)).
Proof.
  intros Hbad. split; intros Hstack.
  - unfold undo. rewrite Hstack, last_snoc, removelast_last.
    unfold applySerialized. now rewrite Hbad.
  - unfold redo. rewrite Hstack. unfold applySerialized. now rewrite Hbad.
Qed.

Lemma pushBounded_nonEmpty (stack : list Raw) x : nonEmpty (pushBounded stack x) = true.
Proof.
  unfold pushBounded. destruct (Nat.ltb_spec HISTORY_LIMIT (length (stack ++ [x]))) as [H|_].
  - rewrite List.length_app in H. cbn in H. unfold HISTORY_LIMIT in H.
    destruct stack as [|a [|b stack]]; cbn in *; try lia; reflexivity.
  - now destruct stack.
Qed.

Lemma trackHistory_flags next st :
  flagsAgree st -> flagsAgree (trackHistory next st).
Proof.
  intros [Hu Hr]. unfold trackHistory, flagsAgree.
  destruct (suppressHistory st); cbn; [auto|].
  destruct (lastSerialized st) as [prev|]; [|cbn; auto].
  destruct (Raw_eq_dec prev next); cbn; [auto|].
  now rewrite pushBounded_nonEmpty.
Qed.

(** X21. The published flags [canUndo] and [canRedo] tell whether the
    stacks hold an entry, and every operation keeps it so: the effect,
    the update boundary, the three operations that start a new history
    root, and an undo or a redo that succeeds or finds its stack empty.
    (An undo or redo that fails on an entry it cannot restore is the one
    exception, see the property before.) *)
Theorem history_flags_follow_the_stacks (st : State) :
  flagsAgree st ->
  (forall updatedAt asOf, flagsAgree (fst (settle updatedAt asOf st)))
  /\ (forall next, flagsAgree (fst (setEaRepository next st)))
  /\ (forall text, flagsAgree (snd (loadRepositoryFromJsonText text st)))
  /\ (forall input now, flagsAgree (snd (createNewRepository input now st)))
  /\ flagsAgree (clearRepository st)
  /\ (fst (undo st) = true \/ undoStack st = [] -> flagsAgree (snd (undo st)))
  /\ (fst (redo st) = true \/ redoStack st = [] -> flagsAgree (snd (redo st))).
Proof.
  intros Hflags. pose proof Hflags as [Hu Hr].
  split; [|split; [|split; [|split; [|split; [|split]]]]].
  - intros updatedAt asOf.
    destruct (eaRepository st) as [repo|] eqn:Hrepo;
      [destruct (metadata st) as [meta|] eqn:Hmeta|].
    + destruct (settle_tracks updatedAt asOf st repo meta Hrepo Hmeta) as (k & m & w & ->).
      apply (trackHistory_flags (snapshot repo meta updatedAt) st Hflags).
    + rewrite settle_history_absent by auto. exact Hflags.
    + rewrite settle_history_absent by auto. exact Hflags.
  - intros next. unfold setEaRepository.
    destruct (resolveAction next (eaRepository st)); [|exact Hflags].
    destruct (negb _); [exact Hflags|]. destruct (ScopePolicy.scopeIs _ _); exact Hflags.
  - intros text. unfold loadRepositoryFromJsonText.
    destruct (JSON_parse text); [|exact Hflags].
    destruct (tryDeserializeRepository _) as [?|[repo meta]]; [exact Hflags|].
    split; reflexivity.
  - intros input now. unfold createNewRepository.
    destruct (validateRepositoryMetadata _); [exact Hflags|]. split; reflexivity.
  - split; reflexivity.
  - intros Hcase. unfold undo in *.
    destruct (list.last (undoStack st)) as [prevRaw|] eqn:Hlast.
    + destruct Hcase as [Hok|Hempty]; [|rewrite Hempty in Hlast; discriminate].
      unfold applySerialized in *.
      destruct (deserializeRaw prevRaw) as [[repo meta]|]; [|discriminate Hok].
      split; reflexivity.
    + apply last_None in Hlast. split; cbn; [now rewrite Hlast | exact Hr].
  - intros Hcase. unfold redo in *.
    destruct (redoStack st) as [|nextRaw redo'] eqn:Hstack.
    + split; cbn; [exact Hu | reflexivity].
    + destruct Hcase as [Hok|Hempty]; [|discriminate].
      unfold applySerialized in *.
      destruct (deserializeRaw nextRaw) as [[repo meta]|]; [|discriminate Hok].
      split; reflexivity.
Qed.

End ProviderMore.

(** ** The Strict gate over runs of settles *)

Section StrictMore.
Import Json ArchRepo RelRepo Ea Governance Metadata Provider Mount GateTerms GateRuns.
Context {platform : Platform} {env : Environment}.
Context {api : RelationshipRepositoryApi} {validators : Validators api}.

Lemma count_app p l1 l2 : count p (l1 ++ l2) = count p l1 + count p l2.
Proof. unfold count. now rewrite List.filter_app, List.length_app. Qed.

Lemma debtKey_nonempty s : String.eqb (debtKey s) EmptyString = false.
Proof.
  unfold debtKey. destruct (pretty (mandatoryFindingCount s)); reflexivity.
Qed.

Lemma keySet_blockedAfter prev :
  keySet (blockedAfter prev)
  = match prev with Some p => blocked p | None => false end.
Proof.
  destruct prev as [p|]; [|reflexivity]. cbn [blockedAfter].
  destruct (blocked p); [|reflexivity]. cbn [keySet]. now rewrite debtKey_nonempty.
Qed.

Lemma reported_iff_key_differs prev s :
  blocked s && keyDiffers (blockedAfter prev) (debtKey s) = blockReported prev s.
Proof.
  unfold blockReported. destruct (blocked s); [cbn [andb]|reflexivity].
  destruct prev as [p|]; [|reflexivity]. cbn [blockedAfter fingerprintChanged].
  destruct (blocked p); cbn [negb orb keyDiffers]; [|reflexivity].
  destruct (Fingerprint_eq_dec (fingerprint p) (fingerprint s)) as [Heq|Hne].
  - now rewrite (debtKey_of_fingerprint _ _ Heq), String.eqb_refl.
  - destruct (String.eqb_spec (debtKey p) (debtKey s)) as [Hk|_]; [|reflexivity].
    apply debtKey_inj in Hk. contradiction.
Qed.

(** What the Strict branch does to the trace and to the remembered key. *)
Lemma strictGate_spec meta debt st prev :
  lastSaveBlockedKey st = blockedAfter prev ->
  let s := summary debt in
  let gate := strictGate meta debt st in
  countLog "save.blocked" (snd (fst gate)) = (if blockReported prev s then 1 else 0)
  /\ count isModalError (snd (fst gate)) = (if blockReported prev s then 1 else 0)
  /\ count isReleaseMessage (snd (fst gate))
     = (if negb (blocked s) && match prev with Some p => blocked p | None => false end
        then 1 else 0)
  /\ countPersisted (snd (fst gate)) = 0
  /\ snd gate = blocked s
  /\ metadata (fst (fst gate)) = metadata st
  /\ lastSaveBlockedKey (fst (fst gate)) = blockedAfter (Some s).
Proof.
  intros Hkey. cbv zeta.
  rewrite <- (reported_iff_key_differs prev (summary debt)).
  rewrite <- (keySet_blockedAfter prev), <- Hkey.
  unfold strictGate. cbn [blockedAfter].
  destruct (blocked (summary debt)); cbn [andb negb].
  - destruct (keyDiffers _ _) eqn:Hk.
    + destruct (saveBlockedModal st); cbn; auto 10.
    + cbn. repeat split.
      unfold keyDiffers in Hk. rewrite Hkey in *.
      destruct (blockedAfter prev) as [k|]; [|discriminate].
      apply negb_false_iff, String.eqb_eq in Hk. now subst.
  - destruct (keySet (lastSaveBlockedKey st)) eqn:Hk.
    + destruct (saveBlockedModal st); cbn; auto 10.
    + cbn. repeat split. rewrite Hkey in *. rewrite keySet_blockedAfter in Hk.
      destruct prev as [p|]; [|reflexivity]. cbn. now rewrite Hk.
Qed.

Lemma commits_strict meta edits : forall st prev,
  metadata st = Some meta -> governanceMode meta = "Strict" ->
  lastSaveBlockedKey st = blockedAfter prev ->
  let debts := List.map (debtOfEdit meta) edits in
  let events := snd (commits edits st) in
  countLog "save.blocked" events = blockedEntries prev debts
  /\ count isModalError events = blockedEntries prev debts
  /\ count isReleaseMessage events = releases prev debts
  /\ countPersisted events = length (List.filter (fun s => negb (blocked s)) debts).
Proof.
  induction edits as [|e rest IH]; intros st prev Hmeta Hmode Hkey;
    [repeat split; reflexivity|].
  cbn [commits List.map blockedEntries releases List.filter]. unfold commit.
  set (st0 := setEaRepositoryUnsafe (Some (editRepo e)) st).
  assert (eaRepository st0 = Some (editRepo e)) as Hrepo0 by reflexivity.
  assert (metadata st0 = Some meta) as Hmeta0 by exact Hmeta.
  rewrite (settle_strict_eq _ _ _ _ _ Hrepo0 Hmeta0 Hmode). cbv zeta.
  set (debt := buildGovernanceDebt (editRepo e) (editAsOf e) (lifecycleCoverage meta)).
  set (st1 := trackHistory _ st0).
  destruct (trackHistory_keeps (snapshot (editRepo e) meta (editUpdatedAt e)) st0)
    as (Hm1 & _ & _ & Hk1). fold st1 in Hm1, Hk1.
  assert (lastSaveBlockedKey st1 = blockedAfter prev) as Hkey1
    by (rewrite Hk1; exact Hkey).
  destruct (strictGate_spec meta debt st1 prev Hkey1)
    as (Hlog & Hmodal & Hrel & Hper & Hret & Hm2 & Hk2).
  cbv zeta in *.
  change (debtOfEdit meta e) with (summary debt).
  destruct (strictGate meta debt st1) as [[st2 events2] returned]. cbn [fst snd] in *.
  specialize (IH st2 (Some (summary debt))).
  destruct IH as (IHlog & IHmodal & IHrel & IHper).
  { now rewrite Hm2, Hm1. }
  { exact Hmode. }
  { exact Hk2. }
  cbv zeta in *. subst returned.
  destruct (blocked (summary debt)) eqn:Hb; cbn [negb fst snd] in *;
    destruct (commits rest st2) as [st3 events3]; cbn [fst snd] in *;
    rewrite ?countLog_app, ?count_app, ?countPersisted_app,
      Hlog, Hmodal, Hrel, Hper, IHlog, IHmodal, IHrel, IHper;
    cbn; repeat split; lia.
Qed.

(** X22. In Strict mode, over any run of committed edits of a provider
    that remembers no blocked key, a [save.blocked] audit entry is
    written, and a blocking dialog opened, once for each settle that is
    blocked and either follows a settle that was not, or changes the
    fingerprint; the message that saving is enabled again is shown once
    for each settle that is not blocked and follows one that was; and
    the snapshot is written to storage by exactly the settles that are
    not blocked. *)
Theorem strict_gate_reports_each_blocked_episode
    (st : State) (meta : EaRepositoryMetadata) (edits : list Edit) :
  metadata st = Some meta -> governanceMode meta = "Strict" ->
  lastSaveBlockedKey st = None ->
  let debts := List.map (debtOfEdit meta) edits in
  let events := snd (commits edits st) in
  countLog "save.blocked" events = blockedEntries None debts
  /\ count isModalError events = blockedEntries None debts
  /\ count isReleaseMessage events = releases None debts
  /\ countPersisted events = length (List.filter (fun s => negb (blocked s)) debts).
Proof.
  intros Hmeta Hmode Hkey.
  exact (commits_strict meta edits st None Hmeta Hmode Hkey).
Qed.

Lemma pushBounded_ends (stack : list Raw) x :
  exists rest, pushBounded stack x = rest ++ [x].
Proof.
  unfold pushBounded. destruct (Nat.ltb HISTORY_LIMIT (length (stack ++ [x]))) eqn:H.
  - destruct stack as [|a stack]; [discriminate H|]. now exists stack.
  - now exists stack.
Qed.

(** X23. A save that Strict mode blocks is still recorded in the
    history.  On a provider that holds a repository and on which the
    effect has run, the effect of a blocked edit tracks history before
    it consults the gate: the snapshot of the repository held before
    the edit is pushed, the redo stack is emptied and the last
    serialization moves on to the blocked state, although nothing is
    written to storage; an undo then puts the repository held before
    the edit, in its carried form, back in place of the edited one. *)
Theorem blocked_save_is_still_recorded_in_history
    (meta : EaRepositoryMetadata) (e : Edit) (before : State)
    (r0 : EaRepository) (t0 asOf0 : string) :
  codecLaws -> rebuilds meta r0 ->
  eaRepository before = Some r0 -> metadata before = Some meta ->
  governanceMode meta = "Strict" ->
  snapshot r0 meta t0 <> snapshotOfEdit meta e ->
  blocked (debtOfEdit meta e) = true ->
  let st := fst (settle t0 asOf0 before) in
  eaRepository st = Some r0
  /\ persisted (snd (commit e st)) = false
  /\ eaRepository (fst (commit e st)) = Some (editRepo e)
  /\ undoStack (fst (commit e st)) = pushBounded (undoStack st) (snapshot r0 meta t0)
  /\ redoStack (fst (commit e st)) = []
  /\ canUndo (fst (commit e st)) = true
  /\ lastSerialized (fst (commit e st)) = Some (snapshotOfEdit meta e)
  /\ fst (undo (fst (commit e st))) = true
  /\ eaRepository (snd (undo (fst (commit e st)))) = Some (carried r0)
  /\ metadata (snd (undo (fst (commit e st)))) = Some meta.
Proof.
  intros laws Hreb Hr0 Hm0 Hmode Hne Hblocked. cbv zeta.
  destruct (settled_record t0 asOf0 before r0 meta Hr0 Hm0)
    as (Hheld & Hmeta & Hlast & Hsup).
  set (st := fst (settle t0 asOf0 before)) in *.
  set (s0 := snapshot r0 meta t0) in *.
  split; [exact Hheld|].
  pose proof (commit_history meta e st s0 Hmeta Hsup Hlast Hne) as Hh.
  unfold historyOf in Hh. injection Hh as Hr Hm Hu Hre Hl Hs.
  split.
  { unfold commit.
    rewrite (settle_strict_persisted (editUpdatedAt e) (editAsOf e)
               (setEaRepositoryUnsafe (Some (editRepo e)) st) (editRepo e) meta
               eq_refl Hmeta Hmode).
    unfold debtOfEdit in Hblocked. now rewrite Hblocked. }
  split; [exact Hr|]. split; [exact Hu|]. split; [exact Hre|]. split.
  { unfold commit.
    destruct (settle_tracks (editUpdatedAt e) (editAsOf e)
                (setEaRepositoryUnsafe (Some (editRepo e)) st) (editRepo e) meta
                eq_refl Hmeta) as (k & m & w & ->).
    unfold trackHistory.
    change (suppressHistory (setEaRepositoryUnsafe (Some (editRepo e)) st))
      with (suppressHistory st).
    change (lastSerialized (setEaRepositoryUnsafe (Some (editRepo e)) st))
      with (lastSerialized st).
    rewrite Hsup, Hlast. cbn [negb]. unfold snapshotOfEdit in Hne.
    destruct (Raw_eq_dec s0 _); [contradiction|reflexivity]. }
  split; [exact Hl|].
  destruct (pushBounded_ends (undoStack st) s0) as [rest Hrest].
  destruct (undo_applies (fst (commit e st)) rest s0 (carried r0) meta) as [Hret Hh];
    [now rewrite Hu | now apply deserialize_snapshot_carried |].
  unfold historyOf in Hh. injection Hh as Hr' Hm' _ _ _ _. auto.
Qed.

Lemma settle_ungoverned_eq updatedAt asOf st repo meta :
  eaRepository st = Some repo -> metadata st = Some meta ->
  String.eqb (governanceMode meta) "Strict" = false ->
  String.eqb (governanceMode meta) "Advisory" = false ->
  settle updatedAt asOf st
  = (trackHistory (snapshot repo meta updatedAt) st,
     [StorageSetItem (snapshot repo meta updatedAt)]).
Proof.
  intros Hrepo Hmeta Hs Ha. unfold settle. now rewrite Hrepo, Hmeta, Hs, Ha.
Qed.

Lemma highlights_bounded debt : length (highlights debt) <= 12.
Proof.
  unfold highlights. rewrite !List.length_app, !List.length_map.
  pose proof (firstn_le_length 3 (repoFindings (repoReport debt))).
  pose proof (firstn_le_length 3 (relFindings (relationshipReport debt))).
  pose proof (firstn_le_length 3 (invalidRelationshipInserts debt)).
  pose proof (firstn_le_length 3 (lifecycleTagMissingIds debt)).
  pose proof (List.length_firstn 3 (repoFindings (repoReport debt))).
  pose proof (List.length_firstn 3 (relFindings (relationshipReport debt))).
  pose proof (List.length_firstn 3 (invalidRelationshipInserts debt)).
  pose proof (List.length_firstn 3 (lifecycleTagMissingIds debt)).
  lia.
Qed.

Lemma strictGate_entries meta debt st entry :
  In (AppendGovernanceLog entry) (snd (fst (strictGate meta debt st))) ->
  entry = logEntry "save.blocked" "Strict" meta debt /\ blocked (summary debt) = true.
Proof.
  unfold strictGate. destruct (blocked (summary debt)).
  - destruct (keyDiffers _ _); cbn [fst snd]; [|contradiction].
    destruct (saveBlockedModal st); cbn; intros H;
      repeat (destruct H as [H|H]; [try discriminate H; injection H as <-; auto|]);
      contradiction.
  - destruct (keySet _); cbn [fst snd]; [|contradiction].
    destruct (saveBlockedModal st); cbn; intros H;
      repeat (destruct H as [H|H]; [discriminate H|]); contradiction.
Qed.

Lemma advisoryGate_entries meta debt st entry :
  In (AppendGovernanceLog entry) (snd (advisoryGate meta debt st)) ->
  entry = logEntry "save.warned" "Advisory" meta debt /\ 0 < total (summary debt).
Proof.
  unfold advisoryGate.
  destruct (Nat.ltb_spec 0 (total (summary debt))) as [Hpos|_]; cbn [andb].
  - destruct (keyDiffers _ _); destruct (Nat.eqb _ 0); cbn;
      intros H; repeat (destruct H as [H|H]; [try discriminate H; injection H as <-; auto|]);
      contradiction.
  - destruct (Nat.eqb _ 0); cbn; contradiction.
Qed.

(** X24. Every audit entry that the effect writes describes the settle
    it belongs to: it is of type [save.blocked] in Strict mode and
    [save.warned] in Advisory mode and is written in no other mode; it
    names the mode, the repository and the scope of the metadata and
    carries the summary of the debt of the settled model, whose total is
    positive, with at most twelve highlights. *)
Theorem audit_entry_describes_the_settle
    (updatedAt asOf : string) (st : State) (repo : EaRepository)
    (meta : EaRepositoryMetadata) (entry : GovernanceLogEntry) :
  eaRepository st = Some repo -> metadata st = Some meta ->
  In (AppendGovernanceLog entry) (snd (settle updatedAt asOf st)) ->
  (governanceMode meta = "Strict" /\ logType entry = "save.blocked"
   \/ governanceMode meta = "Advisory" /\ logType entry = "save.warned")
  /\ logGovernanceMode entry = governanceMode meta
  /\ logRepositoryName entry = repositoryName meta
  /\ logArchitectureScope entry = architectureScope meta
  /\ logSummary entry
     = summary (buildGovernanceDebt repo asOf (lifecycleCoverage meta))
  /\ 0 < total (summary (buildGovernanceDebt repo asOf (lifecycleCoverage meta)))
  /\ length (logHighlights entry) <= 12.
Proof.
  intros Hrepo Hmeta Hin.
  set (debt := buildGovernanceDebt repo asOf (lifecycleCoverage meta)).
  assert (entry = logEntry "save.blocked" "Strict" meta debt
          /\ governanceMode meta = "Strict" /\ blocked (summary debt) = true
          \/ entry = logEntry "save.warned" "Advisory" meta debt
             /\ governanceMode meta = "Advisory" /\ 0 < total (summary debt)) as Hcase.
  { destruct (String.eqb_spec (governanceMode meta) "Strict") as [Hs|Hs].
    - left. rewrite (settle_strict_eq _ _ _ _ _ Hrepo Hmeta Hs) in Hin. cbv zeta in Hin.
      fold debt in Hin.
      pose proof (strictGate_entries meta debt
                    (trackHistory (snapshot repo meta updatedAt) st) entry) as Hg.
      destruct (strictGate meta debt _) as [[st2 events2] returned].
      cbn [fst snd] in *. destruct returned; cbn [fst snd] in Hin.
      + destruct (Hg Hin). auto.
      + apply in_app_iff in Hin as [Hin|[Hin|[]]]; [|discriminate].
        destruct (Hg Hin). auto.
    - destruct (String.eqb_spec (governanceMode meta) "Advisory") as [Ha|Ha].
      + right. rewrite (settle_advisory_eq _ _ _ _ _ Hrepo Hmeta Ha) in Hin.
        cbv zeta in Hin. fold debt in Hin. cbn [snd] in Hin.
        apply in_app_iff in Hin as [Hin|[Hin|[]]]; [|discriminate].
        destruct (advisoryGate_entries _ _ _ _ Hin). auto.
      + apply String.eqb_neq in Hs, Ha.
        rewrite (settle_ungoverned_eq _ _ _ _ _ Hrepo Hmeta Hs Ha) in Hin.
        destruct Hin as [Hin|[]]. discriminate. }
  pose proof (highlights_bounded debt) as Hhi.
  pose proof (buildGovernanceDebt_total repo asOf (lifecycleCoverage meta)) as Htot.
  cbv zeta in Htot. fold debt in Htot.
  destruct Hcase as [(-> & Hmode & Hb)|(-> & Hmode & Hpos)];
    cbn [logEntry logType logGovernanceMode logRepositoryName logArchitectureScope
         logSummary logHighlights]; rewrite Hmode.
  - apply blocked_true_iff in Hb. repeat split; auto. lia.
  - repeat split; auto.
Qed.

Lemma strictGate_dialogs meta debt st :
  count isModalError (snd (fst (strictGate meta debt st))) + held st
  = count isModalDestroy (snd (fst (strictGate meta debt st)))
    + held (fst (fst (strictGate meta debt st))).
Proof.
  unfold strictGate, held.
  destruct (blocked _); [destruct (keyDiffers _ _)|destruct (keySet _)];
    destruct (saveBlockedModal st) eqn:Hm; cbn; rewrite ?Hm; reflexivity.
Qed.

Lemma advisoryGate_dialogs meta debt st :
  count isModalError (snd (advisoryGate meta debt st)) = 0
  /\ count isModalDestroy (snd (advisoryGate meta debt st)) = 0
  /\ held (fst (advisoryGate meta debt st)) = held st.
Proof.
  unfold advisoryGate, held.
  destruct (_ && _); destruct (Nat.eqb _ 0); cbn; auto.
Qed.

Lemma trackHistory_held next st : held (trackHistory next st) = held st.
Proof.
  unfold trackHistory, held. destruct (suppressHistory st); cbn; [reflexivity|].
  destruct (lastSerialized st) as [prev|]; [|reflexivity].
  destruct (Raw_eq_dec prev next); reflexivity.
Qed.

Lemma settle_dialogs updatedAt asOf st :
  count isModalError (snd (settle updatedAt asOf st)) + held st
  = count isModalDestroy (snd (settle updatedAt asOf st))
    + held (fst (settle updatedAt asOf st)).
Proof.
  destruct (eaRepository st) as [repo|] eqn:Hrepo;
    [destruct (metadata st) as [meta|] eqn:Hmeta|];
    [|rewrite settle_history_absent by auto; reflexivity
     |rewrite settle_history_absent by auto; reflexivity].
  set (next := snapshot repo meta updatedAt).
  set (debt := buildGovernanceDebt repo asOf (lifecycleCoverage meta)).
  pose proof (trackHistory_held next st) as Ht.
  destruct (String.eqb_spec (governanceMode meta) "Strict") as [Hs|Hs].
  - rewrite (settle_strict_eq _ _ _ _ _ Hrepo Hmeta Hs). cbv zeta.
    fold next debt.
    pose proof (strictGate_dialogs meta debt (trackHistory next st)) as Hg.
    rewrite Ht in Hg.
    destruct (strictGate meta debt _) as [[st2 events2] returned].
    cbn [fst snd] in *. destruct returned; cbn [fst snd]; [exact Hg|].
    rewrite !count_app. cbn. lia.
  - destruct (String.eqb_spec (governanceMode meta) "Advisory") as [Ha|Ha].
    + rewrite (settle_advisory_eq _ _ _ _ _ Hrepo Hmeta Ha). cbv zeta.
      fold next debt.
      destruct (advisoryGate_dialogs meta debt (trackHistory next st)) as (He & Hd & Hh).
      cbn [fst snd]. rewrite !count_app, He, Hd, Hh, Ht. cbn. lia.
    + apply String.eqb_neq in Hs, Ha.
      rewrite (settle_ungoverned_eq _ _ _ _ _ Hrepo Hmeta Hs Ha).
      cbn [fst snd]. fold next. rewrite Ht. reflexivity.
Qed.

(** X25. The provider never holds two blocking dialogs.  Over any
    session of committed edits and presses of the dialog's OK button,
    the dialogs opened, plus one if a dialog was held at the start,
    are the dialogs destroyed, plus those dismissed by the user, plus
    one if a dialog is held at the end: a new dialog is only ever opened
    after the one held was destroyed or dismissed. *)
Theorem at_most_one_blocking_dialog (steps : list GateStep) (st : State) :
  let '(st', events, dismissed) := runGate steps st in
  count isModalError events + held st
  = count isModalDestroy events + dismissed + held st'.
Proof.
  revert st. induction steps as [|[e|] steps IH]; intros st; cbn [runGate].
  - cbn. lia.
  - unfold commit.
    pose proof (settle_dialogs (editUpdatedAt e) (editAsOf e)
                  (setEaRepositoryUnsafe (Some (editRepo e)) st)) as Hs.
    change (held (setEaRepositoryUnsafe (Some (editRepo e)) st)) with (held st) in Hs.
    destruct (settle _ _ _) as [st1 events1]. cbn [fst snd] in Hs.
    specialize (IH st1). destruct (runGate steps st1) as [[st2 events2] dismissed].
    rewrite !count_app. lia.
  - specialize (IH (modalOnOk st)).
    destruct (runGate steps (modalOnOk st)) as [[st2 events2] dismissed].
    change (held (modalOnOk st)) with 0 in IH. unfold held at 1.
    destruct (saveBlockedModal st); lia.
Qed.

End StrictMore.

(** ** The meta-model tables and the backend rule table *)

Section MetaModelMore.
Import Json MetaModel MetaModelTables Semantics Governance RuleTerms.

Lemma invalid_type_undefined t :
  isValidObjectType t = false -> Js.get t OBJECT_TYPE_DEFINITIONS = None.
Proof.
  unfold isValidObjectType. cbn [existsb OBJECT_TYPES]. intros H.
  repeat (apply orb_false_iff in H as [? H]).
  cbn [Js.get OBJECT_TYPE_DEFINITIONS objectType].
  repeat match goal with
         | Hne : String.eqb t ?s = false |- _ => rewrite Hne; clear Hne
         end.
  reflexivity.
Qed.

Lemma valid_relationship_cases r :
  isValidRelationshipType (JStr r) = true -> In r RELATIONSHIP_TYPES.
Proof.
  cbn [isValidRelationshipType]. rewrite existsb_exists.
  intros [x [Hin Heq]]. apply String.eqb_eq in Heq. now subst.
Qed.

Lemma invalid_relationship_undefined r :
  isValidRelationshipType (JStr r) = false ->
  Js.get r RELATIONSHIP_TYPE_DEFINITIONS = None.
Proof.
  cbn [isValidRelationshipType existsb RELATIONSHIP_TYPES]. intros H.
  repeat (apply orb_false_iff in H as [? H]).
  cbn [Js.get RELATIONSHIP_TYPE_DEFINITIONS relationshipType].
  repeat match goal with
         | Hne : String.eqb r ?s = false |- _ => rewrite Hne; clear Hne
         end.
  reflexivity.
Qed.

Ltac each_object_type H :=
  apply isValidObjectType_cases in H; cbn [In OBJECT_TYPES] in H;
  decompose [or] H; clear H; try contradiction; subst.

Ltac each_relationship_type H :=
  apply valid_relationship_cases in H; cbn [In RELATIONSHIP_TYPES] in H;
  decompose [or] H; clear H; try contradiction; subst.

Ltac settle_table :=
  cbn in *; intuition (subst; try discriminate; try congruence; eauto).

Lemma incoming_matches_targets t r :
  In r (incomingOf t) <-> In t (toTypesOf r).
Proof.
  unfold incomingOf, toTypesOf.
  destruct (isValidObjectType t) eqn:Ht;
    destruct (isValidRelationshipType (JStr r)) eqn:Hr.
  - each_object_type Ht; each_relationship_type Hr; settle_table.
  - rewrite (invalid_relationship_undefined r Hr).
    each_object_type Ht; settle_table.
  - rewrite (invalid_type_undefined t Ht).
    each_relationship_type Hr; settle_table.
  - rewrite (invalid_relationship_undefined r Hr), (invalid_type_undefined t Ht).
    reflexivity.
Qed.

Lemma outgoing_within_sources t r :
  In r (outgoingOf t) -> In t (fromTypesOf r).
Proof.
  unfold outgoingOf, fromTypesOf.
  destruct (isValidObjectType t) eqn:Ht;
    [|rewrite (invalid_type_undefined t Ht); contradiction].
  destruct (isValidRelationshipType (JStr r)) eqn:Hr.
  - each_object_type Ht; each_relationship_type Hr; settle_table.
  - rewrite (invalid_relationship_undefined r Hr).
    each_object_type Ht; settle_table.
Qed.

Lemma sources_beyond_outgoing t r :
  In t (fromTypesOf r) -> ~ In r (outgoingOf t) ->
  t = "SubCapability" /\ r = "DECOMPOSES_TO".
Proof.
  unfold outgoingOf, fromTypesOf.
  destruct (isValidRelationshipType (JStr r)) eqn:Hr;
    [|rewrite (invalid_relationship_undefined r Hr); contradiction].
  destruct (isValidObjectType t) eqn:Ht.
  - each_object_type Ht; each_relationship_type Hr; settle_table.
  - rewrite (invalid_type_undefined t Ht).
    each_relationship_type Hr; settle_table.
Qed.

(** X26. The tables of the meta-model agree with each other.  The
    object-type table defines exactly the types of [OBJECT_TYPES], each
    entry under its own name and with the layer that the scope policy
    reads; the relationship table defines exactly [RELATIONSHIP_TYPES],
    of which only strings are members, and [EA_LAYERS] lists every layer.
    A relationship type is an allowed incoming relationship of an object
    type exactly when that type is one of its target types, and an
    allowed outgoing relationship only when the type is one of its
    source types; the one source type that does not list the
    relationship as outgoing is SubCapability for DECOMPOSES_TO. *)
Theorem meta_model_tables_agree (t r : string) :
  (is_Some (Js.get t OBJECT_TYPE_DEFINITIONS) <-> isValidObjectType t = true)
  /\ (forall d, Js.get t OBJECT_TYPE_DEFINITIONS = Some d ->
        ObjectTypeDefinition.type d = t
        /\ layerOf t = Some (ObjectTypeDefinition.layer d))
  /\ (is_Some (Js.get r RELATIONSHIP_TYPE_DEFINITIONS)
      <-> isValidRelationshipType (JStr r) = true)
  /\ (forall d, Js.get r RELATIONSHIP_TYPE_DEFINITIONS = Some d ->
        RelationshipTypeDefinition.type d = r)
  /\ (forall v, isValidRelationshipType v = true -> exists name, v = JStr name)
  /\ (forall layer : EaLayer, In layer EA_LAYERS)
  /\ (In r (incomingOf t) <-> In t (toTypesOf r))
  /\ (In r (outgoingOf t) -> In t (fromTypesOf r))
  /\ (In t (fromTypesOf r) -> ~ In r (outgoingOf t) ->
      t = "SubCapability" /\ r = "DECOMPOSES_TO").
Proof.
  split; [|split; [|split; [|split; [|split; [|split; [|split; [|split]]]]]]].
  - destruct (isValidObjectType t) eqn:Ht.
    + each_object_type Ht; cbn; split; eauto.
    + rewrite (invalid_type_undefined t Ht). split; [intros [? ?]|]; discriminate.
  - intros d. destruct (isValidObjectType t) eqn:Ht.
    + each_object_type Ht; cbn; intros [= <-]; split; reflexivity.
    + rewrite (invalid_type_undefined t Ht). discriminate.
  - destruct (isValidRelationshipType (JStr r)) eqn:Hr.
    + each_relationship_type Hr; cbn; split; eauto.
    + rewrite (invalid_relationship_undefined r Hr). split; [intros [? ?]|]; discriminate.
  - intros d. destruct (isValidRelationshipType (JStr r)) eqn:Hr.
    + each_relationship_type Hr; cbn; intros [= <-]; reflexivity.
    + rewrite (invalid_relationship_undefined r Hr). discriminate.
  - intros [| |b|n|name|items|props]; try discriminate. eauto.
  - intros []; cbn; tauto.
  - apply incoming_matches_targets.
  - apply outgoing_within_sources.
  - apply sources_beyond_outgoing.
Qed.

Lemma sources_are_relationships r f :
  In f (fromTypesOf r) -> isValidRelationshipType (JStr r) = true.
Proof.
  unfold fromTypesOf. destruct (isValidRelationshipType (JStr r)) eqn:Hr; [reflexivity|].
  rewrite (invalid_relationship_undefined r Hr). contradiction.
Qed.

(** X27. The front-end meta-model and the backend rule table agree on
    two relationship types only.  For every endpoint pair that the
    front-end table allows for a relationship type, the backend rule of
    that type admits the projected element types exactly when the type
    is DEPENDS_ON or HOSTED_ON: REALIZES, SUPPORTS, DELIVERS and OWNS
    have no backend rule, and the backend rule of DECOMPOSES_TO wants a
    BusinessProcess where the front end has a capability. *)
Theorem backend_rules_admit_two_front_end_types (r f t : string) :
  In f (fromTypesOf r) -> In t (toTypesOf r) ->
  backendRuleAdmits r f t = true <-> r = "DEPENDS_ON" \/ r = "HOSTED_ON".
Proof.
  intros Hf Ht. pose proof (sources_are_relationships r f Hf) as Hr.
  unfold fromTypesOf, toTypesOf in *.
  each_relationship_type Hr; cbn in Hf, Ht;
    decompose [or] Hf; decompose [or] Ht; try contradiction; subst;
    vm_compute; intuition discriminate.
Qed.

End MetaModelMore.

(** ** The explorer tree and the catalog tables *)

Section ExplorerMore.
Import Explorer ExplorerTerms Catalog.

Lemma openForKey_wellFormed key : wellFormed (openForKey key).
Proof.
  unfold openForKey, wellFormed.
  repeat match goal with
         | |- context [String.eqb key ?s] => destruct (String.eqb key s)
         end;
    cbn [orb]; try (now left); try (now right);
    (split; [cbn; tauto | split; [discriminate | discriminate]]).
Qed.

(** X28. Whatever is selected in the explorer, the handler does
    nothing, for a click on the caret or a key that is no string, or it
    selects exactly the clicked key and asks either for a catalog that
    the catalog tab knows, with a title and columns of its own, or for
    one of the routes /governance and /workspace.  Over the tree as it
    is defined: every root is expanded by default and opens what its
    first child opens; a leaf that opens a catalog opens the one that
    carries its title; and the leaves without a view of their own, whose
    selection falls through to /workspace, are Departments and
    Projects. *)
Theorem explorer_requests_are_well_formed
    (selectedKeys : list ReactKey) (onSwitcher : bool) :
  Forall expected (onSelect selectedKeys onSwitcher)
  /\ (length (onSelect selectedKeys onSwitcher) = 0
      \/ exists key,
           onSelect selectedKeys onSwitcher
           = [SetSelection "repository" [key]; Open (openForKey key)])
  /\ (forall rest, onSelect rest true = [])
  /\ defaultExpandedKeys = List.map nodeKey EXPLORER_TREE_DATA
  /\ Forall opensLikeFirstChild EXPLORER_TREE_DATA
  /\ Forall opensOwnCatalog leaves
  /\ List.map nodeTitle
       (List.filter
          (fun leaf =>
             match openForKey (nodeKey leaf) with
             | OpenRouteTab "/workspace" => true
             | _ => false
             end) leaves)
     = ["Departments"; "Projects"].
Proof.
  split.
  { unfold onSelect. destruct selectedKeys as [|[key|n] rest]; [constructor| |constructor].
    destruct onSwitcher; [constructor|].
    constructor; [now split|]. constructor; [|constructor].
    apply openForKey_wellFormed. }
  split.
  { unfold onSelect. destruct selectedKeys as [|[key|n] rest]; [now left| |now left].
    destruct onSwitcher; [now left|]. right. now exists key. }
  split.
  { intros [|[key|n] rest]; reflexivity. }
  split; [reflexivity|].
  split; [repeat constructor|].
  split; [repeat constructor | reflexivity].
Qed.

End ExplorerMore.

(** ** Edits after an undo, and the ids of attempted records *)

Section HistoryMore.
Import Json ArchRepo RelRepo Ea Governance Metadata Provider Mount GateTerms.
Context {platform : Platform} {env : Environment}.
Context {api : RelationshipRepositoryApi} {validators : Validators api}.

(** X29. A committed edit that changes the snapshot discards the redo
    history: the redo stack is emptied, the redo flag cleared, and a
    redo then answers false and leaves the edited model in place.  An
    edit that is committed before the effect of an undo or redo has run
    is not recorded at all: neither stack changes. *)
Theorem new_edit_discards_redo
    (meta : EaRepositoryMetadata) (e : Edit) (st : State) (s0 : Raw) :
  metadata st = Some meta -> lastSerialized st = Some s0 ->
  s0 <> snapshotOfEdit meta e ->
  (suppressHistory st = false ->
   redoStack (fst (commit e st)) = []
   /\ canRedo (fst (commit e st)) = false
   /\ fst (redo (fst (commit e st))) = false
   /\ eaRepository (snd (redo (fst (commit e st)))) = Some (editRepo e))
  /\ (suppressHistory st = true ->
      undoStack (fst (commit e st)) = undoStack st
      /\ redoStack (fst (commit e st)) = redoStack st
      /\ lastSerialized (fst (commit e st)) = Some (snapshotOfEdit meta e)).
Proof.
  intros Hmeta Hlast Hne. unfold commit.
  set (st0 := setEaRepositoryUnsafe (Some (editRepo e)) st).
  destruct (settle_tracks (editUpdatedAt e) (editAsOf e) st0 (editRepo e) meta
              eq_refl Hmeta) as (k & m & w & Hsettled).
  rewrite Hsettled. unfold trackHistory.
  change (suppressHistory st0) with (suppressHistory st).
  change (lastSerialized st0) with (lastSerialized st).
  rewrite Hlast. unfold snapshotOfEdit in Hne.
  split; intros Hsup; rewrite Hsup; cbn [negb].
  - destruct (Raw_eq_dec s0 _); [contradiction|].
    repeat split.
  - repeat split.
Qed.

End HistoryMore.

Section TrimFacts.

Lemma trimStart_unfold s :
  Js.trimStart s
  = match Js.afterSpace s with Some r => Js.trimStart r | None => s end.
Proof.
  destruct s as [|a [|b [|c r]]]; cbn [Js.trimStart Js.afterSpace]; try reflexivity.
  - destruct (Js.isSpace a); reflexivity.
  - destruct (Js.isSpace a); [reflexivity|]. destruct (Js.isSpace2 a b); reflexivity.
  - destruct (Js.isSpace a); [reflexivity|]. destruct (Js.isSpace2 a b); [reflexivity|].
    destruct (Js.isSpace3 a b c); reflexivity.
Qed.

Lemma afterSpace_shorter s r :
  Js.afterSpace s = Some r -> String.length r < String.length s.
Proof.
  destruct s as [|a [|b [|c t]]]; cbn [Js.afterSpace String.length]; try discriminate.
  - destruct (Js.isSpace a); [|discriminate]. intros [= <-]. cbn. lia.
  - destruct (Js.isSpace a); [intros [= <-]; cbn; lia|].
    destruct (Js.isSpace2 a b); [|discriminate]. intros [= <-]. cbn. lia.
  - destruct (Js.isSpace a); [intros [= <-]; cbn; lia|].
    destruct (Js.isSpace2 a b); [intros [= <-]; cbn; lia|].
    destruct (Js.isSpace3 a b c); [|discriminate]. intros [= <-]. lia.
Qed.

Lemma append_cons a s w : String.append (String a s) w = String a (String.append s w).
Proof. reflexivity. Qed.

Lemma afterSpace_app s r w :
  Js.afterSpace s = Some r -> Js.afterSpace (String.append s w) = Some (String.append r w).
Proof.
  destruct s as [|a [|b [|c t]]]; rewrite ?append_cons; cbn [Js.afterSpace];
    try discriminate.
  - destruct (Js.isSpace a); [|discriminate]. now intros [= <-].
  - destruct (Js.isSpace a); [now intros [= <-]|].
    destruct (Js.isSpace2 a b); [|discriminate]. now intros [= <-].
  - destruct (Js.isSpace a); [now intros [= <-]|].
    destruct (Js.isSpace2 a b); [now intros [= <-]|].
    destruct (Js.isSpace3 a b c); [|discriminate]. now intros [= <-].
Qed.

(** What [trimStart] leaves does not start with white space. *)
Lemma trimStart_clean s : Js.afterSpace (Js.trimStart s) = None.
Proof.
  remember (String.length s) as n eqn:Hn. revert s Hn.
  induction n as [n IH] using lt_wf_ind. intros s ->.
  rewrite trimStart_unfold. destruct (Js.afterSpace s) as [r|] eqn:Hs; [|exact Hs].
  apply (IH (String.length r)); [now apply afterSpace_shorter|reflexivity].
Qed.

Lemma trimStart_fixed s : Js.afterSpace s = None -> Js.trimStart s = s.
Proof. intros H. now rewrite trimStart_unfold, H. Qed.

(** White space before a string is stripped with the white space that
    the string starts with. *)
Lemma trimStart_app p w :
  Js.trimStart p = EmptyString -> Js.trimStart (String.append p w) = Js.trimStart w.
Proof.
  remember (String.length p) as n eqn:Hn. revert p Hn.
  induction n as [n IH] using lt_wf_ind. intros p -> Hp.
  destruct p as [|a p']; [reflexivity|].
  rewrite trimStart_unfold in Hp.
  destruct (Js.afterSpace (String a p')) as [r|] eqn:Hs; [|discriminate Hp].
  rewrite trimStart_unfold, (afterSpace_app _ _ w Hs).
  apply (IH (String.length r)); [now apply afterSpace_shorter|reflexivity|exact Hp].
Qed.

(** [trimEnd] cuts off white space only. *)
Lemma trimEnd_split s :
  exists w, s = String.append (Js.trimEnd s) w /\ Js.trimStart w = EmptyString.
Proof.
  induction s as [|c rest IH].
  - exists EmptyString. split; reflexivity.
  - cbn [Js.trimEnd]. destruct (Js.trimStart (String c rest)) as [|x y] eqn:Hs.
    + exists (String c rest). split; [reflexivity|exact Hs].
    + destruct IH as (w & Hw & Hspace). exists w. split; [|exact Hspace].
      rewrite append_cons. now rewrite <- Hw.
Qed.

Lemma trimEnd_idem s : Js.trimEnd (Js.trimEnd s) = Js.trimEnd s.
Proof.
  induction s as [|c rest IH]; [reflexivity|].
  cbn [Js.trimEnd]. destruct (Js.trimStart (String c rest)) as [|x y] eqn:Hs; [reflexivity|].
  cbn [Js.trimEnd]. rewrite IH.
  destruct (Js.trimStart (String c (Js.trimEnd rest))) as [|x' y'] eqn:Hp; [|reflexivity].
  destruct (trimEnd_split rest) as (w & Hw & Hspace).
  pose proof (trimStart_app _ w Hp) as Happ. rewrite append_cons in Happ.
  rewrite <- Hw, Hs, Hspace in Happ. discriminate Happ.
Qed.

(** Cutting the end off leaves the start as it was. *)
Lemma trimEnd_clean s : Js.afterSpace s = None -> Js.afterSpace (Js.trimEnd s) = None.
Proof.
  intros Hs. destruct (trimEnd_split s) as (w & Hw & _).
  destruct (Js.afterSpace (Js.trimEnd s)) as [r|] eqn:Hp; [|reflexivity].
  apply (afterSpace_app _ _ w) in Hp. rewrite <- Hw, Hs in Hp. discriminate Hp.
Qed.

Lemma trim_idem s : Js.trim (Js.trim s) = Js.trim s.
Proof.
  unfold Js.trim.
  rewrite (trimStart_fixed (Js.trimEnd (Js.trimStart s))).
  - apply trimEnd_idem.
  - apply trimEnd_clean, trimStart_clean.
Qed.

Example trim_unicode_white_space :
  Js.trim (String.append StandIns.nbsp (String.append " a b " StandIns.bom)) = "a b"
  /\ Js.trim (String.append "a" StandIns.zwsp) = String.append "a" StandIns.zwsp.
Proof. split; vm_compute; reflexivity. Qed.

End TrimFacts.

Section AttemptedRecords.
Import Json ArchRepo RelRepo Ea Governance GovernanceTerms.

(** X30. A record that is handed to [addRelationship] is named rel_i
    after the loop index i at which it is built; it is a draft, takes a
    dependency strength from a DEPENDS_ON relationship only, and carries
    trimmed ids and a trimmed type: relationship ends are compared after
    trimming, object ids as they are, so an object whose id has white
    space at either end is never the endpoint of an attempted record. *)
Theorem attempted_endpoints_are_trimmed
    (eaRepository : EaRepository) (ids : list string) (now : string)
    (i : nat) (rel : EaRelationship.t) (rec : RelationshipRecord) :
  projectRelationship eaRepository ids now i rel = Some rec ->
  rid rec = "rel_" +:+ pretty i
  /\ Js.trim (sourceElementId rec) = sourceElementId rec
  /\ Js.trim (targetElementId rec) = targetElementId rec
  /\ Js.trim (relationshipType rec) = relationshipType rec
  /\ status rec = "Draft"
  /\ (relationshipType rec <> "DEPENDS_ON" -> dependencyStrength rec = None)
  /\ (forall obj : EaObject.t,
        Js.trim (EaObject.id obj) <> EaObject.id obj ->
        sourceElementId rec <> EaObject.id obj
        /\ targetElementId rec <> EaObject.id obj).
Proof.
  unfold projectRelationship.
  destruct (_ || _); [discriminate|]. destruct (_ || _); [discriminate|].
  intros [= <-].
  cbn [rid sourceElementId targetElementId relationshipType status dependencyStrength].
  split; [reflexivity|]. split; [apply trim_idem|]. split; [apply trim_idem|].
  split; [apply trim_idem|]. split; [reflexivity|].
  split.
  { intros Hty. apply String.eqb_neq in Hty. now rewrite Hty. }
  intros obj Hobj. split; intros Heq; apply Hobj; rewrite <- Heq; apply trim_idem.
Qed.

End AttemptedRecords.

(** ** Concrete runs of the further properties *)

Section FurtherRuns.
Import Json ArchRepo ArchRepoRuns RelRepo Ea Governance Metadata ScopePolicy Provider.
Import ScopeCheckTerms Mount GateTerms GateRuns StandIns.

Lemma read_only_check_characterised_witness :
  let prev := StandIns.oneApp in
  let next := StandIns.twoApps in
  isScoped (Some "Domain") = true
  /\ (@hasReadOnlyObjectChanges StandIns.valuePlatform (Some prev) (Some next)
         (Some "Domain") = true
      <-> exists k, @changeBarred StandIns.valuePlatform prev next (Some "Domain") k).
Proof.
  intros prev next. split; [reflexivity|].
  apply (@read_only_check_characterised StandIns.valuePlatform prev next (Some "Domain")).
  reflexivity.
Defined.

Lemma scoped_update_cannot_add_or_remove_witness :
  let st := StandIns.freshState StandIns.oneApp
              (StandIns.metadataWith "Business Unit" "Advisory") in
  ScopePolicy.isAnyObjectTypeWritableForScope (Some "Business Unit") (Some "Application")
  = true
  /\ Js.has "app-2" (objects StandIns.oneApp) = false
  /\ Js.get "app-2" (objects StandIns.twoApps)
     = Some (StandIns.application "app-2" "Owner")
  /\ @setEaRepository StandIns.valuePlatform (Value (Some StandIns.twoApps)) st
     = (st, [MessageWarning businessUnitWarning]).
Proof.
  intros st. split; [reflexivity|]. split; [reflexivity|]. split; [reflexivity|].
  apply (@scoped_update_cannot_add_or_remove StandIns.valuePlatform st StandIns.oneApp StandIns.twoApps
           (Value (Some StandIns.twoApps)) "app-2").
  - reflexivity.
  - reflexivity.
  - reflexivity.
  - discriminate.
Defined.

Lemma string_compare_tells_apart : SortTerms.tellsKeysApart String.compare.
Proof.
  split; [|split].
  - intros x y. apply String.compare_antisym.
  - intros x y z H1 H2.
    apply OrderedTypeEx.String_as_OT.cmp_lt in H1, H2.
    apply OrderedTypeEx.String_as_OT.cmp_lt.
    eapply OrderedTypeEx.String_as_OT.lt_trans; eauto.
  - intros x y. apply String.compare_eq_iff.
Qed.

Lemma stableStringify_ignores_key_order_witness :
  stableStringify String.compare (JObj StandIns.attrsAB)
  = stableStringify String.compare (JObj StandIns.attrsBA).
Proof.
  apply (stableStringify_ignores_key_order String.compare string_compare_tells_apart
           StandIns.attrsAB StandIns.attrsBA).
  - cbn. apply NoDup_cons. split; [|apply NoDup_singleton].
    apply not_elem_of_cons. split; [discriminate | apply not_elem_of_nil].
  - apply perm_swap.
Defined.

Lemma attempted_record_types_match_store_witness :
  let store :=
    @typedStoreOf specApi StandIns.plainValidators StandIns.warnedRepository
      StandIns.noon None in
  exists src tgt,
    getElementById "app-1" store = Some src
    /\ elementType src = "Application"
    /\ getElementById "app-2" store = Some tgt
    /\ elementType tgt = "Application".
Proof.
  intros store.
  apply (@attempted_record_types_match_store specApi StandIns.plainValidators
           StandIns.warnedRepository StandIns.noon None 0
           (StandIns.dependsOn "app-1" "app-2")
           (StandIns.recordOf "DEPENDS_ON" "app-1" "app-2")).
  - split.
    + cbn. apply NoDup_cons. split; [|apply NoDup_singleton].
      apply not_elem_of_cons. split; [discriminate | apply not_elem_of_nil].
    + cbn. intros k obj [[= <- <-]|[[= <- <-]|[]]]; reflexivity.
  - reflexivity.
Defined.

Lemma backend_rules_admit_two_front_end_types_witness :
  In "Application" (MetaModelTables.fromTypesOf "DEPENDS_ON")
  /\ In "Application" (MetaModelTables.toTypesOf "DEPENDS_ON")
  /\ (RuleTerms.backendRuleAdmits "DEPENDS_ON" "Application" "Application" = true
      <-> "DEPENDS_ON" = "DEPENDS_ON" \/ "DEPENDS_ON" = "HOSTED_ON").
Proof.
  split; [now left|]. split; [now left|].
  apply (backend_rules_admit_two_front_end_types "DEPENDS_ON" "Application" "Application").
  - now left.
  - now left.
Defined.

(** *** Mounting and loading *)

Lemma unreadable_snapshot_is_removed_at_mount_witness :
  @deserializeRaw valuePlatform plainEnvironment JNull = None
  /\ @settle valuePlatform specApi plainValidators noon noon
       (@initialState valuePlatform plainEnvironment (Some JNull))
     = (@initialState valuePlatform plainEnvironment None, [StorageRemoveItem]).
Proof.
  split; [reflexivity|].
  exact (proj2 (@unreadable_snapshot_is_removed_at_mount valuePlatform plainEnvironment
                  specApi plainValidators JNull noon noon eq_refl)).
Defined.

Lemma reload_records_stored_snapshot_witness :
  let raw := @snapshot valuePlatform oneApp advisoryMeta noon in
  let st := fst (@settle valuePlatform specApi plainValidators later later
                   (@initialState valuePlatform plainEnvironment (Some raw))) in
  @deserializeRaw valuePlatform plainEnvironment raw = Some (oneApp, advisoryMeta)
  /\ undoStack st = [raw] /\ canUndo st = true.
Proof.
  cbv zeta. split; [reflexivity|].
  destruct (@reload_records_stored_snapshot valuePlatform plainEnvironment specApi
              plainValidators (@snapshot valuePlatform oneApp advisoryMeta noon)
              oneApp advisoryMeta later later eq_refl)
    as (_ & _ & _ & _ & _ & Hpush).
  apply Hpush. apply json_neq_of_eqb. vm_compute. reflexivity.
Defined.

Lemma load_keeps_previous_snapshot_undoable_witness :
  let st := settledState oneApp advisoryMeta noon in
  let s0 := @snapshot valuePlatform oneApp advisoryMeta noon in
  let text := @snapshot valuePlatform twoApps advisoryMeta noon in
  let loaded :=
    snd (@loadRepositoryFromJsonText valuePlatform plainEnvironment text st) in
  let settled := fst (@settle valuePlatform specApi plainValidators later later loaded) in
  eaRepository st = Some oneApp
  /\ eaRepository loaded = Some twoApps
  /\ undoStack loaded = []
  /\ undoStack settled = [s0]
  /\ canUndo settled = true
  /\ fst (@undo valuePlatform plainEnvironment settled) = true
  /\ eaRepository (snd (@undo valuePlatform plainEnvironment settled)) = Some oneApp.
Proof.
  cbv zeta.
  assert (@rebuilds plainEnvironment advisoryMeta oneApp) as Hreb
    by (apply rebuilds_sample; reflexivity).
  destruct (@load_keeps_previous_snapshot_undoable valuePlatform plainEnvironment specApi
              plainValidators
              (@snapshot valuePlatform twoApps advisoryMeta noon)
              (freshState oneApp advisoryMeta) oneApp advisoryMeta noon noon
              twoApps advisoryMeta later later
              valuePlatform_laws Hreb eq_refl eq_refl eq_refl)
    as (Hheld & _ & Hrepo & _ & Hu & _ & _ & _ & Hpushed & Hflag & Hret & Hundo & _).
  { apply json_neq_of_eqb. vm_compute. reflexivity. }
  split; [exact Hheld|]. split; [exact Hrepo|]. split; [exact Hu|].
  split; [exact Hpushed|]. split; [exact Hflag|]. split; [exact Hret|]. exact Hundo.
Defined.

(** *** Undo on an entry that cannot be restored, and the flags *)

Lemma failed_undo_still_consumes_entry_witness :
  let st := @setHistory valuePlatform [JNull] [] true false
              (freshState oneApp advisoryMeta) in
  @deserializeRaw valuePlatform plainEnvironment JNull = None
  /\ fst (@undo valuePlatform plainEnvironment st) = false
  /\ undoStack (snd (@undo valuePlatform plainEnvironment st)) = []
  /\ canUndo (snd (@undo valuePlatform plainEnvironment st)) = true.
Proof.
  cbv zeta. split; [reflexivity|].
  rewrite (proj1 (@failed_undo_still_consumes_entry valuePlatform plainEnvironment
                    (@setHistory valuePlatform [JNull] [] true false
                       (freshState oneApp advisoryMeta))
                    [] JNull eq_refl) eq_refl).
  repeat split.
Defined.

Lemma history_flags_follow_the_stacks_witness :
  let st := freshState oneApp advisoryMeta in
  @flagsAgree valuePlatform st
  /\ @flagsAgree valuePlatform
       (fst (@commit valuePlatform specApi plainValidators (edit twoApps later)
               (settledState oneApp advisoryMeta noon))).
Proof.
  cbv zeta. split; [split; reflexivity|].
  assert (@flagsAgree valuePlatform
            (@setEaRepositoryUnsafe valuePlatform (Some twoApps)
               (settledState oneApp advisoryMeta noon))) as Hflags
    by (split; reflexivity).
  exact (proj1 (@history_flags_follow_the_stacks valuePlatform plainEnvironment specApi
                  plainValidators _ Hflags) later later).
Defined.

(** *** Strict mode over a run *)

Lemma strict_gate_reports_each_blocked_episode_witness :
  let st := freshState emptyRepository strictMeta in
  let run := [ edit unownedRepository "t1"; edit unownedRepository "t2";
               edit oneApp "t3"; edit unownedRepository "t4" ] in
  let events := snd (@commits valuePlatform specApi plainValidators run st) in
  (metadata st = Some strictMeta /\ governanceMode strictMeta = "Strict"
   /\ lastSaveBlockedKey st = None)
  /\ countLog "save.blocked" events = 2
  /\ count isModalError events = 2
  /\ count isReleaseMessage events = 1
  /\ countPersisted events = 1.
Proof.
  cbv zeta. split; [repeat split|].
  exact (@strict_gate_reports_each_blocked_episode valuePlatform specApi plainValidators
           (freshState emptyRepository strictMeta) strictMeta
           [ edit unownedRepository "t1"; edit unownedRepository "t2";
             edit oneApp "t3"; edit unownedRepository "t4" ]
           eq_refl eq_refl eq_refl).
Defined.

Lemma blocked_save_is_still_recorded_in_history_witness :
  let st := settledState oneApp strictMeta noon in
  let e := edit unownedRepository later in
  @blocked (@debtOfEdit specApi plainValidators strictMeta e) = true
  /\ eaRepository st = Some oneApp
  /\ persisted (snd (@commit valuePlatform specApi plainValidators e st)) = false
  /\ eaRepository (fst (@commit valuePlatform specApi plainValidators e st))
     = Some unownedRepository
  /\ undoStack (fst (@commit valuePlatform specApi plainValidators e st))
     = [@snapshot valuePlatform oneApp strictMeta noon]
  /\ canUndo (fst (@commit valuePlatform specApi plainValidators e st)) = true
  /\ fst (@undo valuePlatform plainEnvironment
            (fst (@commit valuePlatform specApi plainValidators e st))) = true
  /\ eaRepository
       (snd (@undo valuePlatform plainEnvironment
               (fst (@commit valuePlatform specApi plainValidators e st))))
     = Some oneApp.
Proof.
  cbv zeta. split; [reflexivity|].
  assert (@rebuilds plainEnvironment strictMeta oneApp) as Hreb
    by (apply rebuilds_sample; reflexivity).
  destruct (@blocked_save_is_still_recorded_in_history valuePlatform plainEnvironment
              specApi plainValidators strictMeta (edit unownedRepository later)
              (freshState oneApp strictMeta) oneApp noon noon
              valuePlatform_laws Hreb eq_refl eq_refl eq_refl)
    as (Hheld & Hp & Hrepo & Hu & _ & Hc & _ & Hret & Hundo & _).
  { apply json_neq_of_eqb. vm_compute. reflexivity. }
  { reflexivity. }
  split; [exact Hheld|]. split; [exact Hp|]. split; [exact Hrepo|]. split; [exact Hu|].
  split; [exact Hc|]. split; [exact Hret|]. exact Hundo.
Defined.

Lemma audit_entry_describes_the_settle_witness :
  let st := freshState unownedRepository strictMeta in
  let debt :=
    @buildGovernanceDebt specApi plainValidators unownedRepository noon
      (lifecycleCoverage strictMeta) in
  let entry := @logEntry "save.blocked" "Strict" strictMeta debt in
  In (AppendGovernanceLog entry)
    (snd (@settle valuePlatform specApi plainValidators noon noon st))
  /\ logRepositoryName entry = "Sample"
  /\ logSummary entry = summary debt
  /\ length (logHighlights entry) <= 12.
Proof.
  cbv zeta.
  assert (In (AppendGovernanceLog
                (@logEntry "save.blocked" "Strict" strictMeta
                   (@buildGovernanceDebt specApi plainValidators unownedRepository noon
                      (lifecycleCoverage strictMeta))))
            (snd (@settle valuePlatform specApi plainValidators noon noon
                    (freshState unownedRepository strictMeta)))) as Hin
    by (left; reflexivity).
  split; [exact Hin|].
  destruct (@audit_entry_describes_the_settle valuePlatform specApi plainValidators
              noon noon (freshState unownedRepository strictMeta) unownedRepository
              strictMeta _ eq_refl eq_refl Hin)
    as (_ & _ & Hname & _ & Hsum & _ & Hlen).
  split; [exact Hname|]. split; [exact Hsum | exact Hlen].
Defined.

(** *** Edits after an undo, attempted records *)

Lemma new_edit_discards_redo_witness :
  let st := @setHistory valuePlatform [] [@snapshot valuePlatform twoApps advisoryMeta noon]
              false true (settledState oneApp advisoryMeta noon) in
  let st' := fst (@commit valuePlatform specApi plainValidators
                    (edit emptyRepository later) st) in
  redoStack st = [@snapshot valuePlatform twoApps advisoryMeta noon]
  /\ redoStack st' = []
  /\ canRedo st' = false
  /\ fst (@redo valuePlatform plainEnvironment st') = false.
Proof.
  cbv zeta. split; [reflexivity|].
  destruct (@new_edit_discards_redo valuePlatform plainEnvironment specApi
              plainValidators advisoryMeta (edit emptyRepository later)
              (@setHistory valuePlatform []
                 [@snapshot valuePlatform twoApps advisoryMeta noon] false true
                 (settledState oneApp advisoryMeta noon))
              (@snapshot valuePlatform oneApp advisoryMeta noon) eq_refl eq_refl)
    as [Hplain _].
  { apply json_neq_of_eqb. vm_compute. reflexivity. }
  destruct (Hplain eq_refl) as (H1 & H2 & H3 & _).
  split; [exact H1|]. split; [exact H2 | exact H3].
Defined.

Lemma attempted_endpoints_are_trimmed_witness :
  let rel := dependsOn " app-1 " "app-2" in
  let rec := recordOf "DEPENDS_ON" "app-1" "app-2" in
  projectRelationship warnedRepository ["app-1"; "app-2"] noon 0 rel = Some rec
  /\ rid rec = "rel_0"
  /\ Js.trim (sourceElementId rec) = sourceElementId rec
  /\ sourceElementId rec <> " app-1 ".
Proof.
  cbv zeta. split; [reflexivity|].
  destruct (attempted_endpoints_are_trimmed warnedRepository ["app-1"; "app-2"] noon 0
              (dependsOn " app-1 " "app-2") (recordOf "DEPENDS_ON" "app-1" "app-2")
              eq_refl)
    as (Hrid & Hsrc & _ & _ & _ & _ & Hobj).
  split; [exact Hrid|]. split; [exact Hsrc|].
  refine (proj1 (Hobj (application " app-1 " "Owner") _)). discriminate.
Defined.

End FurtherRuns.
